(** * Employee administration API: hierarchy integrity and request pipeline

    A shallow embedding of
    - [middleware/validation.js] (id format check, manager-assignment
      validation, the manager-chain walk, input sanitization, the audit
      log, the age rule),
    - [middleware/auth.js] (the role checks),
    - the Employee model (the paths of the schema with their setters, the
      [required] validators and the pattern of [employeeId], the two
      [pre('save')] hooks, the [fullName] virtual),
    - the admin router (create, read, update, delete, statistics, the
      pages of the listing and the order in which the routes are
      registered).

    Conventions of the model.
    - Payloads and stored documents are trees of type [value]; a JS
      object is an association list in key order.
    - Strings are sequences of 8-bit code units.
    - The record store is a finite map from [_id] to documents.  An
      ObjectId, as the key of the store or as a reference in a document,
      is the string of 24 lower-case hexadecimal digits that
      [toString()] prints.  An id of a request is the string that the
      client wrote: the JavaScript code compares it as a string, and
      Mongoose casts it to an ObjectId when it goes into a query or a
      document ([ObjectId.cast]).
    - The store operations used by the code ([findById], [findOne], [find],
      [countDocuments], [save], [findByIdAndUpdate], [findByIdAndDelete])
      follow the documented behaviour of Mongoose: the members of the
      data are cast to the types of the schema and members outside the
      schema are dropped; an update document is a [$set] of each of its
      top-level keys, [findByIdAndUpdate] runs the update validators and
      no [save] middleware; a document that a query returns comes with
      the defaults of the schema.
    - What the program reads from its surroundings is an explicit input
      ([Env]): the clock, the random generator, the id issued for a new
      document, and the behaviour of the libraries that is not spelled
      out here. *)

From stdpp Require Import gmap strings list fin_maps.
From Stdlib Require Import ZArith Ascii String DecimalString.

Set Warnings "-register-all".
Local Open Scope string_scope.
Local Open Scope Z_scope.

(** ** Values

    The values of JSON, the [Date] and the [ObjectId]; [VId] carries the
    24 lower-case hexadecimal digits that [toString()] prints. *)

Inductive value : Type :=
| VNull
| VBool (b : bool)
| VNum (z : Z)
| VStr (s : string)
| VDate (ms : Z)
| VArr (items : list value)
| VObj (fields : list (string * value))
| VId (id : string).

(** [obj[key]] on a value; [None] is JavaScript's [undefined]. *)
Fixpoint assoc (k : string) (fields : list (string * value)) : option value :=
  match fields with
  | [] => None
  | (k', v) :: rest => if String.eqb k k' then Some v else assoc k rest
  end.

(** The members of a document. *)
Definition members (v : value) : list (string * value) :=
  match v with
  | VObj fields => fields
  | _ => []
  end.

Definition getField (k : string) (v : value) : option value :=
  match v with
  | VObj fields => assoc k fields
  | _ => None
  end.

(** JavaScript truthiness of [obj[key]]. *)
Definition truthy (o : option value) : bool :=
  match o with
  | None => false
  | Some VNull => false
  | Some (VBool b) => b
  | Some (VNum z) => negb (z =? 0)
  | Some (VStr s) => negb (String.eqb s "")
  | Some (VDate _) => true
  | Some (VArr _) => true
  | Some (VObj _) => true
  | Some (VId _) => true
  end.

(** ** Characters and strings *)

Module Chars.

Definition code (c : ascii) : N := N_of_ascii c.

Definition isDigit (c : ascii) : bool := ((48 <=? code c) && (code c <=? 57))%N.
Definition isUpper (c : ascii) : bool := ((65 <=? code c) && (code c <=? 90))%N.
Definition isLower (c : ascii) : bool := ((97 <=? code c) && (code c <=? 122))%N.

(** [\w] *)
Definition isWord (c : ascii) : bool :=
  isDigit c || isUpper c || isLower c || (code c =? 95)%N.

(** [\s], and the characters [trim()] strips. *)
Definition isSpace (c : ascii) : bool :=
  ((9 <=? code c) && (code c <=? 13) || (code c =? 32) || (code c =? 160))%N.

Definition isHex (c : ascii) : bool :=
  (isDigit c || (65 <=? code c) && (code c <=? 70)
   || (97 <=? code c) && (code c <=? 102))%N.

Definition toLower (c : ascii) : ascii :=
  if isUpper c then ascii_of_N (code c + 32) else c.

Definition toUpper (c : ascii) : ascii :=
  if isLower c then ascii_of_N (code c - 32) else c.

(** Equality of characters under the [i] flag. *)
Definition eqCI (a b : ascii) : bool := Ascii.eqb (toLower a) (toLower b).

End Chars.

(** ** Regular expressions

    The fragment of JavaScript regular expressions that the program uses,
    with a backtracking matcher: greedy [*], negative lookahead and the
    word boundary.  The matcher is in continuation-passing style; [prev]
    is the character before the current position (for [\b]). *)

Module Regex.

Inductive regex : Type :=
| Eps
| Cls (p : ascii -> bool)
| Cat (r1 r2 : regex)
| Star (r : regex)
| NotAhead (r : regex)
| WordBoundary.

Definition Plus (r : regex) : regex := Cat r (Star r).

(** A literal, matched ignoring case. *)
Fixpoint LitCI (s : string) : regex :=
  match s with
  | EmptyString => Eps
  | String c rest => Cat (Cls (Chars.eqCI c)) (LitCI rest)
  end.

(** A literal, matched exactly. *)
Fixpoint Lit (s : string) : regex :=
  match s with
  | EmptyString => Eps
  | String c rest => Cat (Cls (Ascii.eqb c)) (Lit rest)
  end.

Definition isWordOpt (o : option ascii) : bool :=
  match o with
  | Some c => Chars.isWord c
  | None => false
  end.

Definition pos : Type := option ascii * list ascii.

Fixpoint rmatch (r : regex) (prev : option ascii) (s : list ascii)
    (k : option ascii -> list ascii -> option pos) : option pos :=
  match r with
  | Eps => k prev s
  | Cls p =>
      match s with
      | c :: s' => if p c then k (Some c) s' else None
      | [] => None
      end
  | Cat r1 r2 => rmatch r1 prev s (fun prev' s' => rmatch r2 prev' s' k)
  | Star r1 =>
      (fix iter (n : nat) (prev : option ascii) (s : list ascii) : option pos :=
         match n with
         | O => k prev s
         | S n' =>
             match rmatch r1 prev s
                     (fun prev' s' =>
                        if (List.length s' <? List.length s)%nat then iter n' prev' s'
                        else None) with
             | Some out => Some out
             | None => k prev s
             end
         end) (List.length s) prev s
  | NotAhead r1 =>
      match rmatch r1 prev s (fun p' s' => Some (p', s')) with
      | Some _ => None
      | None => k prev s
      end
  | WordBoundary =>
      if xorb (isWordOpt prev) (isWordOpt (head s)) then k prev s else None
  end.

(** A match of [r] that starts at the current position: the position
    after it. *)
Definition matchHere (r : regex) (prev : option ascii) (s : list ascii) : option pos :=
  rmatch r prev s (fun p' s' => Some (p', s')).

(** [str.replace(/r/g, '')]: every match, leftmost first, is removed. *)
Fixpoint removeAll (r : regex) (fuel : nat) (prev : option ascii) (s : list ascii)
    : list ascii :=
  match fuel with
  | O => s
  | S fuel' =>
      let skip :=
        match s with
        | [] => []
        | c :: s' => c :: removeAll r fuel' (Some c) s'
        end in
      match matchHere r prev s with
      | Some (prev', s') =>
          if (List.length s' <? List.length s)%nat then removeAll r fuel' prev' s' else skip
      | None => skip
      end
  end.

Definition replaceAllEmpty (r : regex) (s : string) : string :=
  let l := list_ascii_of_string s in
  string_of_list_ascii (removeAll r (S (List.length l)) None l).

(** [re.test(s)] for a pattern anchored with [^] and [$]. *)
Definition fullMatch (r : regex) (s : string) : bool :=
  match rmatch r None (list_ascii_of_string s)
          (fun p' s' => match s' with [] => Some (p', s') | _ => None end) with
  | Some _ => true
  | None => false
  end.

End Regex.

(** [String.prototype.trim] *)
Fixpoint dropSpaces (l : list ascii) : list ascii :=
  match l with
  | c :: l' => if Chars.isSpace c then dropSpaces l' else l
  | [] => []
  end.

Definition trim (s : string) : string :=
  string_of_list_ascii
    (rev (dropSpaces (rev (dropSpaces (list_ascii_of_string s))))).

(** ** Sanitization middleware ([sanitizeInput]) *)

Module Sanitize.
Import Regex.

Definition notLt (c : ascii) : bool := negb (Ascii.eqb c "<"%char).

(** The script-tag pattern, flags [gi]: [<script], a word boundary, a run
    of characters other than [<], then any number of groups made of a
    [<] that does not start [</script>] followed by a run of characters
    other than [<], and at last [</script>]. *)
Definition scriptTag : regex :=
  Cat (LitCI "<script")
   (Cat WordBoundary
    (Cat (Star (Cls notLt))
     (Cat (Star (Cat (NotAhead (LitCI "</script>"))
                  (Cat (Cls (Ascii.eqb "<"%char)) (Star (Cls notLt)))))
          (LitCI "</script>")))).

(** The pattern [javascript:], flags [gi]. *)
Definition javascriptScheme : regex := LitCI "javascript:".

(** The event-handler pattern, flags [gi]: [on], one or more word
    characters, any number of space characters, [=]. *)
Definition eventHandler : regex :=
  Cat (LitCI "on")
   (Cat (Plus (Cls Chars.isWord))
    (Cat (Star (Cls Chars.isSpace)) (Cls (Ascii.eqb "="%char)))).

(** The chain of replacements applied to one string leaf. *)
Definition sanitizeString (s : string) : string :=
  trim (replaceAllEmpty eventHandler
         (replaceAllEmpty javascriptScheme
           (replaceAllEmpty scriptTag s))).

(** [sanitizeObject]: the loop [for (const key in obj)] rewrites the string
    members and descends into the members that are objects (arrays are
    objects, their keys are the indices). *)
Fixpoint sanitizeMember (v : value) : value :=
  match v with
  | VStr s => VStr (sanitizeString s)
  | VArr items => VArr (map sanitizeMember items)
  | VObj fields => VObj (map (fun kv => (fst kv, sanitizeMember (snd kv))) fields)
  | _ => v
  end.

Definition sanitizeObject (obj : value) : value :=
  match obj with
  | VArr _ | VObj _ => sanitizeMember obj
  | _ => obj
  end.

(** [sanitizeInput]: [if (req.body && typeof req.body === 'object')]. *)
Definition sanitizeInput (body : value) : value :=
  match body with
  | VArr _ | VObj _ => sanitizeObject body
  | _ => body
  end.

End Sanitize.

(** ** Responses *)

Record Response : Type := mkResponse {
  resStatus : nat;      (* res.status(...) *)
  resBody : value       (* res.json(...) *)
}.

(** A middleware either answers the request or calls [next()]. *)
Inductive Outcome : Type :=
| Next
| Respond (r : Response).

Definition json2 (status : nat) (message error : string) : Response :=
  mkResponse status (VObj [("message", VStr message); ("error", VStr error)]).

Definition json1 (status : nat) (message : string) : Response :=
  mkResponse status (VObj [("message", VStr message)]).

(** ** Ids *)

(** The pattern of [validateEmployeeId]: 24 hexadecimal digits, of either
    case. *)
Definition isHexString24 (s : string) : bool :=
  (String.length s =? 24)%nat && forallb Chars.isHex (list_ascii_of_string s).

Module ObjectId.

Definition toLowerCase (s : string) : string :=
  string_of_list_ascii (map Chars.toLower (list_ascii_of_string s)).

(** The cast of a string to an ObjectId, as Mongoose applies it to the
    ids of queries and to the references of documents: 24 hexadecimal
    digits, of either case, are the id that prints in lower case; every
    other string is refused with a [CastError]. *)
Definition cast (s : string) : option string :=
  if isHexString24 s then Some (toLowerCase s) else None.

End ObjectId.

(** ** The record store *)

Abbreviation Store := (gmap string value).

(** Fields of a stored Employee document. *)
Definition docStatus (doc : value) : option value := getField "status" doc.

(** The filter [{ status: s }] on the stored documents. *)
Definition statusIs (s : string) (doc : value) : bool :=
  match docStatus doc with
  | Some (VStr s') => String.eqb s' s
  | _ => false
  end.

(** [doc.status === 'active'] on a document that a query has returned:
    a document stored without [status] comes with the default of the
    schema. *)
Definition isActive (doc : value) : bool :=
  match docStatus doc with
  | None => true
  | Some (VStr s) => String.eqb s "active"
  | Some _ => false
  end.

(** [jobInfo.manager] when it is set: the id it refers to. *)
Definition managerOf (jobInfo : option value) : option string :=
  match jobInfo with
  | Some j =>
      match getField "manager" j with
      | Some (VId m) => Some m
      | _ => None
      end
  | None => None
  end.

Definition docManager (doc : value) : option string :=
  managerOf (getField "jobInfo" doc).

(** ** Objects: spread, assignment of a member *)

(** [obj[k] = v]: an existing key keeps its place. *)
Fixpoint setField (k : string) (v : value) (fields : list (string * value))
    : list (string * value) :=
  match fields with
  | [] => [(k, v)]
  | (k', v') :: rest =>
      if String.eqb k k' then (k, v) :: rest else (k', v') :: setField k v rest
  end.

Definition assign (assigned acc : list (string * value)) : list (string * value) :=
  fold_left (fun a kv => setField (fst kv) (snd kv) a) assigned acc.

Definition stringOfN (n : N) : string :=
  DecimalString.NilZero.string_of_uint (N.to_uint n).

Fixpoint indexed (i : N) (items : list value) : list (string * value) :=
  match items with
  | [] => []
  | v :: rest => (stringOfN i, v) :: indexed (i + 1)%N rest
  end.

(** The own enumerable members that [{...obj}] copies. *)
Definition ownEntries (obj : value) : list (string * value) :=
  match obj with
  | VObj fields => fields
  | VArr items => indexed 0%N items
  | _ => []
  end.

(** [{...obj, k1: v1, ..., kn: vn}] *)
Definition spreadWith (obj : value) (extra : list (string * value))
    : list (string * value) :=
  assign extra (assign (ownEntries obj) []).

(** A key that is a plain member name: no dotted path and no operator. *)
Definition plainKey (k : string) : bool :=
  forallb (fun c => negb (Ascii.eqb c "."%char) && negb (Ascii.eqb c "$"%char))
          (list_ascii_of_string k).

Definition plainKeys (fields : list (string * value)) : bool :=
  forallb (fun kv => plainKey (fst kv)) fields.

(** ** The Employee model *)

Module Employee.
Import Regex.

(** The types of the leaves of the schema, with the setters of the
    strings. *)
Inductive Kind : Type :=
| KString (trim lowercase uppercase : bool)
| KDate
| KNumber
| KRef.

Definition paths : list (string * Kind) :=
  [ ("employeeId", KString true false true);
    ("personalInfo.firstName", KString true false false);
    ("personalInfo.lastName", KString true false false);
    ("personalInfo.email", KString true true false);
    ("personalInfo.phone", KString true false false);
    ("personalInfo.dateOfBirth", KDate);
    ("personalInfo.address.street", KString true false false);
    ("personalInfo.address.city", KString true false false);
    ("personalInfo.address.state", KString true false false);
    ("personalInfo.address.zipCode", KString true false false);
    ("personalInfo.address.country", KString true false false);
    ("jobInfo.title", KString true false false);
    ("jobInfo.department", KString true false false);
    ("jobInfo.manager", KRef);
    ("jobInfo.startDate", KDate);
    ("jobInfo.salary", KNumber);
    ("jobInfo.employmentType", KString false false false);
    ("status", KString false false false);
    ("createdAt", KDate);
    ("updatedAt", KDate);
    ("createdBy", KRef);
    ("updatedBy", KRef) ].

Fixpoint kindOf (path : string) (table : list (string * Kind)) : option Kind :=
  match table with
  | [] => None
  | (p, kind) :: rest => if String.eqb path p then Some kind else kindOf path rest
  end.

(** The members of the [required] validators below a nested path. *)
Definition requiredMembers (path : string) : list string :=
  if String.eqb path "personalInfo" then ["firstName"; "lastName"; "email"]
  else if String.eqb path "jobInfo" then ["title"; "department"; "startDate"]
  else [].

(** What a [required] validator accepts. *)
Definition isSet (o : option value) : bool :=
  match o with
  | None | Some VNull => false
  | Some (VStr s) => negb (String.eqb s "")
  | Some _ => true
  end.

Definition hasRequired (path : string) (o : option value) : bool :=
  forallb (fun k => isSet (match o with
                           | Some v => getField k v
                           | None => None
                           end))
          (requiredMembers path).

Definition digit : regex := Cls Chars.isDigit.

(** [employeeId.match]: [EMP] and four digits, anchored at both ends. *)
Definition employeeIdPattern : regex :=
  Cat (Lit "EMP") (Cat digit (Cat digit (Cat digit digit))).

Definition toUpperCase (s : string) : string :=
  string_of_list_ascii (map Chars.toUpper (list_ascii_of_string s)).

(** The setters of [employeeId]: [trim] and [uppercase]. *)
Definition castEmployeeId (v : value) : value :=
  match v with
  | VStr s => VStr (toUpperCase (trim s))
  | _ => v
  end.

(** The validators of [employeeId]: [required] and [match]. *)
Definition validEmployeeId (o : option value) : bool :=
  match o with
  | Some (VStr s) => negb (String.eqb s "") && fullMatch employeeIdPattern s
  | _ => false
  end.

Definition docEmployeeId (doc : value) : option value := getField "employeeId" doc.

Definition docEmail (doc : value) : option value :=
  match getField "personalInfo" doc with
  | Some personalInfo => getField "email" personalInfo
  | None => None
  end.

(** [`${x}`] for a name of a document.  The schema casts the names to
    String, so that a stored name is a string or is missing; the last case
    does not occur on stored documents. *)
Definition interpolate (o : option value) : string :=
  match o with
  | Some (VStr s) => s
  | None => "undefined"
  | Some VNull => "null"
  | Some _ => ""
  end.

(** The virtual [fullName]. *)
Definition fullName (doc : value) : string :=
  let personalInfo := getField "personalInfo" doc in
  let member k := match personalInfo with
                  | Some p => getField k p
                  | None => None
                  end in
  interpolate (member "firstName") +:+ " " +:+ interpolate (member "lastName").

(** [parseInt]: the number written by the leading decimal digits;
    [None] is [NaN]. *)
Fixpoint leadingDigits (l : list ascii) (acc : option N) : option N :=
  match l with
  | c :: rest =>
      if Chars.isDigit c then
        leadingDigits rest
          (Some (10 * default 0%N acc + (Chars.code c - 48))%N)
      else acc
  | [] => acc
  end.

Definition parseInt (s : string) : option N :=
  leadingDigits (list_ascii_of_string s) None.

Fixpoint isPrefix (p l : list ascii) : bool :=
  match p, l with
  | [], _ => true
  | a :: p', b :: l' => Ascii.eqb a b && isPrefix p' l'
  | _ :: _, [] => false
  end.

(** [s.replace(pat, '')] with a string pattern: the first occurrence. *)
Fixpoint removeFirst (pat : list ascii) (l : list ascii) : list ascii :=
  if isPrefix pat l then drop (List.length pat) l
  else match l with
       | [] => []
       | c :: rest => c :: removeFirst pat rest
       end.

(** [s.padStart(4, '0')] *)
Definition padStart4 (s : string) : string :=
  string_of_list_ascii
    (repeat "0"%char (4 - String.length s)%nat ++ list_ascii_of_string s).

(** [findOne({}, {}, { sort: { employeeId: -1 } })]: the greatest
    [employeeId] of the collection in string order, if a document has
    one. *)
Definition greater (acc : option string) (doc : value) : option string :=
  match docEmployeeId doc, acc with
  | Some (VStr e), Some a => if String.ltb a e then Some e else Some a
  | Some (VStr e), None => Some e
  | _, _ => acc
  end.

Definition lastEmployeeId (db : Store) : option string :=
  fold_left greater (map snd (map_to_list db)) None.

(** The first [pre('save')] hook. *)
Definition preSaveUpdatedAt (now : Z) (doc : value) : value :=
  VObj (setField "updatedAt" (VDate now) (members doc)).

(** The second [pre('save')] hook: a document without [employeeId] gets
    the number after the greatest one in use. *)
Definition nextEmployeeId (db : Store) : string :=
  let nextId :=
    match lastEmployeeId db with
    | Some e =>
        if String.eqb e "" then Some 1%N
        else
          match parseInt (string_of_list_ascii
                            (removeFirst (list_ascii_of_string "EMP")
                                         (list_ascii_of_string e))) with
          | Some lastIdNumber => Some (lastIdNumber + 1)%N
          | None => None
          end
    | None => Some 1%N
    end in
  "EMP" +:+ padStart4 (match nextId with
                       | Some n => stringOfN n
                       | None => "NaN"
                       end).

Definition preSaveEmployeeId (db : Store) (doc : value) : value :=
  if truthy (docEmployeeId doc) then doc
  else VObj (setField "employeeId" (VStr (nextEmployeeId db)) (members doc)).

End Employee.

(** ** What a request reads from its surroundings

    The clock, the random generator and the id issued for a new document
    are inputs of a request.  So is the behaviour of the libraries where
    this development does not spell it out: the validators of the schema
    other than [required] and the pattern of [employeeId]; the casts of
    values that are no strings; queries by a value that is no string (an
    operator object, an array); creations and updates with keys that are
    dotted paths or operators; the sanitizers of the express-validator
    chains ([trim], [normalizeEmail], [toDate]); and the JSON of a
    document in an answer, with its populated references and its
    virtuals.  A theorem that holds for every [Env] holds whatever these
    do. *)

Inductive StoreError : Type :=
| ValidationError
| CastError
| DuplicateKey (keyPattern : string)
| ImmutableField
| OtherError.

Inductive Result (A : Type) : Type :=
| Ok (a : A)
| Throw (e : StoreError).
Arguments Ok {A} a.
Arguments Throw {A} e.

(** The answers that carry a document. *)
Inductive Rendering : Type :=
| CreatedEmployee     (* populate of jobInfo.manager and createdBy *)
| ReadEmployee        (* populate of jobInfo.manager, createdBy, updatedBy *)
| UpdatedEmployee.    (* populate of jobInfo.manager, createdBy, updatedBy *)

Record Env : Type := mkEnv {
  envNow : Z;                       (* new Date(), in milliseconds *)
  envRandom : N;                    (* Math.floor(Math.random() * 10000) *)
  envNewObjectId : string;          (* the _id issued for a new document *)
  envSchemaAccepts : value -> bool; (* the other validators of the schema *)
  envCast : string -> value -> Result value;
                                    (* the cast of a value to the type of
                                       a path, where it is not spelled out *)
  envFindOne : Store -> string -> option value -> option string
               -> Result (option (string * value));
                                    (* findOne({ path: value, _id: { $ne: id } })
                                       for a value that is no string *)
  envPaths : value -> list (string * value) -> Result value;
                                    (* what the keys that are dotted paths
                                       or operators do to a document *)
  envCreateChain : value -> value;  (* the body after the sanitizers of
                                       validateEmployeeCreation *)
  envUpdateChain : value -> value;  (* the body after the sanitizers of
                                       validateEmployeeUpdate *)
  envRender : Rendering -> Store -> string -> value -> value
                                    (* the JSON of a document in an answer *)
}.

(** ** Store operations of the model *)

Module Db.
Import Employee.

Abbreviation StoreError := StoreError.
Abbreviation Result := Result.
Abbreviation Ok := Ok.
Abbreviation Throw := Throw.
Abbreviation ValidationError := ValidationError.
Abbreviation CastError := CastError.
Abbreviation DuplicateKey := DuplicateKey.
Abbreviation ImmutableField := ImmutableField.
Abbreviation OtherError := OtherError.

Definition documents (db : Store) : list (string * value) := map_to_list db.

(** [Employee.find(filter)] *)
Definition find (db : Store) (p : value -> bool) : list (string * value) :=
  List.filter (fun kv => p (snd kv)) (documents db).

(** [Employee.countDocuments(filter)] *)
Definition countDocuments (db : Store) (p : value -> bool) : nat :=
  List.length (find db p).

(** [Employee.findById(id)] for a string: the id is cast, and the result
    is the document with its [_id]. *)
Definition findById (db : Store) (id : string) : Result (option (string * value)) :=
  match ObjectId.cast id with
  | Some k => Ok (pair k <$> db !! k)
  | None => Throw CastError
  end.

(** [Employee.findById(candidate)] for what a payload has in the place of
    an id. *)
Definition findByCandidate (db : Store) (env : Env) (candidate : value)
    : Result (option (string * value)) :=
  match candidate with
  | VStr s => findById db s
  | VId k => Ok (pair k <$> db !! k)
  | _ => envFindOne env db "_id" (Some candidate) None
  end.

(** The filter [{ 'jobInfo.manager': id }], with the id cast. *)
Definition managedBy (id : string) (doc : value) : bool :=
  match docManager doc with
  | Some m => String.eqb m id
  | None => false
  end.

Definition emailIs (s : string) (doc : value) : bool :=
  match docEmail doc with
  | Some (VStr e) => String.eqb e s
  | _ => false
  end.

(** [Employee.findOne({ 'personalInfo.email': email, _id: { $ne: id } })],
    without the second condition when [excluded] is [None].  The setters
    of the path run on the string of the query. *)
Definition findOneByEmail (db : Store) (env : Env) (email : option value)
    (excluded : option string) : Result (option (string * value)) :=
  match email with
  | Some (VStr s) =>
      let sought := ObjectId.toLowerCase (trim s) in
      match excluded with
      | None => Ok (head (find db (emailIs sought)))
      | Some id =>
          match ObjectId.cast id with
          | Some k =>
              Ok (head (List.filter (fun kv => negb (String.eqb (fst kv) k))
                                    (find db (emailIs sought))))
          | None => Throw CastError
          end
      end
  | _ => envFindOne env db "personalInfo.email" email excluded
  end.

(** Keys of a unique index: a missing member is indexed as [null]. *)
Definition sameIndexKey (a b : option value) : bool :=
  match a, b with
  | Some (VStr x), Some (VStr y) => String.eqb x y
  | (None | Some VNull), (None | Some VNull) => true
  | _, _ => false
  end.

(** Some document other than [self] has the same key in a unique index. *)
Definition indexConflict (db : Store) (self : string)
    (key : value -> option value) (doc : value) : bool :=
  existsb (fun kv => negb (String.eqb (fst kv) self)
                     && sameIndexKey (key (snd kv)) (key doc))
          (documents db).

(** *** Casts

    The cast of a reference: [null] and an ObjectId stay, a string is cast
    to an ObjectId. *)
Definition castRef (env : Env) (path : string) (v : value) : Result value :=
  match v with
  | VNull => Ok VNull
  | VId k => Ok (VId k)
  | VStr s =>
      match ObjectId.cast s with
      | Some k => Ok (VId k)
      | None => Throw CastError
      end
  | _ => envCast env path v
  end.

Definition applySetters (trims lowercase uppercase : bool) (s : string) : string :=
  let s := if trims then trim s else s in
  let s := if lowercase then ObjectId.toLowerCase s else s in
  if uppercase then toUpperCase s else s.

(** The cast of a value to the type of a leaf of the schema. *)
Definition castLeaf (env : Env) (path : string) (kind : Kind) (v : value)
    : Result value :=
  match kind, v with
  | _, VNull => Ok VNull
  | KRef, _ => castRef env path v
  | KString trims lowercase uppercase, VStr s =>
      Ok (VStr (applySetters trims lowercase uppercase s))
  | KDate, VDate ms => Ok (VDate ms)
  | KNumber, VNum z => Ok (VNum z)
  | _, _ => envCast env path v
  end.

(** The members of an object, each one cast; [None] of [cast] is a member
    that is no path of the schema, which [strict] drops. *)
Fixpoint castMembers (cast : string -> value -> option (Result value))
    (fields : list (string * value)) : Result (list (string * value)) :=
  match fields with
  | [] => Ok []
  | (k, v) :: rest =>
      match cast k v with
      | None => castMembers cast rest
      | Some (Throw e) => Throw e
      | Some (Ok v') =>
          match castMembers cast rest with
          | Ok rest' => Ok ((k, v') :: rest')
          | Throw e => Throw e
          end
      end
  end.

Definition castIn (env : Env) (prefix k : string) (v : value)
    : option (Result value) :=
  match kindOf (prefix +:+ k) paths with
  | Some kind => Some (castLeaf env (prefix +:+ k) kind v)
  | None => None
  end.

Definition castObject (env : Env) (path : string)
    (cast : string -> value -> option (Result value)) (v : value) : Result value :=
  match v with
  | VObj fields =>
      match castMembers cast fields with
      | Ok fields' => Ok (VObj fields')
      | Throw e => Throw e
      end
  | _ => envCast env path v
  end.

Definition castAddress (env : Env) (v : value) : Result value :=
  castObject env "personalInfo.address" (castIn env "personalInfo.address.") v.

Definition castPersonalInfo (env : Env) (v : value) : Result value :=
  castObject env "personalInfo"
    (fun k v => if String.eqb k "address" then Some (castAddress env v)
                else castIn env "personalInfo." k v)
    v.

Definition castJobInfo (env : Env) (v : value) : Result value :=
  castObject env "jobInfo" (castIn env "jobInfo.") v.

Definition castTop (env : Env) (k : string) (v : value) : option (Result value) :=
  if String.eqb k "personalInfo" then Some (castPersonalInfo env v)
  else if String.eqb k "jobInfo" then Some (castJobInfo env v)
  else castIn env "" k v.

(** The members of the data that are plain member names, cast. *)
Definition castData (env : Env) (data : list (string * value))
    : Result (list (string * value)) :=
  castMembers (castTop env) (List.filter (fun kv => plainKey (fst kv)) data).

(** The leaves at the top of the schema. *)
Definition topLeaf (k : string) : bool :=
  existsb (String.eqb k)
    ["employeeId"; "status"; "createdAt"; "updatedAt"; "createdBy"; "updatedBy"].

(** [data._id], cast: the id that the data asks for. *)
Definition castOwnId (env : Env) (data : list (string * value)) (otherwise : string)
    : Result value :=
  match assoc "_id" data with
  | None => Ok (VId otherwise)
  | Some v => castRef env "_id" v
  end.

(** *** Documents *)

Definition withDefault (k : string) (v : value) (fields : list (string * value))
    : list (string * value) :=
  match assoc k fields with
  | None => setField k v fields
  | Some _ => fields
  end.

Definition inMember (k : string)
    (f : list (string * value) -> list (string * value))
    (fields : list (string * value)) : list (string * value) :=
  match assoc k fields with
  | Some (VObj sub) => setField k (VObj (f sub)) fields
  | None => setField k (VObj (f [])) fields
  | Some _ => fields
  end.

(** [new Employee(data)]: the members of the data are cast, those outside
    the schema are dropped, and the defaults of the schema fill the
    members that are undefined.  The result is the [_id] and the
    document.  A value that cannot be cast makes the later [save()] throw;
    the route answers both in one [catch], and the error is given here.
    With a key that is a dotted path, [personalInfo] and [jobInfo] are
    what the keys make of them together. *)
Definition construct (env : Env) (data : list (string * value))
    : Result (string * value) :=
  match castOwnId env data (envNewObjectId env), castData env data with
  | Ok (VId id), Ok fields =>
      match (if plainKeys data then Ok fields
             else match envPaths env (VObj []) data with
                  | Ok nested =>
                      Ok (assign (List.filter (fun kv => topLeaf (fst kv)) fields)
                                 (members nested))
                  | Throw e => Throw e
                  end) with
      | Ok fields =>
          let fields := withDefault "status" (VStr "active") fields in
          let fields := withDefault "createdAt" (VDate (envNow env)) fields in
          let fields := withDefault "updatedAt" (VDate (envNow env)) fields in
          let fields := inMember "jobInfo"
                          (withDefault "employmentType" (VStr "full-time")) fields in
          let fields := inMember "personalInfo"
                          (inMember "address"
                             (withDefault "country" (VStr "United States"))) fields in
          Ok (id, VObj fields)
      | Throw e => Throw e
      end
  | Ok _, Ok _ => Throw ValidationError
  | Throw _, _ | _, Throw _ => Throw ValidationError
  end.

(** [doc.save()] of a new document: validation, then the [pre('save')]
    hooks in the order of their registration, then the insertion, which
    the unique indexes can refuse. *)
Definition save (db : Store) (env : Env) (id : string) (doc : value)
    : Result (Store * value) :=
  if negb (validEmployeeId (docEmployeeId doc)
           && truthy (getField "createdBy" doc)
           && hasRequired "personalInfo" (getField "personalInfo" doc)
           && hasRequired "jobInfo" (getField "jobInfo" doc)
           && envSchemaAccepts env doc)
  then Throw ValidationError
  else
    let doc := preSaveUpdatedAt (envNow env) doc in
    let doc := preSaveEmployeeId db doc in
    match db !! id with
    | Some _ => Throw (DuplicateKey "_id")
    | None =>
        if indexConflict db id docEmployeeId doc
        then Throw (DuplicateKey "employeeId")
        else if indexConflict db id docEmail doc
        then Throw (DuplicateKey "personalInfo.email")
        else Ok (<[id := doc]> db, doc)
    end.

(** [$set] of the members of [fields], in order: each one replaces the
    member of the document, with all that is nested in it. *)
Definition applySet (doc : value) (fields : list (string * value)) : value :=
  VObj (assign fields (members doc)).

(** The update validators ([runValidators]): the validators of the paths
    that the update sets; a nested object that is set brings the
    [required] validators of the paths below it. *)
Definition updateValid (env : Env) (fields : list (string * value)) : bool :=
  (match assoc "employeeId" fields with
   | Some e => validEmployeeId (Some e)
   | None => true
   end)
  && (match assoc "createdBy" fields with
      | Some v => isSet (Some v)
      | None => true
      end)
  && (match assoc "personalInfo" fields with
      | Some v => hasRequired "personalInfo" (Some v)
      | None => true
      end)
  && (match assoc "jobInfo" fields with
      | Some v => hasRequired "jobInfo" (Some v)
      | None => true
      end)
  && envSchemaAccepts env (VObj fields).

(** [Employee.findByIdAndUpdate(id, update, { new: true, runValidators:
    true })]: the id is cast; the members of the update that are plain
    names are cast and are a [$set], each of its top-level member; no
    [save] middleware runs.  The result is the document after the update
    with its [_id], [None] when there is none with this id. *)
Definition findByIdAndUpdate (db : Store) (env : Env) (id : string)
    (update : list (string * value)) : Result (Store * option (string * value)) :=
  match ObjectId.cast id with
  | None => Throw CastError
  | Some k =>
      match castOwnId env update k, castData env update with
      | Throw e, _ | _, Throw e => Throw e
      | Ok ownId, Ok fields =>
          if negb (updateValid env fields) then Throw ValidationError
          else
            match db !! k with
            | None => Ok (db, None)
            | Some doc =>
                match ownId with
                | VId k' =>
                    if negb (String.eqb k' k) then Throw ImmutableField
                    else
                      match (if plainKeys update then Ok doc
                             else envPaths env doc update) with
                      | Throw e => Throw e
                      | Ok base =>
                          let doc' := applySet base fields in
                          if indexConflict db k docEmployeeId doc'
                          then Throw (DuplicateKey "employeeId")
                          else if indexConflict db k docEmail doc'
                          then Throw (DuplicateKey "personalInfo.email")
                          else Ok (<[k := doc']> db, Some (k, doc'))
                      end
                | _ => Throw ImmutableField
                end
            end
      end
  end.

(** [Employee.findByIdAndDelete(id)], the id cast. *)
Definition findByIdAndDelete (db : Store) (id : string) : Store := delete id db.

End Db.
(** ** Manager-assignment validation ([middleware/validation.js]) *)

(** [validateEmployeeId]: the id of the route must have the shape of an
    ObjectId. *)
Definition validateEmployeeId (id : string) : Outcome :=
  if isHexString24 id then Next
  else Respond (json2 400 "Invalid employee ID format"
                  "Employee ID must be a valid MongoDB ObjectId").

(** [checkCircularHierarchy(employeeId, managerId, visited)] on strings.
    The set [visited] is the one mutable [Set] shared by all the recursive
    calls, threaded here as an argument; it holds the ids as the strings
    that they are compared as.  [fuel] bounds the number of invocations
    and [None] means that it ran out; [Throw] is the rejection of the
    promise when [findById] throws. *)
Fixpoint checkCircularHierarchy (fuel : nat) (db : Store)
    (employeeId managerId : string) (visited : gset string)
    : option (Result bool) :=
  match fuel with
  | O => None
  | S fuel' =>
      if decide (managerId ∈ visited) then Some (Ok true)
      else if String.eqb managerId employeeId then Some (Ok true)
      else
        let visited' := {[managerId]} ∪ visited in
        match Db.findById db managerId with
        | Throw e => Some (Throw e)
        | Ok (Some (_, manager)) =>
            match docManager manager with
            | Some next =>
                checkCircularHierarchy fuel' db employeeId next visited'
            | None => Some (Ok false)
            end
        | Ok None => Some (Ok false)
        end
  end.

(** Invocations that always suffice (see
    [checkCircularHierarchy_terminates]). *)
Definition walkFuel (db : Store) : nat := S (S (size db)).

Definition invalidManager (reason : string) : Response :=
  json2 400 "Invalid manager assignment" reason.

Definition ManagerNotFound : Response :=
  invalidManager "Specified manager does not exist".
Definition ManagerInactive : Response :=
  invalidManager "Specified manager is not active".
Definition SelfReference : Response :=
  invalidManager "Employee cannot be their own manager".
Definition CyclicHierarchy : Response :=
  invalidManager "This assignment would create a circular management hierarchy".
Definition ManagerValidationFailed : Response :=
  json1 500 "Manager validation failed".

(** [req.body.jobInfo && req.body.jobInfo.manager] *)
Definition bodyManager (body : value) : option value :=
  match getField "jobInfo" body with
  | Some jobInfo =>
      if truthy (Some jobInfo) then
        if truthy (getField "manager" jobInfo) then getField "manager" jobInfo
        else None
      else None
  | None => None
  end.

(** [managerId === req.params.id] *)
Definition sameAsRouteId (candidate : value) (id : string) : bool :=
  match candidate with
  | VStr s => String.eqb s id
  | _ => false
  end.

(** [checkCircularHierarchy(req.params.id, managerId)] for the candidate
    of the payload, of which [findById] has returned [manager].  A
    candidate that is no string is in no comparison equal to an id; its
    first invocation looks the same record up and goes on with the
    manager of that record. *)
Definition isCircular (db : Store) (id : string) (candidate manager : value)
    : option (Result bool) :=
  match candidate with
  | VStr managerId => checkCircularHierarchy (walkFuel db) db id managerId ∅
  | _ =>
      match docManager manager with
      | Some next => checkCircularHierarchy (walkFuel db) db id next ∅
      | None => Some (Ok false)
      end
  end.

(** [validateManagerAssignment].  [paramsId] is [req.params.id]: absent on
    the create route.  Whatever [findById] or the walk throws, the
    [catch] turns into the 500 answer. *)
Definition validateManagerAssignment (db : Store) (env : Env)
    (paramsId : option string) (body : value) : Outcome :=
  match bodyManager body with
  | None => Next
  | Some candidate =>
      match Db.findByCandidate db env candidate with
      | Throw _ => Respond ManagerValidationFailed
      | Ok None => Respond ManagerNotFound
      | Ok (Some (_, manager)) =>
          if negb (isActive manager)
          then Respond ManagerInactive
          else
            match paramsId with
            | Some id =>
                if negb (String.eqb id "") && sameAsRouteId candidate id
                then Respond SelfReference
                else if negb (String.eqb id "") then
                  match isCircular db id candidate manager with
                  | Some (Ok true) => Respond CyclicHierarchy
                  | Some (Ok false) => Next
                  | Some (Throw _) | None => Respond ManagerValidationFailed
                  end
                else Next
            | None => Next
            end
      end
  end.

(** ** The admin router

    Each route is the chain of its middleware followed by its handler, on
    the request as the router-level middleware and the sanitizers of the
    validator chains leave it: the caller is an authenticated admin
    ([user] is [req.user._id]) within the rate limit, and [body] is
    [req.body] when [validateManagerAssignment] and the handler read it.
    [errors] is [validationResult(req)], what the express-validator chains
    of the route recorded.  The result is the answer and the store after
    the request. *)

Module Routes.
Import Employee Db.

Record FieldError : Type := mkFieldError {
  errPath : string;
  errMsg : string;
  errValue : option value
}.

Definition optEntry (k : string) (o : option value) : list (string * value) :=
  match o with
  | Some v => [(k, v)]
  | None => []
  end.

(** [handleValidationErrors]; the timestamp of the answer is kept as the
    date that it prints. *)
Definition handleValidationErrors (now : Z) (errors : list FieldError) : Outcome :=
  match errors with
  | [] => Next
  | _ =>
      Respond
        (mkResponse 400
           (VObj [("message", VStr "Validation failed");
                  ("errors",
                   VArr (map (fun e =>
                                VObj ([("field", VStr (errPath e));
                                       ("message", VStr (errMsg e))]
                                      ++ optEntry "value" (errValue e)))
                             errors));
                  ("timestamp", VDate now)]))
  end.

Definition success (status : nat) (message : string) (data : value) : Response :=
  mkResponse status (VObj [("message", VStr message); ("data", data)]).

(** [generateEmployeeId]; [random] is [Math.floor(Math.random() * 10000)]. *)
Definition generateEmployeeId (random : N) : string :=
  "EMP" +:+ stringOfN random.

(** [GET /employees/:id] *)
Definition getEmployee (db : Store) (env : Env) (id : string) : Response * Store :=
  match validateEmployeeId id with
  | Respond r => (r, db)
  | Next =>
      match findById db id with
      | Ok None => (json1 404 "Employee not found", db)
      | Ok (Some (k, employee)) =>
          (success 200 "Employee retrieved successfully"
             (envRender env ReadEmployee db k employee), db)
      | Throw CastError => (json1 400 "Invalid employee ID format", db)
      | Throw _ => (json1 500 "Failed to fetch employee", db)
      end
  end.

(** The [catch] of the create route. *)
Definition createFailed (e : StoreError) : Response :=
  match e with
  | DuplicateKey k =>
      if String.eqb k "employeeId"
      then json1 400 "Employee ID already exists"
      else if String.eqb k "personalInfo.email"
      then json1 400 "Employee with this email already exists"
      else json1 500 "Failed to create employee"
  | _ => json1 500 "Failed to create employee"
  end.

(** [POST /employees] *)
Definition createEmployee (db : Store) (env : Env) (user : string)
    (errors : list FieldError) (body : value) : Response * Store :=
  match validateManagerAssignment db env None body with
  | Respond r => (r, db)
  | Next =>
      match handleValidationErrors (envNow env) errors with
      | Respond r => (r, db)
      | Next =>
          match getField "personalInfo" body with
          | None | Some VNull => (json1 500 "Failed to create employee", db)
          | Some personalInfo =>
              match findOneByEmail db env (getField "email" personalInfo) None with
              | Throw e => (createFailed e, db)
              | Ok (Some _) =>
                  (json1 400 "Employee with this email already exists", db)
              | Ok None =>
                  let employeeId :=
                    if truthy (getField "employeeId" body)
                    then default VNull (getField "employeeId" body)
                    else VStr (generateEmployeeId (envRandom env)) in
                  let employeeData :=
                    spreadWith body [("employeeId", employeeId);
                                     ("createdBy", VId user);
                                     ("updatedBy", VId user)] in
                  match construct env employeeData with
                  | Throw e => (createFailed e, db)
                  | Ok (id, employee) =>
                      match save db env id employee with
                      | Ok (db', saved) =>
                          (success 201 "Employee created successfully"
                             (envRender env CreatedEmployee db' id saved), db')
                      | Throw e => (createFailed e, db)
                      end
                  end
              end
          end
      end
  end.

(** The [catch] of the update route. *)
Definition updateFailed (e : StoreError) : Response :=
  match e with
  | CastError => json1 400 "Invalid employee ID format"
  | DuplicateKey k =>
      if String.eqb k "personalInfo.email"
      then json1 400 "Another employee with this email already exists"
      else json1 500 "Failed to update employee"
  | _ => json1 500 "Failed to update employee"
  end.

(** [PUT /employees/:id] *)
Definition updateEmployee (db : Store) (env : Env) (id : string) (user : string)
    (errors : list FieldError) (body : value) : Response * Store :=
  match validateEmployeeId id with
  | Respond r => (r, db)
  | Next =>
  match validateManagerAssignment db env (Some id) body with
  | Respond r => (r, db)
  | Next =>
  match handleValidationErrors (envNow env) errors with
  | Respond r => (r, db)
  | Next =>
      match findById db id with
      | Throw e => (updateFailed e, db)
      | Ok None => (json1 404 "Employee not found", db)
      | Ok (Some existingEmployee) =>
          let personalInfo := getField "personalInfo" body in
          let email := match personalInfo with
                       | Some p => getField "email" p
                       | None => None
                       end in
          match (if truthy personalInfo && truthy email
                 then findOneByEmail db env email (Some id)
                 else Ok None) with
          | Throw e => (updateFailed e, db)
          | Ok (Some _) =>
              (json1 400 "Another employee with this email already exists", db)
          | Ok None =>
              let updateData := spreadWith body [("updatedBy", VId user)] in
              match findByIdAndUpdate db env id updateData with
              | Ok (db', Some (k, employee)) =>
                  (success 200 "Employee updated successfully"
                     (envRender env UpdatedEmployee db' k employee), db')
              | Ok (db', None) =>
                  (success 200 "Employee updated successfully" VNull, db')
              | Throw e => (updateFailed e, db)
              end
          end
      end
  end end end.

(** [DELETE /employees/:id] *)
Definition deleteEmployee (db : Store) (id : string) : Response * Store :=
  match validateEmployeeId id with
  | Respond r => (r, db)
  | Next =>
      match findById db id with
      | Throw CastError => (json1 400 "Invalid employee ID format", db)
      | Throw _ => (json1 500 "Failed to delete employee", db)
      | Ok None => (json1 404 "Employee not found", db)
      | Ok (Some (k, employee)) =>
          let managedEmployees := find db (managedBy k) in
          if (0 <? List.length managedEmployees)%nat
          then (mkResponse 400
                  (VObj [("message",
                          VStr "Cannot delete employee who is managing other employees");
                         ("managedEmployees",
                          VNum (Z.of_nat (List.length managedEmployees)))]),
                db)
          else
            (success 200 "Employee deleted successfully"
               (VObj [("deletedEmployee",
                       VObj ([("id", VId k)]
                             ++ optEntry "employeeId" (docEmployeeId employee)
                             ++ [("fullName", VStr (fullName employee))]))]),
             findByIdAndDelete db k)
      end
  end.

(** The [$group] stage with [count: { $sum: 1 }]: one entry per value of
    the key, [None] for the documents without it. *)
Fixpoint bump (key : option string) (groups : list (option string * nat))
    : list (option string * nat) :=
  match groups with
  | [] => [(key, 1%nat)]
  | (k, n) :: rest =>
      if bool_decide (k = key) then (k, S n) :: rest else (k, n) :: bump key rest
  end.

Definition groupCount (key : value -> option string) (docs : list value)
    : list (option string * nat) :=
  fold_left (fun acc doc => bump (key doc) acc) docs [].

(** The [$sort] stage [{ count: -1 }]. *)
Fixpoint insertByCount (g : option string * nat)
    (sorted : list (option string * nat)) : list (option string * nat) :=
  match sorted with
  | [] => [g]
  | h :: rest =>
      if (snd h <=? snd g)%nat then g :: sorted else h :: insertByCount g rest
  end.

Definition sortByCount (groups : list (option string * nat))
    : list (option string * nat) :=
  fold_right insertByCount [] groups.

Definition stringMember (outer inner : string) (doc : value) : option string :=
  match getField outer doc with
  | Some o => match getField inner o with
              | Some (VStr s) => Some s
              | _ => None
              end
  | None => None
  end.

Definition groupsJson (groups : list (option string * nat)) : value :=
  VArr (map (fun g => VObj [("_id", match fst g with
                                    | Some s => VStr s
                                    | None => VNull
                                    end);
                            ("count", VNum (Z.of_nat (snd g)))])
            groups).

(** The filter [{ 'jobInfo.startDate': { $gte: since } }]. *)
Definition startedSince (since : Z) (doc : value) : bool :=
  match getField "jobInfo" doc with
  | Some jobInfo => match getField "startDate" jobInfo with
                    | Some (VDate d) => since <=? d
                    | _ => false
                    end
  | None => false
  end.

Definition thirtyDays : Z := 30 * 24 * 60 * 60 * 1000.

(** The handler of [GET /employees/stats]. *)
Definition employeeStats (db : Store) (env : Env) : Response * Store :=
  let docs := map snd (documents db) in
  let count p := VNum (Z.of_nat (countDocuments db p)) in
  (success 200 "Employee statistics retrieved successfully"
     (VObj [("overview",
             VObj [("totalEmployees", count (fun _ => true));
                   ("activeEmployees", count (statusIs "active"));
                   ("inactiveEmployees", count (statusIs "inactive"));
                   ("terminatedEmployees", count (statusIs "terminated"));
                   ("recentHires", count (startedSince (envNow env - thirtyDays)))]);
            ("departmentStats",
             groupsJson (sortByCount (groupCount (stringMember "jobInfo" "department") docs)));
            ("employmentTypeStats",
             groupsJson (sortByCount (groupCount (stringMember "jobInfo" "employmentType") docs)))]),
   db).

(** *** Dispatch

    Express tries the routes of a router in the order of their
    registration and runs the first whose method and path pattern match
    the request; a segment [:id] of a pattern matches any segment. *)

Inductive Method : Type := GET | POST | PUT | DELETE.

Inductive Segment : Type :=
| Literal (s : string)
| Param (name : string).

Inductive Handler : Type :=
| ListEmployees
| GetEmployee
| CreateEmployee
| UpdateEmployee
| DeleteEmployee
| EmployeeStats.

Definition routes : list (Method * list Segment * Handler) :=
  [ (GET, [Literal "employees"], ListEmployees);
    (GET, [Literal "employees"; Param "id"], GetEmployee);
    (POST, [Literal "employees"], CreateEmployee);
    (PUT, [Literal "employees"; Param "id"], UpdateEmployee);
    (DELETE, [Literal "employees"; Param "id"], DeleteEmployee);
    (GET, [Literal "employees"; Literal "stats"], EmployeeStats) ].

Definition sameMethod (a b : Method) : bool :=
  match a, b with
  | GET, GET | POST, POST | PUT, PUT | DELETE, DELETE => true
  | _, _ => false
  end.

(** The parameters bound by a pattern that matches the path. *)
Fixpoint matchPath (pattern : list Segment) (path : list string)
    : option (list (string * string)) :=
  match pattern, path with
  | [], [] => Some []
  | Literal s :: pattern', seg :: path' =>
      if String.eqb s seg then matchPath pattern' path' else None
  | Param name :: pattern', seg :: path' =>
      match matchPath pattern' path' with
      | Some params => Some ((name, seg) :: params)
      | None => None
      end
  | _, _ => None
  end.

Fixpoint dispatch (table : list (Method * list Segment * Handler))
    (method : Method) (path : list string)
    : option (Handler * list (string * string)) :=
  match table with
  | [] => None
  | (m, pattern, h) :: rest =>
      if sameMethod m method then
        match matchPath pattern path with
        | Some params => Some (h, params)
        | None => dispatch rest method path
        end
      else dispatch rest method path
  end.

Record Request : Type := mkRequest {
  reqMethod : Method;
  reqPath : list string;            (* below the mount point of the router *)
  reqBody : value;                  (* the parsed JSON body *)
  reqUser : string;                 (* req.user._id *)
  reqErrors : list FieldError       (* validationResult(req) *)
}.

Fixpoint param (name : string) (params : list (string * string)) : string :=
  match params with
  | [] => ""
  | (k, v) :: rest => if String.eqb k name then v else param name rest
  end.

(** [req.body] when the handler of a route runs: after [sanitizeInput],
    and after the sanitizers of the validator chains of the route. *)
Definition bodyFor (env : Env) (h : Handler) (body : value) : value :=
  match h with
  | CreateEmployee => envCreateChain env (Sanitize.sanitizeInput body)
  | UpdateEmployee => envUpdateChain env (Sanitize.sanitizeInput body)
  | _ => Sanitize.sanitizeInput body
  end.

(** A request to the router.  [None]: no route of the router matches, or
    the route is the listing, which is modelled apart (see [Listing]). *)
Definition serve (db : Store) (env : Env) (req : Request) : option (Response * Store) :=
  match dispatch routes (reqMethod req) (reqPath req) with
  | Some (GetEmployee, params) => Some (getEmployee db env (param "id" params))
  | Some (CreateEmployee, _) =>
      Some (createEmployee db env (reqUser req) (reqErrors req)
              (bodyFor env CreateEmployee (reqBody req)))
  | Some (UpdateEmployee, params) =>
      Some (updateEmployee db env (param "id" params) (reqUser req) (reqErrors req)
              (bodyFor env UpdateEmployee (reqBody req)))
  | Some (DeleteEmployee, params) => Some (deleteEmployee db (param "id" params))
  | Some (EmployeeStats, _) => Some (employeeStats db env)
  | Some (ListEmployees, _) | None => None
  end.

End Routes.

(** ** Properties of stores and payloads *)

(** [reaches db x y]: following [jobInfo.manager] references from the
    employee [x] leads to [y] (in zero or more steps). *)
Inductive reaches (db : Store) : string -> string -> Prop :=
| reaches_here (x : string) : reaches db x x
| reaches_link (x : string) (doc : value) (y z : string) :
    db !! x = Some doc -> docManager doc = Some y -> reaches db y z ->
    reaches db x z.

(** Every manager reference points to an existing, active employee. *)
Definition managersActive (db : Store) : Prop :=
  forall (id : string) (doc : value) (m : string),
    db !! id = Some doc -> docManager doc = Some m ->
    exists mdoc, db !! m = Some mdoc /\ isActive mdoc = true.

(** The employees whose [jobInfo.manager] is [id]. *)
Definition dependents (db : Store) (id : string) : gset string :=
  dom (filter (fun kv => docManager (snd kv) = Some id) db).

(** A payload is a parsed JSON body, whose keys are distinct; it is plain
    when none of its keys is a dotted path or an operator. *)
Definition plainBody (body : value) : Prop :=
  NoDup (map fst (ownEntries body))
  /\ plainKeys (ownEntries body) = true.

(** The manager of the payload, if it has one, is a string: [jobInfo] is
    absent or an object, and its member [manager] is absent, [null] or a
    string. *)
Definition stringManager (body : value) : bool :=
  match getField "jobInfo" body with
  | None => true
  | Some (VObj jobInfo) =>
      match assoc "manager" jobInfo with
      | None | Some VNull | Some (VStr _) => true
      | Some _ => false
      end
  | Some _ => false
  end.

(** ** Sample data *)

Module Sample.
Import Routes.

Definition idA : string := "64b000000000000000000a01".
Definition idB : string := "64b000000000000000000b02".
Definition idC : string := "64b000000000000000000c03".
Definition admin0 : string := "64a0000000000000000000f0".
Definition admin1 : string := "64a0000000000000000000f1".

(** The id of Ann and of Bob as a client may as well write them. *)
Definition idA_upper : string := "64B000000000000000000A01".
Definition idB_upper : string := "64B000000000000000000B02".

Definition employee (employeeId firstName email status : string)
    (manager : option string) : value :=
  VObj [("employeeId", VStr employeeId);
        ("personalInfo",
         VObj [("firstName", VStr firstName); ("lastName", VStr "Doe");
               ("email", VStr email)]);
        ("jobInfo",
         VObj ([("title", VStr "Engineer"); ("department", VStr "Engineering")]
               ++ match manager with
                  | Some m => [("manager", VId m)]
                  | None => []
                  end
               ++ [("startDate", VDate 500); ("employmentType", VStr "full-time")]));
        ("status", VStr status);
        ("createdAt", VDate 1000); ("updatedAt", VDate 1000);
        ("createdBy", VId admin0); ("updatedBy", VId admin0)].

(** Ann, and Bob who reports to Ann. *)
Definition team : Store :=
  <[idA := employee "EMP5000" "Ann" "ann@example.com" "active" None]>
    (<[idB := employee "EMP0002" "Bob" "bob@example.com" "active" (Some idA)]> ∅).

(** The same, with Bob inactive. *)
Definition teamBobInactive : Store :=
  <[idA := employee "EMP5000" "Ann" "ann@example.com" "active" None]>
    (<[idB := employee "EMP0002" "Bob" "bob@example.com" "inactive" (Some idA)]> ∅).

(** Ann alone, inactive. *)
Definition annInactive : Store :=
  {[idA := employee "EMP5000" "Ann" "ann@example.com" "inactive" None]}.

(** A corrupt store: Ann reports to Bob and Bob to Ann. *)
Definition loop : Store :=
  <[idA := employee "EMP5000" "Ann" "ann@example.com" "active" (Some idB)]>
    (<[idB := employee "EMP0002" "Bob" "bob@example.com" "active" (Some idA)]> ∅).

(** The surroundings of the sample requests: the clock at 5000, the
    random draw as given, and libraries that meet nothing to refuse or to
    rewrite: the sample payloads satisfy the validators of the schema,
    hold only strings, dates and plain keys, and are written as the
    sanitizers of the chains leave them.  An answer carries the document
    with its id. *)
Definition env (random : N) : Env :=
  mkEnv 5000 random idC (fun _ => true)
    (fun _ v => Ok v)
    (fun _ _ _ _ => Ok None)
    (fun doc _ => Ok doc)
    (fun body => body)
    (fun body => body)
    (fun _ _ id doc => VObj (("_id", VId id) :: members doc)).

(** A complete [jobInfo] with the manager [m], as the form of the front
    end sends it. *)
Definition reassign (m : string) : value :=
  VObj [("jobInfo",
         VObj [("title", VStr "Engineer"); ("department", VStr "Engineering");
               ("manager", VStr m); ("startDate", VDate 500)])].

Definition setManager (m : string) : value :=
  VObj [("jobInfo", VObj [("manager", VStr m)])].

Definition newHire : value :=
  VObj [("personalInfo",
         VObj [("firstName", VStr "Cy"); ("lastName", VStr "Roe");
               ("email", VStr "cy@example.com")]);
        ("jobInfo",
         VObj [("title", VStr "Analyst"); ("department", VStr "Finance");
               ("startDate", VDate 4000)])].

End Sample.

(** ** Operations on the store *)

Module Ops.
Import Routes.

(** The mutating requests. *)
Inductive Operation : Type :=
| Create (user : string) (errors : list FieldError) (body : value)
| Update (id user : string) (errors : list FieldError) (body : value)
| Delete (id : string).

Definition run (db : Store) (env : Env) (op : Operation) : Response * Store :=
  match op with
  | Create user errors body => createEmployee db env user errors body
  | Update id user errors body => updateEmployee db env id user errors body
  | Delete id => deleteEmployee db id
  end.

Definition payload (op : Operation) : value :=
  match op with
  | Create _ _ body | Update _ _ _ body => body
  | Delete _ => VObj []
  end.

(** The employee that a request is addressed to: the id of the route,
    cast. *)
Definition addressed (op : Operation) : option string :=
  match op with
  | Create _ _ _ => None
  | Update id _ _ _ | Delete id => ObjectId.cast id
  end.

(** The payload names the employee [k] as manager. *)
Definition namesManager (body : value) (k : string) : bool :=
  match bodyManager body with
  | Some (VStr s) => bool_decide (ObjectId.cast s = Some k)
  | _ => false
  end.

(** The operation does not give a status other than [active] to an
    employee that some employee of the store, or the payload itself,
    names as manager. *)
Definition keepsManagerStatus (db : Store) (op : Operation) : bool :=
  match op with
  | Update id _ _ body =>
      match getField "status" body, ObjectId.cast id with
      | None, _ | _, None => true
      | Some (VStr s), Some k =>
          String.eqb s "active"
          || (size (dependents db k) =? 0)%nat && negb (namesManager body k)
      | Some _, Some k =>
          (size (dependents db k) =? 0)%nat && negb (namesManager body k)
      end
  | _ => true
  end.

(** The ids of the request are written as an ObjectId prints: the id of
    the route and, if the payload names a manager, the candidate. *)
Definition canonicalIds (op : Operation) : bool :=
  match op with
  | Create _ _ body =>
      match bodyManager body with
      | Some (VStr m) => bool_decide (ObjectId.cast m = Some m)
      | _ => true
      end
  | Update id _ _ body =>
      bool_decide (ObjectId.cast id = Some id)
      && match bodyManager body with
         | Some (VStr m) => bool_decide (ObjectId.cast m = Some m)
         | _ => true
         end
  | Delete id => true
  end.

End Ops.

(** ** The manager graph *)

Module Graph.

(** [x] reaches [z] along one manager reference or more. *)
Inductive reachesPlus (db : Store) : string -> string -> Prop :=
| reachesPlus_link (x : string) (doc : value) (y z : string) :
    db !! x = Some doc -> docManager doc = Some y -> reaches db y z ->
    reachesPlus db x z.

(** No employee reaches itself through manager references. *)
Definition acyclic (db : Store) : Prop :=
  forall x : string, ~ reachesPlus db x x.

(** Every manager reference points to a stored employee. *)
Definition managersExist (db : Store) : Prop :=
  forall (id : string) (doc : value) (m : string),
    db !! id = Some doc -> docManager doc = Some m -> is_Some (db !! m).

(** The stored references are ids as an ObjectId prints them. *)
Definition canonical (db : Store) : Prop :=
  forall (id : string) (doc : value) (m : string),
    db !! id = Some doc -> docManager doc = Some m -> ObjectId.cast m = Some m.

(** The chain of managers that starts at [m] runs into a cycle. *)
Definition entersCycle (db : Store) (m : string) : Prop :=
  exists x : string, reaches db m x /\ reachesPlus db x x.

(** The stored references, as a set. *)
Definition refs (db : Store) : gset string :=
  list_to_set (omap (fun kv => docManager (snd kv)) (map_to_list db)).

End Graph.

(** A 2xx status. *)
Definition succeeded (r : Response) : bool :=
  (200 <=? resStatus r)%nat && (resStatus r <? 300)%nat.

(** The data that the create route gives to the model. *)
Definition employeeData (env : Env) (user : string) (body : value)
    : list (string * value) :=
  spreadWith body
    [("employeeId",
      if truthy (getField "employeeId" body)
      then default VNull (getField "employeeId" body)
      else VStr (Routes.generateEmployeeId (envRandom env)));
     ("createdBy", VId user);
     ("updatedBy", VId user)].

(** The data that the update route gives to the model. *)
Definition updateData (user : string) (body : value) : list (string * value) :=
  spreadWith body [("updatedBy", VId user)].

(** A value without the text of its string leaves: what is left is the
    nesting, the keys in their order and every leaf that is no string. *)
Fixpoint shape (v : value) : value :=
  match v with
  | VStr _ => VStr ""
  | VArr items => VArr (map shape items)
  | VObj fields => VObj (map (fun kv => (fst kv, shape (snd kv))) fields)
  | _ => v
  end.

(** The characters that the three patterns of the sanitization need. *)
Definition markupChar (c : ascii) : bool :=
  Ascii.eqb c "<"%char || Ascii.eqb c ":"%char || Ascii.eqb c "="%char.

(** No string leaf of the value has one of the markup characters. *)
Fixpoint plainText (v : value) : bool :=
  match v with
  | VStr s => forallb (fun c => negb (markupChar c)) (list_ascii_of_string s)
  | VArr items => forallb plainText items
  | VObj fields => forallb (fun kv => plainText (snd kv)) fields
  | _ => true
  end.

(** [trim] on the list of the characters. *)
Definition trimmed (l : list ascii) : list ascii :=
  rev (dropSpaces (rev (dropSpaces l))).

(** ** Access control ([middleware/auth.js]) and the mount of the router

    The users are a finite map from [_id] to the user documents, of which
    the code reads [role].  [session] is [req.session.userId]: [None] when
    the request has no session or the session no user. *)

Module Access.

Abbreviation Users := (gmap string value).

(** A middleware that loads the user either answers or calls [next()]
    with [req.user] set. *)
Inductive Checked : Type :=
| Passed (user : value)
| Denied (r : Response).

Definition signedIn (session : option string) : bool :=
  match session with
  | Some userId => negb (String.eqb userId "")
  | None => false
  end.

(** [user.role === role] *)
Definition roleIs (role : string) (user : value) : bool :=
  match getField "role" user with
  | Some (VStr r) => String.eqb r role
  | _ => false
  end.

(** [requireAuth] *)
Definition requireAuth (session : option string) : Outcome :=
  if signedIn session then Next
  else Respond (json1 401 "Authentication required").

(** [requireAdmin] *)
Definition requireAdmin (users : Users) (session : option string) : Checked :=
  match session with
  | Some userId =>
      if String.eqb userId "" then Denied (json1 401 "Authentication required")
      else
        match users !! userId with
        | None => Denied (json1 401 "User not found")
        | Some user =>
            if negb (roleIs "admin" user)
            then Denied (json1 403 "Admin access required")
            else Passed user
        end
  | None => Denied (json1 401 "Authentication required")
  end.

(** [checkRole(roles)] *)
Definition checkRole (roles : list string) (users : Users) (session : option string)
    : Checked :=
  match session with
  | Some userId =>
      if String.eqb userId "" then Denied (json1 401 "Authentication required")
      else
        match users !! userId with
        | None => Denied (json1 401 "User not found")
        | Some user =>
            if negb (existsb (fun role => roleIs role user) roles)
            then Denied (json1 403 "Insufficient permissions")
            else Passed user
        end
  | None => Denied (json1 401 "Authentication required")
  end.

(** [getCurrentUser]: [req.user] after the middleware, which always calls
    [next()]. *)
Definition getCurrentUser (users : Users) (session : option string) : option value :=
  match session with
  | Some userId => if String.eqb userId "" then None else users !! userId
  | None => None
  end.

(** The answer of [adminRateLimit] to a caller over the limit. *)
Definition tooManyRequests : Response :=
  mkResponse 429
    (VObj [("message", VStr "Too many admin requests, please try again later.");
           ("retryAfter", VStr "15 minutes")]).

(** A request to the admin router: the middleware that the router
    applies to all its routes, in the order of the calls of [router.use]
    (the security headers, the rate limit, [requireAdmin], the
    sanitization), and then the route.  [limited] says whether the rate
    limiter finds the caller over its limit. *)
Definition adminRouter (users : Users) (session : option string) (limited : bool)
    (db : Store) (env : Env) (req : Routes.Request) : option (Response * Store) :=
  if limited then Some (tooManyRequests, db)
  else
    match requireAdmin users session with
    | Denied r => Some (r, db)
    | Passed user =>
        Routes.serve db env
          (Routes.mkRequest (Routes.reqMethod req) (Routes.reqPath req)
             (Routes.reqBody req) (default "" session) (Routes.reqErrors req))
    end.

End Access.

(** ** The audit middleware ([auditLog]) *)

Module Audit.

(** [hay.includes(needle)] *)
Fixpoint occursIn (needle hay : list ascii) : bool :=
  Employee.isPrefix needle hay
  || match hay with
     | [] => false
     | _ :: rest => occursIn needle rest
     end.

Definition includes (needle hay : string) : bool :=
  occursIn (list_ascii_of_string needle) (list_ascii_of_string hay).

Record LogEntry : Type := mkLogEntry {
  logTimestamp : Z;
  logAdminId : option string;         (* req.user ? req.user._id : null *)
  logAdminUsername : option value;    (* req.user ? req.user.username : null *)
  logAction : string;
  logResourceId : option string;      (* req.params.id || null *)
  logRequestBody : option value;
  logIpAddress : string;
  logUserAgent : option string
}.

(** What the wrapper that [auditLog(action)] puts around [res.send]
    prints when the answer [r] is sent.  [user] is [req.user] (its [_id]
    and its document), [paramsId] is [req.params.id] and [body] is
    [req.body] at that time. *)
Definition auditLog (action : string) (user : option (string * value))
    (paramsId : option string) (body : value) (now : Z) (ip : string)
    (userAgent : option string) (r : Response) : option LogEntry :=
  if (200 <=? resStatus r)%nat && (resStatus r <? 300)%nat then
    Some (mkLogEntry now
            (fst <$> user)
            (match user with
             | Some (_, doc) => getField "username" doc
             | None => None
             end)
            action
            (match paramsId with
             | Some id => if String.eqb id "" then None else Some id
             | None => None
             end)
            (if includes "CREATE" action || includes "UPDATE" action
             then Some body else None)
            ip userAgent)
  else None.

(** The action that each route gives to [auditLog]. *)
Definition actionOf (h : Routes.Handler) : string :=
  match h with
  | Routes.ListEmployees => "READ_EMPLOYEES"
  | Routes.GetEmployee => "READ_EMPLOYEE"
  | Routes.CreateEmployee => "CREATE_EMPLOYEE"
  | Routes.UpdateEmployee => "UPDATE_EMPLOYEE"
  | Routes.DeleteEmployee => "DELETE_EMPLOYEE"
  | Routes.EmployeeStats => "READ_EMPLOYEE_STATS"
  end.

Fixpoint paramOpt (name : string) (params : list (string * string)) : option string :=
  match params with
  | [] => None
  | (k, v) :: rest => if String.eqb k name then Some v else paramOpt name rest
  end.

(** A request to the admin router, with the entry that the audit
    middleware of the route prints.  The middleware of a route that
    answers before the wrapper is in place answers with status 400 or
    500, for which the wrapper prints nothing; so the wrapper is applied
    here to the answer of the route, whoever sent it.  A caller that the
    router-level middleware turns away reaches no route. *)
Definition auditedRouter (users : Access.Users) (session : option string)
    (limited : bool) (db : Store) (env : Env) (req : Routes.Request)
    (ip : string) (userAgent : option string)
    : option (Response * Store * option LogEntry) :=
  match Access.adminRouter users session limited db env req with
  | None => None
  | Some (r, db') =>
      if limited then Some (r, db', None)
      else
        match Access.requireAdmin users session with
        | Access.Denied _ => Some (r, db', None)
        | Access.Passed user =>
            match Routes.dispatch Routes.routes (Routes.reqMethod req)
                    (Routes.reqPath req) with
            | Some (h, params) =>
                Some (r, db',
                      auditLog (actionOf h) (Some (default "" session, user))
                        (paramOpt "id" params)
                        (Routes.bodyFor env h (Routes.reqBody req))
                        (envNow env) ip userAgent r)
            | None => Some (r, db', None)
            end
        end
  end.

End Audit.

(** ** Business rules of the creation chain ([validateBusinessRules]) *)

Module Rules.

(** The fields of a [Date] that the age rule reads: [getFullYear()],
    [getMonth()], [getDate()]. *)
Record CalendarDate : Type := mkDate {
  year : Z;
  month : Z;
  day : Z
}.

(** The value of [personalInfo.dateOfBirth] as the rule sees it: absent
    (or falsy), a value that [new Date] does not parse, or a date. *)
Inductive BirthValue : Type :=
| Absent
| InvalidDate
| Born (birth : CalendarDate).

(** The age that the rule computes. *)
Definition ageOn (today birth : CalendarDate) : Z :=
  let age := year today - year birth in
  let monthDiff := month today - month birth in
  if (monthDiff <? 0) || ((monthDiff =? 0) && (day today <? day birth))
  then age - 1 else age.

(** The custom validator of [personalInfo.dateOfBirth]: the message of
    the error that it throws, if it throws.  On an invalid date every
    field is [NaN] and no comparison holds. *)
Definition ageRule (today : CalendarDate) (value : BirthValue) : option string :=
  match value with
  | Absent | InvalidDate => None
  | Born birth =>
      if ageOn today birth <? 16 then Some "Employee must be at least 16 years old"
      else if 100 <? ageOn today birth then Some "Please verify the date of birth"
      else None
  end.

(** [today] is the day [d] or a later day. *)
Definition onOrAfter (today d : CalendarDate) : Prop :=
  year d < year today
  \/ (year d = year today
      /\ (month d < month today
          \/ (month d = month today /\ day d <= day today))).

(** The same day of the year, [n] years later. *)
Definition yearsLater (n : Z) (d : CalendarDate) : CalendarDate :=
  mkDate (year d + n) (month d) (day d).

End Rules.

(** ** The listing route ([GET /employees])

    The page of the listing.  [matching] is what
    [Employee.find(filter).sort(sort)] yields, the employees that match
    the filter in the order of the sort, so that [countDocuments(filter)]
    is its length; the filter and the sort themselves are not part of the
    model. *)

Module Listing.

Definition digitValue (radix : Z) (c : ascii) : option Z :=
  let v := if Chars.isDigit c then Z.of_N (Chars.code c) - 48
           else if Chars.isLower c then Z.of_N (Chars.code c) - 87
           else if Chars.isUpper c then Z.of_N (Chars.code c) - 55
           else radix in
  if v <? radix then Some v else None.

Fixpoint digits (radix : Z) (l : list ascii) (acc : option Z) : option Z :=
  match l with
  | c :: rest =>
      match digitValue radix c with
      | Some v => digits radix rest (Some (radix * default 0 acc + v))
      | None => acc
      end
  | [] => acc
  end.

(** [parseInt(s)]: leading white space, a sign, the prefix [0x] for
    radix 16, then the longest run of digits; [None] is [NaN]. *)
Definition parseInt (s : string) : option Z :=
  let l := dropSpaces (list_ascii_of_string s) in
  let '(negative, l) :=
    match l with
    | "-"%char :: rest => (true, rest)
    | "+"%char :: rest => (false, rest)
    | _ => (false, l)
    end in
  let '(radix, l) :=
    match l with
    | "0"%char :: "x"%char :: rest => (16, rest)
    | "0"%char :: "X"%char :: rest => (16, rest)
    | _ => (10, l)
    end in
  match digits radix l None with
  | Some n => Some (if negative then - n else n)
  | None => None
  end.

(** [parseInt(req.query.name) || fallback] *)
Definition queryNumber (param : option string) (fallback : Z) : Z :=
  match param with
  | Some s =>
      match parseInt s with
      | Some n => if n =? 0 then fallback else n
      | None => fallback
      end
  | None => fallback
  end.

(** [Math.ceil(total / limit)] *)
Definition ceilDiv (total limit : Z) : Z := - ((- total) / limit).

(** [.skip(skip).limit(limit)] on the matching employees. *)
Definition window (matching : list value) (skip limit : Z) : list value :=
  take (Z.to_nat (Z.abs limit)) (drop (Z.to_nat skip) matching).

(** The page [page] of the listing. *)
Definition employeesOnPage (matching : list value) (page limit : Z) : list value :=
  window matching ((page - 1) * limit) limit.

Definition totalPages (matching : list value) (limit : Z) : Z :=
  ceilDiv (Z.of_nat (List.length matching)) limit.

Definition hasNextPage (matching : list value) (page limit : Z) : bool :=
  page <? totalPages matching limit.

Definition hasPrevPage (page : Z) : bool := 1 <? page.

(** The handler, after [handleValidationErrors].  The store refuses a
    negative [skip], which the [catch] answers. *)
Definition listEmployees (matching : list value) (now : Z)
    (errors : list Routes.FieldError) (pageParam limitParam : option string)
    : Response :=
  match Routes.handleValidationErrors now errors with
  | Respond r => r
  | Next =>
      let page := queryNumber pageParam 1 in
      let limit := queryNumber limitParam 10 in
      let skip := (page - 1) * limit in
      if skip <? 0 then json1 500 "Failed to fetch employees"
      else
        Routes.success 200 "Employees retrieved successfully"
          (VObj [("employees", VArr (employeesOnPage matching page limit));
                 ("pagination",
                  VObj [("currentPage", VNum page);
                        ("totalPages", VNum (totalPages matching limit));
                        ("totalEmployees", VNum (Z.of_nat (List.length matching)));
                        ("hasNextPage", VBool (hasNextPage matching page limit));
                        ("hasPrevPage", VBool (hasPrevPage page))])])
  end.

End Listing.

(** The identifier [EMP] with the number [n] padded to four digits. *)
Definition employeeIdOf (n : N) : string :=
  "EMP" +:+ Employee.padStart4 (stringOfN n).

(** * Results *)

(** ** The manager-chain walk *)

Lemma size_list_to_set_le (l : list string) :
  (size (list_to_set l : gset string) <= List.length l)%nat.
Proof.
  induction l as [|x l IH]; [by rewrite list_to_set_nil, size_empty|].
  rewrite list_to_set_cons, size_union_alt, size_singleton.
  assert (size ((list_to_set l : gset string) ∖ {[x]})
          <= size (list_to_set l : gset string))%nat as Hle.
  { apply subseteq_size. intros y. rewrite elem_of_difference. tauto. }
  cbn [List.length Nat.add]. apply le_n_S. etransitivity; [exact Hle|exact IH].
Qed.

Lemma length_omap_le {A B : Type} (f : A -> option B) (l : list A) :
  (List.length (omap f l) <= List.length l)%nat.
Proof.
  induction l as [|x l IH]; [done|].
  change (omap f (x :: l)) with (match f x with
                                  | Some y => y :: omap f l
                                  | None => omap f l
                                  end).
  destruct (f x); cbn [List.length]; lia.
Qed.

Section Walk.
Context (db : Store).

(** There are no more stored references than records. *)
Lemma size_refs : (size (Graph.refs db) <= size db)%nat.
Proof.
  unfold Graph.refs.
  etransitivity; [apply size_list_to_set_le|].
  etransitivity; [apply length_omap_le|].
  by rewrite length_map_to_list.
Qed.

Lemma findById_Some (id k : string) (doc : value) :
  Db.findById db id = Ok (Some (k, doc)) ->
  ObjectId.cast id = Some k /\ db !! k = Some doc.
Proof.
  unfold Db.findById. destruct (ObjectId.cast id) as [k'|]; [|discriminate].
  destruct (db !! k') as [doc'|] eqn:Hk; [|discriminate].
  by intros [= <- <-].
Qed.

Lemma elem_of_refs (k : string) (doc : value) (next : string) :
  db !! k = Some doc -> docManager doc = Some next -> next ∈ Graph.refs db.
Proof.
  intros Hk Hnext. unfold Graph.refs.
  apply elem_of_list_to_set, list_elem_of_omap. exists (k, doc).
  split; [by apply elem_of_map_to_list|done].
Qed.

(** From a stored reference on, every invocation of the walk visits a
    stored reference that it has not visited before. *)
Lemma checkCircularHierarchy_fuel_ref (fuel : nat) (e m : string)
    (visited : gset string) :
  m ∈ Graph.refs db ->
  (size (Graph.refs db ∖ visited) < fuel)%nat ->
  is_Some (checkCircularHierarchy fuel db e m visited).
Proof.
  revert m visited. induction fuel as [|fuel IH]; intros m visited Hm Hlt; [lia|].
  simpl. destruct (decide (m ∈ visited)) as [|Hv]; [eauto|].
  destruct (String.eqb m e); [eauto|].
  destruct (Db.findById db m) as [[[k doc]|]|err] eqn:Hfind; [|eauto..].
  apply findById_Some in Hfind as [_ Hk].
  destruct (docManager doc) as [next|] eqn:Hnext; [|eauto].
  apply IH; [by eapply elem_of_refs|].
  assert (size (Graph.refs db ∖ ({[m]} ∪ visited))
          < size (Graph.refs db ∖ visited))%nat; [|lia].
  apply subset_size. split.
  - intros x. rewrite !elem_of_difference, elem_of_union. tauto.
  - intros Hsub. specialize (Hsub m).
    rewrite !elem_of_difference, elem_of_union, elem_of_singleton in Hsub. tauto.
Qed.

(** Enough invocations from any start: the first one visits the id of the
    request, which need not be a stored reference. *)
Lemma checkCircularHierarchy_fuel (fuel : nat) (e m : string) :
  (S (size (Graph.refs db)) < fuel)%nat ->
  is_Some (checkCircularHierarchy fuel db e m ∅).
Proof.
  intros Hlt. destruct fuel as [|fuel]; [lia|]. simpl.
  destruct (decide (m ∈ (∅ : gset string))) as [|_]; [eauto|].
  destruct (String.eqb m e); [eauto|].
  destruct (Db.findById db m) as [[[k doc]|]|err] eqn:Hfind; [|eauto..].
  apply findById_Some in Hfind as [_ Hk].
  destruct (docManager doc) as [next|] eqn:Hnext; [|eauto].
  apply checkCircularHierarchy_fuel_ref; [by eapply elem_of_refs|].
  assert (size (Graph.refs db ∖ ({[m]} ∪ ∅)) <= size (Graph.refs db))%nat; [|lia].
  apply subseteq_size. intros x. rewrite elem_of_difference. tauto.
Qed.

(** More invocations than needed do not change the answer. *)
Lemma checkCircularHierarchy_more (fuel extra : nat) (e m : string)
    (visited : gset string) (answer : Result bool) :
  checkCircularHierarchy fuel db e m visited = Some answer ->
  checkCircularHierarchy (fuel + extra) db e m visited = Some answer.
Proof.
  revert m visited. induction fuel as [|fuel IH]; intros m visited; [discriminate|].
  simpl. destruct (decide (m ∈ visited)); [auto|].
  destruct (String.eqb m e); [auto|].
  destruct (Db.findById db m) as [[[k doc]|]|err]; [|auto..].
  destruct (docManager doc); [|auto]. apply IH.
Qed.

Lemma walkFuel_enough (e m : string) :
  is_Some (checkCircularHierarchy (walkFuel db) db e m ∅).
Proof.
  apply checkCircularHierarchy_fuel. unfold walkFuel. pose proof size_refs. lia.
Qed.

End Walk.



(** ** Manager-assignment validation on the update route *)

Lemma hex24_not_empty (id : string) :
  isHexString24 id = true -> String.eqb id "" = false.
Proof.
  unfold isHexString24. destruct id; [discriminate|reflexivity].
Qed.

Lemma validateEmployeeId_hex (id : string) :
  isHexString24 id = true -> validateEmployeeId id = Next.
Proof. unfold validateEmployeeId. by intros ->. Qed.

Lemma cast_hex (id : string) :
  isHexString24 id = true -> ObjectId.cast id = Some (ObjectId.toLowerCase id).
Proof. unfold ObjectId.cast. by intros ->. Qed.

Lemma cast_Some (id k : string) :
  ObjectId.cast id = Some k -> isHexString24 id = true /\ k = ObjectId.toLowerCase id.
Proof.
  unfold ObjectId.cast. destruct (isHexString24 id); [|discriminate].
  by intros [= <-].
Qed.

(** C1 at a failing input.  Bob reports to Ann, so that making Bob the
    manager of Ann closes a cycle.  The update that asks for it under the
    id of Ann as an ObjectId prints is refused with the circular-hierarchy
    reason.  The same update under the id of Ann written in upper case,
    which [validateEmployeeId] lets pass and [findById] finds, is
    answered 200: the walk compares the ids as strings, does not
    recognise Ann at the end of the chain of Bob, and the store then holds
    Ann and Bob as the manager of each other. *)
Theorem respelled_id_closes_cycle :
  let '(r, db') := Routes.updateEmployee Sample.team (Sample.env 0) Sample.idA_upper
                     Sample.admin1 [] (Sample.reassign Sample.idB) in
  validateEmployeeId Sample.idA_upper = Next
  /\ ObjectId.cast Sample.idA_upper = Some Sample.idA
  /\ reaches Sample.team Sample.idB Sample.idA
  /\ Routes.updateEmployee Sample.team (Sample.env 0) Sample.idA
       Sample.admin1 [] (Sample.reassign Sample.idB)
     = (CyclicHierarchy, Sample.team)
  /\ checkCircularHierarchy (walkFuel Sample.team) Sample.team Sample.idA_upper
       Sample.idB ∅ = Some (Ok false)
  /\ resStatus r = 200%nat
  /\ (docManager <$> db' !! Sample.idA) = Some (Some Sample.idB)
  /\ (docManager <$> db' !! Sample.idB) = Some (Some Sample.idA)
  /\ Graph.reachesPlus db' Sample.idA Sample.idA.
Proof.
  destruct (Routes.updateEmployee _ _ Sample.idA_upper _ _ _) as [r db'] eqn:E.
  assert (r = fst (Routes.updateEmployee Sample.team (Sample.env 0) Sample.idA_upper
                     Sample.admin1 [] (Sample.reassign Sample.idB))) as ->
      by (by rewrite E).
  assert (db' = snd (Routes.updateEmployee Sample.team (Sample.env 0) Sample.idA_upper
                       Sample.admin1 [] (Sample.reassign Sample.idB))) as ->
      by (by rewrite E).
  clear E. split_and!; try (vm_compute; reflexivity).
  - eapply reaches_link; [vm_compute; reflexivity|vm_compute; reflexivity|].
    apply reaches_here.
  - eapply Graph.reachesPlus_link; [vm_compute; reflexivity|vm_compute; reflexivity|].
    eapply reaches_link; [vm_compute; reflexivity|vm_compute; reflexivity|].
    apply reaches_here.
Qed.

(** C4 at a failing input.  The update that names Ann as the manager of
    Ann, with both ids written alike, is refused with the self-reference
    reason.  With the id of the manager written in upper case the
    comparison [managerId === req.params.id] is false and the walk does
    not recognise Ann either; the update is answered 200 and the store
    then holds Ann as her own manager.  And when Ann is inactive, the
    update with both ids written alike is refused, but with the reason
    of the inactive manager: the status is checked before the ids are
    compared. *)
Theorem respelled_self_assignment :
  let '(r, db') := Routes.updateEmployee Sample.team (Sample.env 0) Sample.idA
                     Sample.admin1 [] (Sample.reassign Sample.idA_upper) in
  ObjectId.cast Sample.idA_upper = Some Sample.idA
  /\ Routes.updateEmployee Sample.team (Sample.env 0) Sample.idA
       Sample.admin1 [] (Sample.reassign Sample.idA)
     = (SelfReference, Sample.team)
  /\ resStatus r = 200%nat
  /\ (docManager <$> db' !! Sample.idA) = Some (Some Sample.idA)
  /\ Graph.reachesPlus db' Sample.idA Sample.idA
  /\ Routes.updateEmployee Sample.annInactive (Sample.env 0) Sample.idA
       Sample.admin1 [] (Sample.reassign Sample.idA)
     = (ManagerInactive, Sample.annInactive).
Proof.
  destruct (Routes.updateEmployee _ _ _ _ _ (Sample.reassign Sample.idA_upper))
    as [r db'] eqn:E.
  assert (r = fst (Routes.updateEmployee Sample.team (Sample.env 0) Sample.idA
                     Sample.admin1 [] (Sample.reassign Sample.idA_upper))) as ->
      by (by rewrite E).
  assert (db' = snd (Routes.updateEmployee Sample.team (Sample.env 0) Sample.idA
                       Sample.admin1 [] (Sample.reassign Sample.idA_upper))) as ->
      by (by rewrite E).
  clear E. split_and!; try (vm_compute; reflexivity).
  eapply Graph.reachesPlus_link; [vm_compute; reflexivity|vm_compute; reflexivity|].
  apply reaches_here.
Qed.

(** ** Sanitization *)

(** C7 at a failing input: the pass that removes [javascript:] joins the
    two halves of another [javascript:], which only a second pass
    removes; sanitizing the sanitized payload changes it again. *)
Theorem sanitizeInput_second_pass_differs :
  let payload := VObj [("notes", VStr "javajavascript:script:alert(1)")] in
  Sanitize.sanitizeInput payload = VObj [("notes", VStr "javascript:alert(1)")]
  /\ Sanitize.sanitizeInput (Sanitize.sanitizeInput payload)
     = VObj [("notes", VStr "alert(1)")]
  /\ Sanitize.sanitizeInput (Sanitize.sanitizeInput payload)
     <> Sanitize.sanitizeInput payload.
Proof.
  split_and!; [vm_compute; reflexivity|vm_compute; reflexivity|].
  vm_compute. discriminate.
Qed.

(** ** Dispatch of the statistics request *)

(** C10 at the failing input: a GET of [/employees/stats] is taken by the
    route [/employees/:id], registered earlier, with [id = "stats"], and
    [validateEmployeeId] answers it with status 400; the statistics are
    not returned.  No request at all is dispatched to the statistics
    handler: the pattern with the parameter takes every GET of two
    segments that starts with [employees]. *)
Theorem stats_request_rejected :
  (forall (db : Store) (env : Env) (body : value) (user : string)
          (errors : list Routes.FieldError),
      Routes.serve db env
        (Routes.mkRequest Routes.GET ["employees"; "stats"] body user errors)
      = Some (json2 400 "Invalid employee ID format"
                "Employee ID must be a valid MongoDB ObjectId", db))
  /\ (forall (method : Routes.Method) (path : list string)
             (params : list (string * string)),
         Routes.dispatch Routes.routes method path
         <> Some (Routes.EmployeeStats, params)).
Proof.
  split.
  - intros db env body user errors. reflexivity.
  - intros method path params.
    destruct method; destruct path as [|a [|b [|c rest]]];
      cbv [Routes.dispatch Routes.routes Routes.matchPath Routes.sameMethod];
      repeat case_match; congruence.
Qed.

(** What the handler would answer on the sample team, were it reached. *)
Example employeeStats_team :
  fst (Routes.employeeStats Sample.team (Sample.env 0))
  = mkResponse 200
      (VObj [("message", VStr "Employee statistics retrieved successfully");
             ("data",
              VObj [("overview",
                     VObj [("totalEmployees", VNum 2);
                           ("activeEmployees", VNum 2);
                           ("inactiveEmployees", VNum 0);
                           ("terminatedEmployees", VNum 0);
                           ("recentHires", VNum 2)]);
                    ("departmentStats",
                     VArr [VObj [("_id", VStr "Engineering"); ("count", VNum 2)]]);
                    ("employmentTypeStats",
                     VArr [VObj [("_id", VStr "full-time"); ("count", VNum 2)]])])]).
Proof. vm_compute; reflexivity. Qed.

(** ** Identifier of a created employee *)

(** The hook of the model computes the identifier after the greatest one
    in use, padded to four digits. *)
Example nextEmployeeId_team : Employee.nextEmployeeId Sample.team = "EMP5001".
Proof. vm_compute; reflexivity. Qed.

(** The hook leaves an [employeeId] that is set alone, and the create
    route always sets one. *)
Lemma preSaveEmployeeId_set (db : Store) (doc : value) :
  truthy (Employee.docEmployeeId doc) = true ->
  Employee.preSaveEmployeeId db doc = doc.
Proof. unfold Employee.preSaveEmployeeId. by intros ->. Qed.

(** C2 at failing inputs.  The store holds [EMP5000] and [EMP0002] and
    the request gives no [employeeId].  With the random draw 1234 the
    create succeeds and the new employee is [EMP1234], below an
    identifier in use; with the draw 42 the identifier is [EMP42], which
    the pattern of the schema refuses, and the create fails. *)
Theorem create_employeeId_is_random :
  (let '(r, db') := Routes.createEmployee Sample.team (Sample.env 1234)
                      Sample.admin1 [] Sample.newHire in
   resStatus r = 201%nat
   /\ (Employee.docEmployeeId <$> db' !! Sample.idC) = Some (Some (VStr "EMP1234"))
   /\ (Employee.docEmployeeId <$> db' !! Sample.idA) = Some (Some (VStr "EMP5000")))
  /\ Routes.generateEmployeeId 42 = "EMP42"
  /\ Employee.validEmployeeId (Some (VStr "EMP42")) = false
  /\ Routes.createEmployee Sample.team (Sample.env 42) Sample.admin1 [] Sample.newHire
     = (json1 500 "Failed to create employee", Sample.team).
Proof.
  split_and!; vm_compute; try reflexivity. split_and!; reflexivity.
Qed.

(** ** Audit members of a changed employee *)

(** A create sets [updatedBy] to the acting admin and [updatedAt] to the
    time of the request. *)
Example create_sets_audit_members :
  let '(r, db') := Routes.createEmployee Sample.team (Sample.env 1234)
                     Sample.admin1 [] Sample.newHire in
  resStatus r = 201%nat
  /\ (getField "updatedBy" <$> db' !! Sample.idC) = Some (Some (VId Sample.admin1))
  /\ (getField "updatedAt" <$> db' !! Sample.idC) = Some (Some (VDate 5000)).
Proof. vm_compute. split_and!; reflexivity. Qed.

(** C9 at a failing input: Bob was last written at time 1000; the update
    of his status at time 5000 succeeds and sets [updatedBy] to the
    acting admin, and [updatedAt] is still 1000. *)
Theorem update_keeps_updatedAt :
  let '(r, db') := Routes.updateEmployee Sample.team (Sample.env 0) Sample.idB
                     Sample.admin1 [] (VObj [("status", VStr "inactive")]) in
  envNow (Sample.env 0) = 5000
  /\ resStatus r = 200%nat
  /\ (statusIs "inactive" <$> db' !! Sample.idB) = Some true
  /\ (getField "updatedBy" <$> db' !! Sample.idB) = Some (Some (VId Sample.admin1))
  /\ (getField "updatedAt" <$> Sample.team !! Sample.idB) = Some (Some (VDate 1000))
  /\ (getField "updatedAt" <$> db' !! Sample.idB) = Some (Some (VDate 1000)).
Proof. vm_compute. split_and!; reflexivity. Qed.

(** ** Members of objects under assignment *)

Lemma getField_members (k : string) (v : value) :
  getField k v = assoc k (members v).
Proof. by destruct v. Qed.

Lemma assoc_setField_eq (k : string) (v : value) (fields : list (string * value)) :
  assoc k (setField k v fields) = Some v.
Proof.
  induction fields as [|[k' v'] fields IH]; simpl.
  - by rewrite String.eqb_refl.
  - destruct (String.eqb k k') eqn:E; simpl.
    + by rewrite String.eqb_refl.
    + by rewrite E.
Qed.

Lemma assoc_setField_ne (k k' : string) (v : value) (fields : list (string * value)) :
  k <> k' -> assoc k' (setField k v fields) = assoc k' fields.
Proof.
  intros Hne. induction fields as [|[k0 v0] fields IH]; simpl.
  - destruct (String.eqb_spec k' k); congruence.
  - destruct (String.eqb_spec k k0) as [->|]; simpl.
    + destruct (String.eqb_spec k' k0); congruence.
    + destruct (String.eqb k' k0); [reflexivity|exact IH].
Qed.

Lemma assoc_None_keys (k : string) (fields : list (string * value)) :
  assoc k fields = None <-> k ∉ map fst fields.
Proof.
  induction fields as [|[k' v'] fields IH]; simpl.
  - split; [intros _; apply not_elem_of_nil|done].
  - rewrite not_elem_of_cons, <- IH.
    destruct (String.eqb_spec k k'); split; try tauto; discriminate.
Qed.

(** Assigning members that do not include [k] leaves [k] as it was. *)
Lemma assoc_assign_absent (k : string) (assigned acc : list (string * value)) :
  assoc k assigned = None ->
  assoc k (assign assigned acc) = assoc k acc.
Proof.
  unfold assign.
  revert acc. induction assigned as [|[k' v'] assigned IH]; intros acc Hk; simpl in *.
  - reflexivity.
  - destruct (String.eqb_spec k k') as [->|Hne]; [discriminate|].
    rewrite IH by done. apply assoc_setField_ne. congruence.
Qed.

(** Assigning members with distinct keys: the value assigned to [k], if
    there is one. *)
Lemma assoc_assign (k : string) (assigned acc : list (string * value)) :
  NoDup (map fst assigned) ->
  assoc k (assign assigned acc)
  = match assoc k assigned with
    | Some v => Some v
    | None => assoc k acc
    end.
Proof.
  unfold assign.
  revert acc. induction assigned as [|[k' v'] assigned IH]; intros acc Hnd; simpl in *.
  - reflexivity.
  - apply NoDup_cons in Hnd as [Hk' Hnd]. rewrite IH by done.
    destruct (String.eqb_spec k k') as [->|Hne].
    + apply assoc_None_keys in Hk'. rewrite Hk'. apply assoc_setField_eq.
    + rewrite assoc_setField_ne by congruence. reflexivity.
Qed.

Lemma setField_keys_fresh (k : string) (v : value) (fields : list (string * value)) :
  assoc k fields = None -> map fst (setField k v fields) = (map fst fields ++ [k])%list.
Proof.
  induction fields as [|[k' v'] fields IH]; simpl; [done|].
  destruct (String.eqb k k'); [discriminate|]. intros H. simpl. by rewrite IH.
Qed.

Lemma setField_keys_present (k : string) (v v0 : value) (fields : list (string * value)) :
  assoc k fields = Some v0 -> map fst (setField k v fields) = map fst fields.
Proof.
  induction fields as [|[k' v'] fields IH]; simpl; [done|].
  destruct (String.eqb_spec k k') as [->|]; [done|].
  intros H. simpl. by rewrite IH.
Qed.

Lemma setField_NoDup (k : string) (v : value) (fields : list (string * value)) :
  NoDup (map fst fields) -> NoDup (map fst (setField k v fields)).
Proof.
  intros Hnd. destruct (assoc k fields) as [v0|] eqn:E.
  - by rewrite (setField_keys_present _ _ _ _ E).
  - rewrite (setField_keys_fresh _ _ _ E).
    apply NoDup_app. split_and!; [done| |apply NoDup_singleton].
    intros x Hx Hx'. apply list_elem_of_singleton in Hx' as ->.
    by apply assoc_None_keys in E.
Qed.

Lemma assign_NoDup (assigned acc : list (string * value)) :
  NoDup (map fst acc) -> NoDup (map fst (assign assigned acc)).
Proof.
  unfold assign.
  revert acc. induction assigned as [|[k v] assigned IH]; intros acc Hnd; simpl; [done|].
  apply IH. by apply setField_NoDup.
Qed.

(** The keys after an assignment are those that were there and those
    that were assigned. *)
Lemma setField_keys (k : string) (v : value) (fields : list (string * value))
    (x : string) :
  x ∈ map fst (setField k v fields) -> x = k \/ x ∈ map fst fields.
Proof.
  destruct (assoc k fields) as [v0|] eqn:E.
  - rewrite (setField_keys_present _ _ _ _ E). auto.
  - rewrite (setField_keys_fresh _ _ _ E), elem_of_app, list_elem_of_singleton. tauto.
Qed.

Lemma assign_keys (assigned acc : list (string * value)) (x : string) :
  x ∈ map fst (assign assigned acc) ->
  x ∈ map fst assigned \/ x ∈ map fst acc.
Proof.
  unfold assign.
  revert acc. induction assigned as [|[k v] assigned IH]; intros acc; simpl; [auto|].
  intros [H|H]%IH; [left; by right|].
  apply setField_keys in H as [->|H]; [left; by left|by right].
Qed.

Lemma plainKeys_forall (fields : list (string * value)) :
  plainKeys fields = true <-> forall x, x ∈ map fst fields -> plainKey x = true.
Proof.
  unfold plainKeys. rewrite forallb_forall. split.
  - intros H x [[k v] [-> Hin]]%list_elem_of_fmap. apply (H (k, v)).
    by apply list_elem_of_In.
  - intros H [k v] Hin. apply H, list_elem_of_fmap. exists (k, v).
    split; [done|by apply list_elem_of_In].
Qed.

Lemma spreadWith_NoDup (body : value) (extra : list (string * value)) :
  NoDup (map fst (spreadWith body extra)).
Proof. unfold spreadWith. do 2 apply assign_NoDup. apply NoDup_nil_2. Qed.

(** The spread of a plain payload with plain members is plain. *)
Lemma spreadWith_plain (body : value) (extra : list (string * value)) :
  plainKeys (ownEntries body) = true -> plainKeys extra = true ->
  plainKeys (spreadWith body extra) = true.
Proof.
  rewrite !plainKeys_forall. intros Hbody Hextra x Hx. unfold spreadWith in Hx.
  apply assign_keys in Hx as [Hx|Hx]; [by apply Hextra|].
  apply assign_keys in Hx as [Hx|Hx]; [by apply Hbody|].
  by apply not_elem_of_nil in Hx.
Qed.

Lemma assoc_spreadWith (k : string) (body : value) (extra : list (string * value)) :
  NoDup (map fst (ownEntries body)) -> assoc k extra = None ->
  assoc k (spreadWith body extra) = assoc k (ownEntries body).
Proof.
  intros Hnd Hk. unfold spreadWith. rewrite assoc_assign_absent by done.
  rewrite assoc_assign by done. by destruct (assoc k (ownEntries body)).
Qed.

Lemma assoc_filter_keys (p : string -> bool) (k : string) (fields : list (string * value)) :
  assoc k (List.filter (fun kv => p (fst kv)) fields)
  = if p k then assoc k fields else None.
Proof.
  induction fields as [|[k' v'] fields IH]; simpl.
  - by destruct (p k).
  - destruct (p k') eqn:Ep; simpl.
    + destruct (String.eqb_spec k k') as [->|]; [by rewrite Ep|exact IH].
    + rewrite IH. destruct (String.eqb_spec k k') as [->|]; [by rewrite Ep|done].
Qed.

Lemma filter_plain (fields : list (string * value)) :
  plainKeys fields = true ->
  List.filter (fun kv => plainKey (fst kv)) fields = fields.
Proof.
  unfold plainKeys. induction fields as [|[k v] fields IH]; simpl; [done|].
  intros [Hk Hrest]%andb_true_iff. rewrite Hk. f_equal. by apply IH.
Qed.

Lemma stringOfN_digit (n : N) :
  exists c rest, stringOfN n = String c rest /\ Chars.isDigit c = true.
Proof.
  unfold stringOfN. destruct (N.to_uint n); simpl; eauto.
Qed.

(** The keys of a spread array are its indices; a key that starts with
    another character than a digit is not one of them. *)
Lemma assoc_indexed_letter (c : ascii) (rest : string) (i : N) (items : list value) :
  Chars.isDigit c = false -> assoc (String c rest) (indexed i items) = None.
Proof.
  intros Hc. revert i. induction items as [|v items IH]; intros i; simpl; [done|].
  destruct (stringOfN_digit i) as (d & rest' & -> & Hd). simpl.
  destruct (Ascii.eqb_spec c d) as [->|]; [congruence|]. apply IH.
Qed.

Lemma assoc_ownEntries_letter (c : ascii) (rest : string) (body : value) :
  Chars.isDigit c = false ->
  assoc (String c rest) (ownEntries body) = getField (String c rest) body.
Proof.
  intros Hc. destruct body; simpl; try reflexivity. by apply assoc_indexed_letter.
Qed.

(** ** Casts of the members of an object *)

Section CastMembers.
Context (cast : string -> value -> option (Result value)).

Lemma castMembers_sublist (fields fields' : list (string * value)) :
  Db.castMembers cast fields = Ok fields' ->
  sublist (map fst fields') (map fst fields).
Proof.
  revert fields'. induction fields as [|[k v] fields IH]; intros fields'; simpl.
  - by intros [= <-].
  - destruct (cast k v) as [[v'|e]|]; [|discriminate|].
    + destruct (Db.castMembers cast fields) as [rest|e]; [|discriminate].
      intros [= <-]. simpl. apply sublist_skip. by apply IH.
    + intros H. apply sublist_cons. by apply IH.
Qed.

Lemma castMembers_NoDup (fields fields' : list (string * value)) :
  NoDup (map fst fields) -> Db.castMembers cast fields = Ok fields' ->
  NoDup (map fst fields').
Proof.
  intros Hnd H. eapply sublist_NoDup; [exact Hnd|by eapply castMembers_sublist].
Qed.

Lemma castMembers_absent (k : string) (fields fields' : list (string * value)) :
  assoc k fields = None -> Db.castMembers cast fields = Ok fields' ->
  assoc k fields' = None.
Proof.
  rewrite !assoc_None_keys. intros Hk H Hin. apply Hk.
  eapply elem_of_sublist; [exact Hin|by eapply castMembers_sublist].
Qed.

(** A key that the cast drops is not a member of the result. *)
Lemma castMembers_dropped (k : string) (fields fields' : list (string * value)) :
  (forall v, cast k v = None) -> Db.castMembers cast fields = Ok fields' ->
  assoc k fields' = None.
Proof.
  intros Hdrop. revert fields'.
  induction fields as [|[k0 v0] fields IH]; intros fields'; simpl.
  - by intros [= <-].
  - destruct (cast k0 v0) as [[v'|e]|] eqn:Hc; [|discriminate|by apply IH].
    destruct (Db.castMembers cast fields) as [rest|e]; [|discriminate].
    intros [= <-]. simpl. destruct (String.eqb_spec k k0) as [->|]; [|by apply IH].
    by rewrite Hdrop in Hc.
Qed.

(** A key that the cast keeps has in the result the cast of what it had. *)
Lemma castMembers_assoc (k : string) (f : value -> Result value)
    (fields fields' : list (string * value)) :
  (forall v, cast k v = Some (f v)) -> Db.castMembers cast fields = Ok fields' ->
  match assoc k fields with
  | Some v => exists v', f v = Ok v' /\ assoc k fields' = Some v'
  | None => assoc k fields' = None
  end.
Proof.
  intros Hkeep. revert fields'.
  induction fields as [|[k0 v0] fields IH]; intros fields'; simpl.
  - by intros [= <-].
  - destruct (String.eqb_spec k k0) as [<-|Hne].
    + rewrite Hkeep. destruct (f v0) as [v'|e] eqn:Hf; [|discriminate].
      destruct (Db.castMembers cast fields) as [rest|e]; [|discriminate].
      intros [= <-]. exists v'. simpl. by rewrite String.eqb_refl.
    + destruct (cast k0 v0) as [[v'|e]|]; [|discriminate|by apply IH].
      destruct (Db.castMembers cast fields) as [rest|e]; [|discriminate].
      intros [= <-]. simpl. destruct (String.eqb_spec k k0); [done|]. by apply IH.
Qed.

End CastMembers.

(** The top-level members that the cast of the data keeps are the paths
    at the top of the schema, none of which starts with a digit. *)
Lemma castTop_Some (env : Env) (k : string) (v : value) (r : Result value) :
  Db.castTop env k v = Some r ->
  exists c rest, k = String c rest /\ Chars.isDigit c = false.
Proof.
  unfold Db.castTop, Db.castIn.
  destruct (String.eqb_spec k "personalInfo") as [->|_]; [eauto|].
  destruct (String.eqb_spec k "jobInfo") as [->|_]; [eauto|].
  change ("" +:+ k) with k. unfold Employee.paths. cbn [Employee.kindOf].
  repeat match goal with
         | |- context [String.eqb k ?s] =>
             destruct (String.eqb_spec k s) as [->|_]; [eauto|]
         end.
  discriminate.
Qed.

Lemma castTop_digit (env : Env) (c : ascii) (rest : string) (v : value) :
  Chars.isDigit c = true -> Db.castTop env (String c rest) v = None.
Proof.
  intros Hc. destruct (Db.castTop env (String c rest) v) as [r|] eqn:E; [|done].
  apply castTop_Some in E as (c' & rest' & [= <- <-] & Hc'). congruence.
Qed.

(** A member that the payload does not have, other than those that the
    route adds, is not among the members that the data sets. *)
Lemma castData_absent (env : Env) (body : value) (extra fields : list (string * value))
    (key : string) :
  getField key body = None -> assoc key extra = None ->
  Db.castData env (spreadWith body extra) = Ok fields ->
  assoc key fields = None.
Proof.
  intros Hbody Hextra Hcast. unfold Db.castData in Hcast.
  destruct key as [|c rest].
  { eapply castMembers_dropped; [|exact Hcast]. intros v. reflexivity. }
  destruct (Chars.isDigit c) eqn:Hc.
  { eapply castMembers_dropped; [|exact Hcast]. intros v. by apply castTop_digit. }
  eapply castMembers_absent; [|exact Hcast].
  rewrite assoc_filter_keys. destruct (plainKey (String c rest)); [|done].
  unfold spreadWith. rewrite assoc_assign_absent by done.
  destruct (assoc (String c rest) (assign (ownEntries body) [])) as [v|] eqn:E; [|done].
  exfalso. assert (String c rest ∈ map fst (ownEntries body)) as Hin.
  { assert (String c rest ∈ map fst (assign (ownEntries body) [])) as H.
    { apply dec_stable. intros Hn. apply assoc_None_keys in Hn. congruence. }
    apply assign_keys in H as [H|H]; [done|by apply not_elem_of_nil in H]. }
  apply (proj1 (assoc_None_keys _ _)) in Hin; [done|].
  by rewrite assoc_ownEntries_letter.
Qed.

Lemma filter_keys_sublist (p : string -> bool) (fields : list (string * value)) :
  sublist (map fst (List.filter (fun kv => p (fst kv)) fields)) (map fst fields).
Proof.
  induction fields as [|x l IH]; simpl; [constructor|].
  destruct (p (fst x)); simpl; [by apply sublist_skip|by apply sublist_cons].
Qed.

Lemma castData_NoDup (env : Env) (body : value) (extra fields : list (string * value)) :
  Db.castData env (spreadWith body extra) = Ok fields -> NoDup (map fst fields).
Proof.
  unfold Db.castData. intros H. eapply castMembers_NoDup; [|exact H].
  eapply sublist_NoDup; [apply (spreadWith_NoDup body extra)|].
  apply filter_keys_sublist.
Qed.

(** A member that the route adds after the spread is cast as it is. *)
Lemma castData_added (env : Env) (body : value) (extra fields : list (string * value))
    (key : string) (f : value -> Result value) (v : value) :
  (forall w, Db.castTop env key w = Some (f w)) -> plainKey key = true ->
  NoDup (map fst extra) -> assoc key extra = Some v ->
  Db.castData env (spreadWith body extra) = Ok fields ->
  exists v', f v = Ok v' /\ assoc key fields = Some v'.
Proof.
  intros Hkeep Hplain Hnd Hextra Hcast. unfold Db.castData in Hcast.
  pose proof (castMembers_assoc _ key f _ _ Hkeep Hcast) as H.
  rewrite assoc_filter_keys, Hplain in H. unfold spreadWith in H.
  rewrite assoc_assign, Hextra in H by done. exact H.
Qed.

Lemma getField_applySet (k : string) (doc : value) (fields : list (string * value)) :
  NoDup (map fst fields) ->
  getField k (Db.applySet doc fields)
  = match assoc k fields with
    | Some v => Some v
    | None => getField k doc
    end.
Proof.
  intros Hnd. unfold Db.applySet. simpl. rewrite assoc_assign by done.
  by rewrite getField_members.
Qed.

(** ** The outcomes of the routes that write *)

Lemma succeeded_createFailed (e : StoreError) :
  succeeded (Routes.createFailed e) = false.
Proof. destruct e; try reflexivity. simpl. by repeat destruct (String.eqb _ _). Qed.

Lemma succeeded_updateFailed (e : StoreError) :
  succeeded (Routes.updateFailed e) = false.
Proof. destruct e; try reflexivity. simpl. by destruct (String.eqb _ _). Qed.

Lemma validateManagerAssignment_failed (db : Store) (env : Env)
    (paramsId : option string) (body : value) (r : Response) :
  validateManagerAssignment db env paramsId body = Respond r -> succeeded r = false.
Proof.
  unfold validateManagerAssignment. repeat case_match; intros [= <-]; reflexivity.
Qed.

Lemma save_Ok (db db' : Store) (env : Env) (id : string) (doc saved : value) :
  Db.save db env id doc = Db.Ok (db', saved) ->
  db !! id = None
  /\ saved = Employee.preSaveEmployeeId db (Employee.preSaveUpdatedAt (envNow env) doc)
  /\ db' = <[id := saved]> db.
Proof.
  unfold Db.save. destruct (negb _); [discriminate|].
  destruct (db !! id); [discriminate|].
  destruct (Db.indexConflict db id Employee.docEmployeeId _); [discriminate|].
  destruct (Db.indexConflict db id Employee.docEmail _); [discriminate|].
  by intros [= <- <-].
Qed.

Lemma save_Ok_valid (db db' : Store) (env : Env) (id : string) (doc saved : value) :
  Db.save db env id doc = Db.Ok (db', saved) ->
  Employee.validEmployeeId (Employee.docEmployeeId doc) = true
  /\ Db.indexConflict db id Employee.docEmployeeId saved = false
  /\ Db.indexConflict db id Employee.docEmail saved = false.
Proof.
  unfold Db.save.
  destruct (Employee.validEmployeeId (Employee.docEmployeeId doc)); [|discriminate].
  destruct (negb _); [discriminate|].
  destruct (db !! id); [discriminate|].
  destruct (Db.indexConflict db id Employee.docEmployeeId _) eqn:E1; [discriminate|].
  destruct (Db.indexConflict db id Employee.docEmail _) eqn:E2; [discriminate|].
  by intros [= _ <-].
Qed.

(** A create fails and leaves the store, or it answers 201 with the
    document that [save] has inserted under a free id. *)
Lemma createEmployee_outcome (db : Store) (env : Env) (user : string)
    (errors : list Routes.FieldError) (body : value) :
  (succeeded (fst (Routes.createEmployee db env user errors body)) = false
   /\ snd (Routes.createEmployee db env user errors body) = db)
  \/ exists id employee saved,
       Db.construct env (employeeData env user body) = Ok (id, employee)
       /\ Db.save db env id employee = Db.Ok (<[id := saved]> db, saved)
       /\ db !! id = None
       /\ validateManagerAssignment db env None body = Next
       /\ errors = []
       /\ Routes.createEmployee db env user errors body
          = (Routes.success 201 "Employee created successfully"
               (envRender env CreatedEmployee (<[id := saved]> db) id saved),
             <[id := saved]> db).
Proof.
  unfold Routes.createEmployee.
  destruct (validateManagerAssignment db env None body) as [|r] eqn:Hval.
  2:{ left. split; [|done]. by eapply validateManagerAssignment_failed. }
  destruct errors as [|e errors]; [|by left]. cbn [Routes.handleValidationErrors].
  destruct (getField "personalInfo" body) as [personalInfo|]; [|by left].
  fold (employeeData env user body).
  destruct personalInfo;
    try (by left);
    (match goal with
     | |- context [match Db.findOneByEmail ?a ?b ?c ?d with _ => _ end] =>
         destruct (Db.findOneByEmail a b c d) as [[found|]|e0]
     end;
     [by left| |left; split; [apply succeeded_createFailed|done]];
     destruct (Db.construct env (employeeData env user body))
       as [[nid employee]|e1] eqn:Hc;
     [|left; split; [apply succeeded_createFailed|done]];
     destruct (Db.save db env nid employee) as [[db' saved]|e2] eqn:Hsave;
     [|left; split; [apply succeeded_createFailed|done]];
     pose proof Hsave as Hok; apply save_Ok in Hok as (Hfree & _ & ->);
     right; exists nid, employee, saved; by split_and!).
Qed.

Lemma findByIdAndUpdate_Ok (db db' : Store) (env : Env) (id : string)
    (update : list (string * value)) (r : option (string * value)) :
  Db.findByIdAndUpdate db env id update = Ok (db', r) ->
  exists k fields,
    ObjectId.cast id = Some k
    /\ Db.castData env update = Ok fields
    /\ Db.updateValid env fields = true
    /\ match db !! k with
       | None => db' = db /\ r = None
       | Some doc =>
           exists base,
             (if plainKeys update then Ok doc else envPaths env doc update) = Ok base
             /\ Db.indexConflict db k Employee.docEmployeeId (Db.applySet base fields)
                = false
             /\ Db.indexConflict db k Employee.docEmail (Db.applySet base fields)
                = false
             /\ db' = <[k := Db.applySet base fields]> db
             /\ r = Some (k, Db.applySet base fields)
       end.
Proof.
  unfold Db.findByIdAndUpdate.
  destruct (ObjectId.cast id) as [k|]; [|discriminate].
  destruct (Db.castOwnId env update k) as [ownId|e]; [|discriminate].
  destruct (Db.castData env update) as [fields|e]; [|discriminate].
  destruct (Db.updateValid env fields) eqn:Hvalid; [|discriminate]. cbn [negb].
  intros H. exists k, fields. split_and!; [done..|].
  destruct (db !! k) as [doc|]; [|by injection H as <- <-].
  destruct ownId as [| | | | | | |k']; try discriminate.
  destruct (negb (String.eqb k' k)); [discriminate|].
  destruct (if plainKeys update then Ok doc else envPaths env doc update)
    as [base|e]; [|discriminate].
  exists base.
  destruct (Db.indexConflict db k Employee.docEmployeeId _) eqn:E1; [discriminate|].
  destruct (Db.indexConflict db k Employee.docEmail _) eqn:E2; [discriminate|].
  injection H as <- <-. by split_and!.
Qed.

(** An update fails and leaves the store, or it answers 200 and the
    employee of the route has got the members that the data sets. *)
Lemma updateEmployee_outcome (db : Store) (env : Env) (id user : string)
    (errors : list Routes.FieldError) (body : value) :
  (succeeded (fst (Routes.updateEmployee db env id user errors body)) = false
   /\ snd (Routes.updateEmployee db env id user errors body) = db)
  \/ exists k doc base fields,
       ObjectId.cast id = Some k
       /\ db !! k = Some doc
       /\ validateManagerAssignment db env (Some id) body = Next
       /\ errors = []
       /\ Db.castData env (updateData user body) = Ok fields
       /\ Db.updateValid env fields = true
       /\ (if plainKeys (updateData user body) then Ok doc
           else envPaths env doc (updateData user body)) = Ok base
       /\ Db.indexConflict db k Employee.docEmployeeId (Db.applySet base fields) = false
       /\ Db.indexConflict db k Employee.docEmail (Db.applySet base fields) = false
       /\ Routes.updateEmployee db env id user errors body
          = (Routes.success 200 "Employee updated successfully"
               (envRender env UpdatedEmployee (<[k := Db.applySet base fields]> db) k
                  (Db.applySet base fields)),
             <[k := Db.applySet base fields]> db).
Proof.
  unfold Routes.updateEmployee, validateEmployeeId.
  destruct (isHexString24 id) eqn:Hhex; [|by left].
  destruct (validateManagerAssignment db env (Some id) body) as [|r] eqn:Hval.
  2:{ left. split; [|done]. by eapply validateManagerAssignment_failed. }
  destruct errors as [|e errors]; [|by left]. cbn [Routes.handleValidationErrors].
  unfold Db.findById. rewrite (cast_hex _ Hhex).
  destruct (db !! ObjectId.toLowerCase id) as [doc|] eqn:Hdoc; [|by left].
  cbn [fmap option_fmap option_map].
  match goal with
  | |- context [if ?c then Db.findOneByEmail ?a ?b ?e ?x else Ok None] =>
      destruct (if c then Db.findOneByEmail a b e x else Ok None) as [[found|]|e0]
  end; [by left| |left; split; [apply succeeded_updateFailed|done]].
  fold (updateData user body).
  destruct (Db.findByIdAndUpdate db env id (updateData user body))
    as [[db' r]|e1] eqn:Hup; [|left; split; [apply succeeded_updateFailed|done]].
  apply findByIdAndUpdate_Ok in Hup as (k & fields & Hk & Hcast & Hvalid & Hrest).
  rewrite (cast_hex _ Hhex) in Hk. injection Hk as <-. rewrite Hdoc in Hrest.
  destruct Hrest as (base & Hbase & H1 & H2 & -> & ->).
  right. exists (ObjectId.toLowerCase id), doc, base, fields.
  split_and!; try done; by apply cast_hex.
Qed.

Lemma filter_length_Permutation {A : Type} (f : A -> bool) (l1 l2 : list A) :
  l1 ≡ₚ l2 -> List.length (List.filter f l1) = List.length (List.filter f l2).
Proof.
  induction 1 as [|x l1 l2 _ IH|x y l|l1 l2 l3 _ IH1 _ IH2]; simpl.
  - reflexivity.
  - destruct (f x); simpl; congruence.
  - destruct (f x), (f y); reflexivity.
  - congruence.
Qed.

Lemma managedBy_spec (id : string) (doc : value) :
  Db.managedBy id doc = true <-> docManager doc = Some id.
Proof.
  unfold Db.managedBy. destruct (docManager doc) as [m|]; [|split; discriminate].
  destruct (String.eqb_spec m id); split; congruence.
Qed.

(** [dependents] holds exactly the employees that refer to [id]. *)
Lemma elem_of_dependents (db : Store) (id i : string) :
  i ∈ dependents db id <-> exists doc, db !! i = Some doc /\ docManager doc = Some id.
Proof.
  unfold dependents. rewrite elem_of_dom. unfold is_Some.
  split; intros [doc H]; exists doc.
  - by apply map_lookup_filter_Some in H.
  - by apply map_lookup_filter_Some.
Qed.

(** The query of the delete route counts them. *)
Lemma find_managedBy_length (db : Store) (id : string) :
  List.length (Db.find db (Db.managedBy id)) = size (dependents db id).
Proof.
  unfold dependents, Db.find, Db.documents. rewrite size_dom.
  induction db as [|i doc db Hi _ IH] using map_first_key_ind.
  - by rewrite map_filter_empty, map_to_list_empty, map_size_empty.
  - rewrite (filter_length_Permutation _ _ _ (map_to_list_insert db i doc Hi)).
    simpl. destruct (Db.managedBy id doc) eqn:Hm.
    + rewrite map_filter_insert_True by (by apply managedBy_spec).
      rewrite map_size_insert_None by (by apply map_lookup_filter_None_2; left).
      simpl. by rewrite IH.
    + rewrite map_filter_insert_not'.
      * exact IH.
      * simpl. intros Hyes. apply managedBy_spec in Hyes. congruence.
      * intros y Hy. congruence.
Qed.

(** An employee that another one refers to has a dependent. *)
Lemma dependents_nonempty (db : Store) (id other : string) (doc : value) :
  db !! other = Some doc -> docManager doc = Some id ->
  (0 <? size (dependents db id))%nat = true.
Proof.
  intros Ho Hm. apply Nat.ltb_lt.
  assert (Hin : other ∈ dependents db id) by (apply elem_of_dependents; eauto).
  destruct (size (dependents db id)) eqn:Hs; [|lia].
  apply size_empty_inv in Hs. unfold_leibniz. rewrite Hs in Hin.
  by apply not_elem_of_empty in Hin.
Qed.

(** A delete fails and leaves the store, or it answers 200 and removes
    an employee that nobody refers to. *)
Lemma deleteEmployee_outcome (db : Store) (id : string) :
  (succeeded (fst (Routes.deleteEmployee db id)) = false
   /\ snd (Routes.deleteEmployee db id) = db)
  \/ exists k employee,
       ObjectId.cast id = Some k
       /\ db !! k = Some employee
       /\ size (dependents db k) = 0%nat
       /\ succeeded (fst (Routes.deleteEmployee db id)) = true
       /\ snd (Routes.deleteEmployee db id) = delete k db.
Proof.
  unfold Routes.deleteEmployee, validateEmployeeId.
  destruct (isHexString24 id) eqn:Hhex; [|by left].
  unfold Db.findById. rewrite (cast_hex _ Hhex).
  destruct (db !! ObjectId.toLowerCase id) as [employee|] eqn:Hid; [|by left].
  cbn [fmap option_fmap option_map]. rewrite find_managedBy_length.
  destruct (0 <? size (dependents db (ObjectId.toLowerCase id)))%nat eqn:E; [by left|].
  right. exists (ObjectId.toLowerCase id), employee. apply Nat.ltb_ge in E.
  split_and!; try done; try (by apply cast_hex); lia.
Qed.

(** ** Deletion and dependents *)

(** C8: for an employee of the store, the delete route answers by the
    number of employees whose [jobInfo.manager] refers to it.  When there
    is one or more it answers 400 with that number and leaves the store as
    it was; when there is none it removes the employee and answers with
    the summary of its id, its employeeId and its full name, the first
    and the last name with a space between them. *)
Theorem delete_guarded_by_dependents (db : Store) (id k : string)
    (employee employeeId personalInfo : value) (firstName lastName : string) :
  ObjectId.cast id = Some k ->
  db !! k = Some employee ->
  Employee.docEmployeeId employee = Some employeeId ->
  getField "personalInfo" employee = Some personalInfo ->
  getField "firstName" personalInfo = Some (VStr firstName) ->
  getField "lastName" personalInfo = Some (VStr lastName) ->
  Routes.deleteEmployee db id =
    if (0 <? size (dependents db k))%nat
    then (mkResponse 400
            (VObj [("message",
                    VStr "Cannot delete employee who is managing other employees");
                   ("managedEmployees", VNum (Z.of_nat (size (dependents db k))))]),
          db)
    else (mkResponse 200
            (VObj [("message", VStr "Employee deleted successfully");
                   ("data",
                    VObj [("deletedEmployee",
                           VObj [("id", VId k);
                                 ("employeeId", employeeId);
                                 ("fullName",
                                  VStr (firstName +:+ " " +:+ lastName))])])]),
          delete k db).
Proof.
  intros Hcast Hid He Hp Hfirst Hlast.
  destruct (cast_Some _ _ Hcast) as [Hhex ->].
  unfold Routes.deleteEmployee, Db.findById.
  rewrite (validateEmployeeId_hex _ Hhex), (cast_hex _ Hhex), Hid.
  cbn [fmap option_fmap option_map]. rewrite find_managedBy_length.
  destruct (0 <? size (dependents db (ObjectId.toLowerCase id)))%nat; [reflexivity|].
  rewrite He. unfold Employee.fullName. by rewrite Hp, Hfirst, Hlast.
Qed.

Lemma delete_guarded_by_dependents_witness :
  (size (dependents Sample.team Sample.idA) = 1%nat
   /\ Routes.deleteEmployee Sample.team Sample.idA
      = (mkResponse 400
           (VObj [("message",
                   VStr "Cannot delete employee who is managing other employees");
                  ("managedEmployees", VNum 1)]),
         Sample.team))
  /\ (size (dependents Sample.team Sample.idB) = 0%nat
      /\ Routes.deleteEmployee Sample.team Sample.idB_upper
         = (mkResponse 200
              (VObj [("message", VStr "Employee deleted successfully");
                     ("data",
                      VObj [("deletedEmployee",
                             VObj [("id", VId Sample.idB);
                                   ("employeeId", VStr "EMP0002");
                                   ("fullName", VStr "Bob Doe")])])]),
            delete Sample.idB Sample.team)).
Proof.
  split; (split; [vm_compute; reflexivity|]).
  - rewrite (delete_guarded_by_dependents Sample.team Sample.idA Sample.idA
               (Sample.employee "EMP5000" "Ann" "ann@example.com" "active" None)
               (VStr "EMP5000")
               (VObj [("firstName", VStr "Ann"); ("lastName", VStr "Doe");
                      ("email", VStr "ann@example.com")])
               "Ann" "Doe");
      vm_compute; reflexivity.
  - rewrite (delete_guarded_by_dependents Sample.team Sample.idB_upper Sample.idB
               (Sample.employee "EMP0002" "Bob" "bob@example.com" "active"
                  (Some Sample.idA))
               (VStr "EMP0002")
               (VObj [("firstName", VStr "Bob"); ("lastName", VStr "Doe");
                      ("email", VStr "bob@example.com")])
               "Bob" "Doe");
      vm_compute; reflexivity.
Defined.

(** ** Members absent from the payload of an update *)

Lemma updateData_plain (user : string) (body : value) :
  plainKeys (ownEntries body) = true -> plainKeys (updateData user body) = true.
Proof. intros H. by apply spreadWith_plain. Qed.

(** The route sets [updatedBy] to the acting admin. *)
Lemma castData_updatedBy (env : Env) (user : string) (body : value)
    (fields : list (string * value)) :
  Db.castData env (updateData user body) = Ok fields ->
  assoc "updatedBy" fields = Some (VId user).
Proof.
  intros Hcast.
  destruct (castData_added env body [("updatedBy", VId user)] fields "updatedBy"
              (Db.castLeaf env "updatedBy" Employee.KRef) (VId user))
    as (v' & Hv & Hassoc); try done.
  - apply NoDup_singleton.
  - by injection Hv as <-.
Qed.




(** ** The invariant on manager references *)

Lemma managersActive_team : managersActive Sample.team.
Proof.
  intros id doc m Hid Hm. unfold Sample.team in Hid.
  apply lookup_insert_Some in Hid as [[<- <-]|[_ Hid]]; [discriminate|].
  apply lookup_insert_Some in Hid as [[<- <-]|[_ Hid]]; [|by rewrite lookup_empty in Hid].
  injection Hm as <-. eexists. split; [vm_compute; reflexivity|reflexivity].
Qed.


(** ** Preservation of the invariant on manager references *)

(** A request that passes the validation with a string as candidate has
    a candidate that is the id of a stored, active employee. *)
Lemma validateManagerAssignment_Next (db : Store) (env : Env)
    (paramsId : option string) (body : value) (m : string) :
  validateManagerAssignment db env paramsId body = Next ->
  bodyManager body = Some (VStr m) ->
  exists k mdoc,
    ObjectId.cast m = Some k /\ db !! k = Some mdoc /\ isActive mdoc = true.
Proof.
  unfold validateManagerAssignment, Db.findByCandidate. intros Hval Hbody.
  rewrite Hbody in Hval.
  destruct (Db.findById db m) as [[[k mdoc]|]|e] eqn:Hfind; try discriminate.
  apply findById_Some in Hfind as [Hk Hdoc].
  destruct (isActive mdoc) eqn:Hactive; [|discriminate].
  by exists k, mdoc.
Qed.

Lemma cast_empty : ObjectId.cast "" = None.
Proof. reflexivity. Qed.

(** The reference that the cast of a [jobInfo] of a payload holds is the
    cast of the string that the payload has as manager. *)
Lemma castJobInfo_manager (env : Env) (body : value) (j j' : value) (c : string) :
  stringManager body = true ->
  getField "jobInfo" body = Some j ->
  Db.castJobInfo env j = Ok j' ->
  managerOf (Some j') = Some c ->
  exists s, bodyManager body = Some (VStr s) /\ ObjectId.cast s = Some c.
Proof.
  unfold stringManager, bodyManager. intros Hstr Hj Hcast Hm. rewrite Hj in *.
  destruct j as [| | | | | |jobInfo|]; try discriminate.
  unfold Db.castJobInfo, Db.castObject in Hcast.
  destruct (Db.castMembers (Db.castIn env "jobInfo.") jobInfo) as [fields|e] eqn:Hmembers;
    [|discriminate].
  injection Hcast as <-.
  pose proof (castMembers_assoc (Db.castIn env "jobInfo.") "manager"
                (Db.castLeaf env "jobInfo.manager" Employee.KRef)
                jobInfo fields (fun v => eq_refl) Hmembers) as H.
  unfold managerOf in Hm. cbn [getField] in *.
  destruct (assoc "manager" jobInfo) as [[| | |s| | | |]|]; try discriminate.
  - destruct H as (v' & [= <-] & Hv'). by rewrite Hv' in Hm.
  - destruct H as (v' & Hv & Hv'). cbn [Db.castLeaf Db.castRef] in Hv.
    destruct (ObjectId.cast s) as [c'|] eqn:Hs; [|discriminate].
    injection Hv as <-. rewrite Hv' in Hm. injection Hm as <-.
    exists s. split; [|done]. cbn [truthy].
    destruct (String.eqb_spec s "") as [->|]; [discriminate|done].
  - by rewrite H in Hm.
Qed.

(** What the data of a payload sets as [jobInfo]. *)
Lemma castData_jobInfo (env : Env) (body : value) (extra fields : list (string * value)) :
  NoDup (map fst (ownEntries body)) ->
  Db.castData env (spreadWith body extra) = Ok fields ->
  assoc "jobInfo" extra = None ->
  match getField "jobInfo" body with
  | None => assoc "jobInfo" fields = None
  | Some j => exists j', Db.castJobInfo env j = Ok j' /\ assoc "jobInfo" fields = Some j'
  end.
Proof.
  intros Hnd Hcast Hextra. unfold Db.castData in Hcast.
  pose proof (castMembers_assoc (Db.castTop env) "jobInfo" (Db.castJobInfo env)
                _ fields (fun v => eq_refl) Hcast) as H.
  rewrite assoc_filter_keys in H. change (plainKey "jobInfo") with true in H.
  cbv iota in H. rewrite assoc_spreadWith in H by done.
  by rewrite (assoc_ownEntries_letter "j" "obInfo" body) in H.
Qed.

Lemma castData_status (env : Env) (body : value) (extra fields : list (string * value)) :
  NoDup (map fst (ownEntries body)) ->
  Db.castData env (spreadWith body extra) = Ok fields ->
  assoc "status" extra = None ->
  match getField "status" body with
  | None => assoc "status" fields = None
  | Some (VStr s) => assoc "status" fields = Some (VStr s)
  | Some _ => True
  end.
Proof.
  intros Hnd Hcast Hextra. unfold Db.castData in Hcast.
  pose proof (castMembers_assoc (Db.castTop env) "status"
                (Db.castLeaf env "status" (Employee.KString false false false))
                _ fields (fun v => eq_refl) Hcast) as H.
  rewrite assoc_filter_keys in H. change (plainKey "status") with true in H.
  cbv iota in H. rewrite assoc_spreadWith in H by done.
  rewrite (assoc_ownEntries_letter "s" "tatus" body) in H by done.
  destruct (getField "status" body) as [[| | |s| | | |]|]; try done.
  by destruct H as (v' & [= <-] & Hv').
Qed.

Lemma assoc_withDefault_ne (k0 k : string) (v : value) (fields : list (string * value)) :
  k0 <> k -> assoc k (Db.withDefault k0 v fields) = assoc k fields.
Proof.
  intros Hne. unfold Db.withDefault. destruct (assoc k0 fields); [done|].
  by apply assoc_setField_ne.
Qed.

Lemma assoc_inMember_ne (k0 k : string)
    (f : list (string * value) -> list (string * value))
    (fields : list (string * value)) :
  k0 <> k -> assoc k (Db.inMember k0 f fields) = assoc k fields.
Proof.
  intros Hne. unfold Db.inMember.
  destruct (assoc k0 fields) as [[]|]; try done; by apply assoc_setField_ne.
Qed.

Lemma managerOf_employmentType (v : value) (fields : list (string * value)) :
  managerOf (assoc "jobInfo"
               (Db.inMember "jobInfo" (Db.withDefault "employmentType" v) fields))
  = managerOf (assoc "jobInfo" fields).
Proof.
  unfold Db.inMember. destruct (assoc "jobInfo" fields) as [[| | | | | |sub|]|] eqn:E;
    rewrite ?E; try done; rewrite assoc_setField_eq; unfold managerOf; simpl.
  - by rewrite assoc_withDefault_ne.
  - reflexivity.
Qed.

(** The hooks of [save] keep the manager of the document. *)
Lemma docManager_preSave (db : Store) (now : Z) (doc : value) :
  docManager (Employee.preSaveEmployeeId db (Employee.preSaveUpdatedAt now doc))
  = docManager doc.
Proof.
  unfold Employee.preSaveEmployeeId, Employee.preSaveUpdatedAt, docManager.
  destruct (truthy _); simpl; rewrite ?assoc_setField_ne by done;
    by rewrite (getField_members _ doc).
Qed.

(** The document that is made of plain data has as manager what the data
    sets in [jobInfo]. *)
Lemma construct_plain (env : Env) (data : list (string * value)) (id : string)
    (doc : value) :
  plainKeys data = true -> Db.construct env data = Ok (id, doc) ->
  exists fields,
    Db.castData env data = Ok fields
    /\ docManager doc = managerOf (assoc "jobInfo" fields).
Proof.
  intros Hplain. unfold Db.construct. rewrite Hplain.
  destruct (Db.castOwnId env data (envNewObjectId env)) as [own|e];
    destruct (Db.castData env data) as [fields|e']; try discriminate;
    destruct own; try discriminate.
  intros [= <- <-]. exists fields. split; [done|].
  unfold docManager. cbn [getField].
  rewrite assoc_inMember_ne by done. rewrite managerOf_employmentType.
  by rewrite !assoc_withDefault_ne by done.
Qed.

(** A successful create has passed the validation and inserts, under an
    id that was free, a document; when the payload is plain and its
    manager a string, the manager of the document is the cast of that
    string. *)
Lemma createEmployee_manager (db : Store) (env : Env) (user : string)
    (errors : list Routes.FieldError) (body : value) :
  plainBody body -> stringManager body = true ->
  snd (Routes.createEmployee db env user errors body) = db
  \/ exists id doc,
       db !! id = None
       /\ validateManagerAssignment db env None body = Next
       /\ (forall c, docManager doc = Some c ->
             exists s, bodyManager body = Some (VStr s) /\ ObjectId.cast s = Some c)
       /\ snd (Routes.createEmployee db env user errors body) = <[id := doc]> db.
Proof.
  intros [Hnd Hplain] Hstr.
  destruct (createEmployee_outcome db env user errors body)
    as [[_ ->]|(id & employee & saved & Hc & Hsave & Hfree & Hval & _ & ->)]; [by left|].
  right. exists id, saved. split_and!; [done..| |done].
  apply save_Ok in Hsave as (_ & -> & _). rewrite docManager_preSave.
  apply construct_plain in Hc as (fields & Hfields & ->);
    [|by apply spreadWith_plain].
  pose proof (castData_jobInfo env body _ fields Hnd Hfields eq_refl) as Hj.
  destruct (getField "jobInfo" body) as [j|] eqn:Hjob.
  - destruct Hj as (j' & Hcast & ->). intros c Hm.
    by eapply castJobInfo_manager.
  - rewrite Hj. discriminate.
Qed.

(** What a successful update of a plain payload with a string as manager
    does to the manager and to the status of the employee. *)
Lemma updateEmployee_manager (db : Store) (env : Env) (id user : string)
    (errors : list Routes.FieldError) (body : value) :
  plainBody body -> stringManager body = true ->
  snd (Routes.updateEmployee db env id user errors body) = db
  \/ exists k doc doc',
       ObjectId.cast id = Some k
       /\ db !! k = Some doc
       /\ validateManagerAssignment db env (Some id) body = Next
       /\ (forall c, docManager doc' = Some c ->
             (getField "jobInfo" body = None /\ docManager doc = Some c)
             \/ exists s, bodyManager body = Some (VStr s) /\ ObjectId.cast s = Some c)
       /\ (getField "jobInfo" body = None -> docManager doc' = docManager doc)
       /\ docStatus doc' = match getField "status" body with
                           | None => docStatus doc
                           | Some (VStr s) => Some (VStr s)
                           | Some _ => docStatus doc'
                           end
       /\ snd (Routes.updateEmployee db env id user errors body) = <[k := doc']> db.
Proof.
  intros [Hnd Hplain] Hstr.
  destruct (updateEmployee_outcome db env id user errors body)
    as [[_ ->]|(k & doc & base & fields & Hk & Hdoc & Hval & _ & Hfields & _
                & Hbase & _ & _ & ->)]; [by left|].
  rewrite (updateData_plain user body Hplain) in Hbase. injection Hbase as <-.
  right. exists k, doc, (Db.applySet doc fields).
  pose proof (castData_NoDup _ _ _ _ Hfields) as Hndf.
  pose proof (castData_jobInfo env body _ fields Hnd Hfields eq_refl) as Hj.
  pose proof (castData_status env body _ fields Hnd Hfields eq_refl) as Hs.
  assert (docManager (Db.applySet doc fields)
          = match assoc "jobInfo" fields with
            | Some j' => managerOf (Some j')
            | None => docManager doc
            end) as Hmgr.
  { unfold docManager. rewrite getField_applySet by done.
    by destruct (assoc "jobInfo" fields). }
  split_and!; try done.
  - intros c Hm. rewrite Hmgr in Hm.
    destruct (getField "jobInfo" body) as [j|] eqn:Hjob.
    + destruct Hj as (j' & Hcast & Hassoc). rewrite Hassoc in Hm.
      right. by eapply castJobInfo_manager.
    + rewrite Hj in Hm. by left.
  - intros Hnone. rewrite Hnone in Hj. by rewrite Hmgr, Hj.
  - unfold docStatus. rewrite getField_applySet by done.
    destruct (getField "status" body) as [[| | |s| | | |]|]; try by rewrite ?Hs.
    all: by rewrite getField_applySet by done.
Qed.



(** * Further properties *)

(** ** The walk and reachability *)

Section WalkExact.
Context (db : Store).

Lemma reaches_trans (x y z : string) :
  reaches db x y -> reaches db y z -> reaches db x z.
Proof.
  induction 1 as [x|x doc y' y Hx Hy Hr IH]; [done|].
  intros Hz. eapply reaches_link; eauto.
Qed.

Lemma reachesPlus_reaches (x z : string) : Graph.reachesPlus db x z -> reaches db x z.
Proof. intros [x' doc y z' Hx Hy Hr]. eapply reaches_link; eauto. Qed.

Lemma reaches_reachesPlus (x y z : string) :
  reaches db x y -> Graph.reachesPlus db y z -> Graph.reachesPlus db x z.
Proof.
  intros Hxy Hyz. inversion Hxy as [x0|x0 doc y' y0 Hx Hy Hr]; subst.
  - done.
  - econstructor; eauto. eapply reaches_trans; eauto. by apply reachesPlus_reaches.
Qed.

(** Every employee on a chain that runs into a cycle has a manager. *)
Lemma entersCycle_link (m : string) :
  Graph.entersCycle db m ->
  exists doc next,
    db !! m = Some doc /\ docManager doc = Some next /\ Graph.entersCycle db next.
Proof.
  intros (x & Hmx & Hc). inversion Hmx as [x0|m0 doc next x0 Hm Hnext Hr]; subst.
  - inversion Hc as [x0 doc y x' Hx Hy Hr]; subst. exists doc, y. split_and!; [done..|].
    exists y. split; [constructor|].
    eapply reaches_reachesPlus; [exact Hr|]. econstructor; eauto. constructor.
  - exists doc, next. split_and!; [done..|]. by exists x.
Qed.

(** An id written as an ObjectId prints it is looked up as it is. *)
Lemma findById_canonical (m : string) :
  ObjectId.cast m = Some m -> Db.findById db m = Ok (pair m <$> db !! m).
Proof. unfold Db.findById. by intros ->. Qed.

Context (Hcanonical : Graph.canonical db).

Lemma visit_shrinks (m : string) (visited : gset string) :
  is_Some (db !! m) -> m ∉ visited ->
  (size (dom db ∖ ({[m]} ∪ visited)) < size (dom db ∖ visited))%nat.
Proof.
  intros Hm Hv. apply subset_size.
  apply elem_of_dom in Hm. split.
  - intros x. rewrite !elem_of_difference, elem_of_union. tauto.
  - intros Hsub. specialize (Hsub m).
    rewrite !elem_of_difference, elem_of_union, elem_of_singleton in Hsub. tauto.
Qed.

(** The walk finds the employee when the chain of the candidate leads to
    it. *)
Lemma checkCircularHierarchy_reaches (e m : string) :
  reaches db m e ->
  ObjectId.cast m = Some m ->
  forall (fuel : nat) (visited : gset string),
    (size (dom db ∖ visited) < fuel)%nat ->
    checkCircularHierarchy fuel db e m visited = Some (Ok true).
Proof.
  induction 1 as [x|x doc y z Hx Hy Hr IH]; intros Hc fuel visited Hlt;
    (destruct fuel as [|fuel]; [lia|]); simpl.
  - destruct (decide (x ∈ visited)); [done|]. by rewrite String.eqb_refl.
  - destruct (decide (x ∈ visited)) as [|Hv]; [done|].
    destruct (String.eqb x z); [done|].
    rewrite (findById_canonical x Hc), Hx. cbn [fmap option_fmap option_map].
    rewrite Hy. apply IH; [by eapply Hcanonical|].
    pose proof (visit_shrinks x visited (mk_is_Some _ _ Hx) Hv). lia.
Qed.

(** An answer [true] of the walk: the employee was met, or an id already
    visited, or the chain closed on itself. *)
Lemma checkCircularHierarchy_true (fuel : nat) (e m : string) (visited : gset string) :
  ObjectId.cast m = Some m ->
  checkCircularHierarchy fuel db e m visited = Some (Ok true) ->
  reaches db m e
  \/ (exists v, v ∈ visited /\ reaches db m v)
  \/ Graph.entersCycle db m.
Proof.
  revert m visited. induction fuel as [|fuel IH]; intros m visited Hc; [discriminate|].
  simpl. destruct (decide (m ∈ visited)) as [Hin|Hout].
  { intros _. right; left. exists m. split; [done|constructor]. }
  destruct (String.eqb_spec m e) as [->|Hne]; [intros _; left; constructor|].
  rewrite (findById_canonical m Hc).
  destruct (db !! m) as [doc|] eqn:Hm; [|discriminate].
  cbn [fmap option_fmap option_map].
  destruct (docManager doc) as [next|] eqn:Hnext; [|discriminate].
  intros Hrec. apply IH in Hrec as [Hr|[(v & Hv & Hr)|(x & Hr & Hcyc)]];
    [| | |by eapply Hcanonical].
  - left. eapply reaches_link; eauto.
  - apply elem_of_union in Hv as [Hv|Hv].
    + apply elem_of_singleton in Hv as ->.
      right; right. exists m. split; [constructor|]. econstructor; eauto.
    + right; left. exists v. split; [done|]. eapply reaches_link; eauto.
  - right; right. exists x. split; [|done]. eapply reaches_link; eauto.
Qed.

(** On a chain that runs into a cycle the walk does not answer [false]
    and does not throw. *)
Lemma checkCircularHierarchy_cycle (fuel : nat) (e m : string) (visited : gset string)
    (outcome : Result bool) :
  Graph.entersCycle db m ->
  ObjectId.cast m = Some m ->
  checkCircularHierarchy fuel db e m visited = Some outcome ->
  outcome = Ok true.
Proof.
  revert m visited. induction fuel as [|fuel IH]; intros m visited Hcyc Hc;
    [discriminate|].
  simpl. destruct (decide (m ∈ visited)); [by intros [= <-]|].
  destruct (String.eqb m e); [by intros [= <-]|].
  destruct (entersCycle_link m Hcyc) as (doc & next & Hm & Hnext & Hcyc').
  rewrite (findById_canonical m Hc), Hm. cbn [fmap option_fmap option_map].
  rewrite Hnext. apply IH; [done|by eapply Hcanonical].
Qed.

End WalkExact.

Lemma walkFuel_dom (db : Store) :
  (size (dom db ∖ (∅ : gset string)) < walkFuel db)%nat.
Proof. unfold walkFuel. rewrite difference_empty_L, size_dom. lia. Qed.


Lemma acyclic_team : Graph.acyclic Sample.team.
Proof.
  assert (forall d, Sample.team !! Sample.idA = Some d -> docManager d = None) as HA.
  { intros d Hd. vm_compute in Hd. by injection Hd as <-. }
  assert (forall d y, Sample.team !! Sample.idB = Some d -> docManager d = Some y ->
                      y = Sample.idA) as HB.
  { intros d y Hd Hy. vm_compute in Hd. injection Hd as <-. by injection Hy as <-. }
  assert (forall x d, Sample.team !! x = Some d -> x = Sample.idA \/ x = Sample.idB) as Hdom.
  { intros x d Hx. unfold Sample.team in Hx.
    apply lookup_insert_Some in Hx as [[<- _]|[_ Hx]]; [by left|].
    apply lookup_insert_Some in Hx as [[<- _]|[_ Hx]]; [by right|].
    by rewrite lookup_empty in Hx. }
  intros x Hc. inversion Hc as [x0 d y z Hx Hy Hr]; subst.
  destruct (Hdom _ _ Hx) as [->| ->].
  - rewrite (HA _ Hx) in Hy. discriminate.
  - pose proof (HB _ _ Hx Hy) as ->.
    inversion Hr as [x0|x0 d2 y2 z2 Hx2 Hy2 Hr2]; subst.
    rewrite (HA _ Hx2) in Hy2. discriminate.
Qed.

Lemma canonical_team : Graph.canonical Sample.team.
Proof.
  intros id doc m Hid Hm. unfold Sample.team in Hid.
  apply lookup_insert_Some in Hid as [[<- <-]|[_ Hid]]; [discriminate|].
  apply lookup_insert_Some in Hid as [[<- <-]|[_ Hid]]; [|by rewrite lookup_empty in Hid].
  by injection Hm as <-.
Qed.

Lemma managersExist_team : Graph.managersExist Sample.team.
Proof.
  intros id doc m Hid Hm. destruct (managersActive_team id doc m Hid Hm) as (mdoc & H & _).
  eauto.
Qed.


(** ** The hierarchy stays a forest *)

Section Edges.
Context (db db' : Store).

(** When every reference of [db'] is a reference of [db], its chains are
    chains of [db]. *)
Lemma reaches_edges (a b : string) :
  (forall x d y, db' !! x = Some d -> docManager d = Some y ->
                 exists d0, db !! x = Some d0 /\ docManager d0 = Some y) ->
  reaches db' a b -> reaches db a b.
Proof.
  intros Hsub. induction 1 as [x|x doc y z Hx Hy Hr IH]; [constructor|].
  destruct (Hsub _ _ _ Hx Hy) as (d0 & Hx0 & Hy0). eapply reaches_link; eauto.
Qed.

Lemma acyclic_edges :
  (forall x d y, db' !! x = Some d -> docManager d = Some y ->
                 exists d0, db !! x = Some d0 /\ docManager d0 = Some y) ->
  Graph.acyclic db -> Graph.acyclic db'.
Proof.
  intros Hsub Hacyclic x Hc. inversion Hc as [x0 doc y z Hx Hy Hr]; subst.
  destruct (Hsub _ _ _ Hx Hy) as (d0 & Hx0 & Hy0).
  apply (Hacyclic x). econstructor; eauto. by apply reaches_edges.
Qed.

Lemma canonical_edges :
  (forall x d y, db' !! x = Some d -> docManager d = Some y ->
                 exists d0, db !! x = Some d0 /\ docManager d0 = Some y) ->
  Graph.canonical db -> Graph.canonical db'.
Proof.
  intros Hsub Hcan x d y Hx Hy.
  destruct (Hsub _ _ _ Hx Hy) as (d0 & Hx0 & Hy0). by eapply Hcan.
Qed.

End Edges.

(** A chain of the store in which [id] got a new document is a chain of
    the old store, or it is one up to [id] and goes on from there. *)
Lemma reaches_through (db : Store) (id : string) (doc' : value) (a b : string) :
  reaches (<[id := doc']> db) a b ->
  reaches db a b \/ (reaches db a id /\ reaches (<[id := doc']> db) id b).
Proof.
  remember (<[id := doc']> db) as db1 eqn:E.
  induction 1 as [x|x doc y z Hx Hy Hr IH].
  - left. constructor.
  - destruct (decide (x = id)) as [->|Hne].
    + right. split; [constructor|]. eapply reaches_link; eauto.
    + subst db1. rewrite lookup_insert_ne in Hx by done.
      destruct IH as [H|[H1 H2]].
      * left. eapply reaches_link; eauto.
      * right. split; [|done]. eapply reaches_link; eauto.
Qed.

(** From a stored employee, the chains of a store that got one more
    employee stay among the old employees. *)
Lemma reaches_old (db : Store) (nid : string) (ndoc : value) (x y : string) :
  Graph.managersExist db -> db !! nid = None -> x <> nid ->
  reaches (<[nid := ndoc]> db) x y -> reaches db x y /\ y <> nid.
Proof.
  intros Hexist Hfree Hx Hr. remember (<[nid := ndoc]> db) as db1 eqn:E.
  induction Hr as [x|x doc y z Hlook Hm Hr IH].
  - split; [constructor|done].
  - subst db1. rewrite lookup_insert_ne in Hlook by done.
    assert (y <> nid) as Hy.
    { intros ->. destruct (Hexist _ _ _ Hlook Hm) as [? ?]. congruence. }
    destruct (IH Hy) as [H1 H2]. split; [|done]. eapply reaches_link; eauto.
Qed.

(** An update that passes the validation with a string as candidate: the
    candidate is not the id of the route, as strings, and the walk has
    answered [false]. *)
Lemma validateManagerAssignment_walk (db : Store) (env : Env) (id m : string)
    (body : value) :
  String.eqb id "" = false ->
  validateManagerAssignment db env (Some id) body = Next ->
  bodyManager body = Some (VStr m) ->
  m <> id
  /\ checkCircularHierarchy (walkFuel db) db id m ∅ = Some (Ok false).
Proof.
  unfold validateManagerAssignment, Db.findByCandidate. intros Hid Hval Hbody.
  rewrite Hbody, Hid in Hval.
  destruct (Db.findById db m) as [[[k mdoc]|]|e]; try discriminate.
  destruct (isActive mdoc); [|discriminate].
  cbn [negb andb sameAsRouteId isCircular] in Hval.
  destruct (String.eqb_spec m id) as [->|Hne]; [discriminate|].
  split; [done|].
  by destruct (checkCircularHierarchy (walkFuel db) db id m ∅) as [[[]|]|].
Qed.

(** A walk that lets the request pass found no chain from the candidate
    to the employee. *)
Lemma validateManagerAssignment_no_chain (db : Store) (env : Env) (id m : string)
    (body : value) :
  Graph.canonical db -> ObjectId.cast m = Some m ->
  String.eqb id "" = false ->
  validateManagerAssignment db env (Some id) body = Next ->
  bodyManager body = Some (VStr m) ->
  ~ reaches db m id.
Proof.
  intros Hcan Hc Hid Hval Hbody Hreach.
  destruct (validateManagerAssignment_walk db env id m body Hid Hval Hbody) as [_ Hwalk].
  rewrite (checkCircularHierarchy_reaches db Hcan id m Hreach Hc) in Hwalk;
    [discriminate|apply walkFuel_dom].
Qed.

Lemma update_keeps_acyclic (db : Store) (env : Env) (id user : string)
    (errors : list Routes.FieldError) (body : value) :
  plainBody body -> stringManager body = true ->
  Ops.canonicalIds (Ops.Update id user errors body) = true ->
  Graph.managersExist db -> Graph.acyclic db -> Graph.canonical db ->
  Graph.managersExist (snd (Routes.updateEmployee db env id user errors body))
  /\ Graph.acyclic (snd (Routes.updateEmployee db env id user errors body))
  /\ Graph.canonical (snd (Routes.updateEmployee db env id user errors body)).
Proof.
  intros Hplain Hstr Hids Hexist Hacyclic Hcan.
  destruct (updateEmployee_manager db env id user errors body Hplain Hstr)
    as [->|(k & doc & doc' & Hk & Hdoc & Hval & Hmgr & Hsame & _ & ->)]; [done|].
  cbn [Ops.canonicalIds] in Hids. apply andb_true_iff in Hids as [Hid Hcand].
  apply bool_decide_eq_true in Hid. rewrite Hid in Hk. injection Hk as <-.
  destruct (cast_Some _ _ Hid) as [Hhex _].
  destruct (docManager doc') as [m|] eqn:Hm.
  - destruct (Hmgr m eq_refl) as [[Hnone Hold]|(s & Hbody & Hcast)].
    + (* the payload has no [jobInfo]: the references are the same *)
      assert (forall x d y, <[id := doc']> db !! x = Some d -> docManager d = Some y ->
                            exists d0, db !! x = Some d0 /\ docManager d0 = Some y) as Hsub.
      { intros x d y Hx Hy. apply lookup_insert_Some in Hx as [[<- <-]|[_ Hx]]; [|eauto].
        exists doc. split; [done|congruence]. }
      split_and!; [|by eapply acyclic_edges|by eapply canonical_edges].
      intros x d y Hx Hy. destruct (Hsub _ _ _ Hx Hy) as (d0 & Hx0 & Hy0).
      apply lookup_insert_is_Some'. right. eauto.
    + (* the payload names a manager, which the validation has checked *)
      rewrite Hbody in Hcand. apply bool_decide_eq_true in Hcand.
      rewrite Hcand in Hcast. injection Hcast as <-.
      destruct (validateManagerAssignment_Next _ _ _ _ _ Hval Hbody)
        as (k & mdoc & Hk & Hmd & _).
      rewrite Hcand in Hk. injection Hk as <-.
      destruct (validateManagerAssignment_walk db env id s body
                  (hex24_not_empty _ Hhex) Hval Hbody) as [Hne _].
      pose proof (validateManagerAssignment_no_chain db env id s body Hcan Hcand
                    (hex24_not_empty _ Hhex) Hval Hbody) as Hno.
      split_and!.
      * intros x d y Hx Hy. apply lookup_insert_is_Some'.
        apply lookup_insert_Some in Hx as [[<- <-]|[_ Hx]].
        -- right. rewrite Hm in Hy. injection Hy as <-. eauto.
        -- right. eauto.
      * intros x Hc. inversion Hc as [x0 d y z Hx Hy Hr]; subst.
        apply lookup_insert_Some in Hx as [[<- <-]|[Hx' Hx]].
        -- rewrite Hm in Hy. injection Hy as <-.
           apply reaches_through in Hr as [H|[H _]]; contradiction.
        -- apply reaches_through in Hr as [H|[H1 H2]].
           { apply (Hacyclic x). econstructor; eauto. }
           inversion H2 as [x0|x0 d2 y2 z2 Hid2 Hy2 Hr2]; subst; [done|].
           rewrite lookup_insert_eq in Hid2. injection Hid2 as <-.
           rewrite Hm in Hy2. injection Hy2 as <-.
           apply Hno. apply reaches_through in Hr2 as [H|[H _]]; [|done].
           eapply reaches_trans; [exact H|]. eapply reaches_link; eauto.
      * intros x d y Hx Hy.
        apply lookup_insert_Some in Hx as [[<- <-]|[_ Hx]]; [|by eapply Hcan].
        rewrite Hm in Hy. by injection Hy as <-.
  - (* the employee has no manager after the update *)
    assert (forall x d y, <[id := doc']> db !! x = Some d -> docManager d = Some y ->
                          exists d0, db !! x = Some d0 /\ docManager d0 = Some y) as Hsub.
    { intros x d y Hx Hy. apply lookup_insert_Some in Hx as [[<- <-]|[_ Hx]]; [|eauto].
      congruence. }
    split_and!; [|by eapply acyclic_edges|by eapply canonical_edges].
    intros x d y Hx Hy. destruct (Hsub _ _ _ Hx Hy) as (d0 & Hx0 & Hy0).
    apply lookup_insert_is_Some'. right. eauto.
Qed.



(** ** Requests and the store *)

(** X3: a create, update or delete request that is not answered with a
    2xx status leaves the store exactly as it was. *)
Theorem failed_request_keeps_store (db : Store) (env : Env) (op : Ops.Operation) :
  succeeded (fst (Ops.run db env op)) = false ->
  snd (Ops.run db env op) = db.
Proof.
  destruct op as [user errors body|id user errors body|id]; cbn [Ops.run]; intros Hfail.
  - destruct (createEmployee_outcome db env user errors body)
      as [[_ H]|(id & e & saved & _ & _ & _ & _ & _ & Heq)]; [done|].
    rewrite Heq in Hfail. discriminate.
  - destruct (updateEmployee_outcome db env id user errors body)
      as [[_ H]|(k & doc & base & fields & _ & _ & _ & _ & _ & _ & _ & _ & _ & Heq)];
      [done|].
    rewrite Heq in Hfail. discriminate.
  - destruct (deleteEmployee_outcome db id)
      as [[_ H]|(k & e & _ & _ & _ & Hok & _)]; [done|].
    congruence.
Qed.

Lemma failed_request_keeps_store_witness :
  snd (Ops.run Sample.team (Sample.env 0)
         (Ops.Update Sample.idA Sample.admin1 [] (Sample.setManager Sample.idB)))
  = Sample.team.
Proof.
  apply (failed_request_keeps_store Sample.team (Sample.env 0)
           (Ops.Update Sample.idA Sample.admin1 [] (Sample.setManager Sample.idB))).
  vm_compute; reflexivity.
Defined.

(** X4: a request changes no employee other than the one it is addressed
    to, which is the one whose id is the cast of the id of the route:
    every other stored employee is in the store afterwards, with the same
    document (a create touches no stored employee). *)
Theorem other_employees_untouched (db : Store) (env : Env) (op : Ops.Operation)
    (id : string) (doc : value) :
  db !! id = Some doc ->
  Ops.addressed op <> Some id ->
  snd (Ops.run db env op) !! id = Some doc.
Proof.
  intros Hid Hother.
  destruct op as [user errors body|id' user errors body|id'];
    cbn [Ops.run Ops.addressed] in *.
  - destruct (createEmployee_outcome db env user errors body)
      as [[_ ->]|(nid & e & saved & _ & _ & Hfree & _ & _ & ->)]; [done|].
    cbn [snd]. rewrite lookup_insert_ne; [done|]. intros <-. congruence.
  - destruct (updateEmployee_outcome db env id' user errors body)
      as [[_ ->]|(k & d & base & fields & Hk & _ & _ & _ & _ & _ & _ & _ & _ & ->)];
      [done|].
    cbn [snd]. rewrite lookup_insert_ne; [done|]. congruence.
  - destruct (deleteEmployee_outcome db id')
      as [[_ ->]|(k & e & Hk & _ & _ & _ & ->)]; [done|].
    rewrite lookup_delete_ne; [done|]. congruence.
Qed.

Lemma other_employees_untouched_witness :
  snd (Ops.run Sample.team (Sample.env 0)
         (Ops.Update Sample.idB_upper Sample.admin1 []
            (VObj [("status", VStr "inactive")])))
    !! Sample.idA
  = Some (Sample.employee "EMP5000" "Ann" "ann@example.com" "active" None).
Proof.
  apply (other_employees_untouched Sample.team (Sample.env 0)
           (Ops.Update Sample.idB_upper Sample.admin1 []
              (VObj [("status", VStr "inactive")]))).
  - vm_compute; reflexivity.
  - vm_compute; discriminate.
Defined.

(** X5: a create or update request that carries field errors from the
    validator chains is never answered with a 2xx status and writes
    nothing. *)
Theorem field_errors_block_writes (db : Store) (env : Env) (id user : string)
    (errors : list Routes.FieldError) (body : value) :
  errors <> [] ->
  (succeeded (fst (Routes.createEmployee db env user errors body)) = false
   /\ snd (Routes.createEmployee db env user errors body) = db)
  /\ (succeeded (fst (Routes.updateEmployee db env id user errors body)) = false
      /\ snd (Routes.updateEmployee db env id user errors body) = db).
Proof.
  intros Herr. split.
  - destruct (createEmployee_outcome db env user errors body)
      as [H|(nid & e & saved & _ & _ & _ & _ & Hnil & _)]; [done|contradiction].
  - destruct (updateEmployee_outcome db env id user errors body)
      as [H|(k & doc & base & fields & _ & _ & _ & Hnil & _)]; [done|contradiction].
Qed.

Lemma field_errors_block_writes_witness :
  (succeeded (fst (Routes.createEmployee Sample.team (Sample.env 1234) Sample.admin1
                     [Routes.mkFieldError "jobInfo.title"
                        "Job title is required and cannot exceed 100 characters" None]
                     Sample.newHire)) = false
   /\ snd (Routes.createEmployee Sample.team (Sample.env 1234) Sample.admin1
             [Routes.mkFieldError "jobInfo.title"
                "Job title is required and cannot exceed 100 characters" None]
             Sample.newHire) = Sample.team)
  /\ (succeeded (fst (Routes.updateEmployee Sample.team (Sample.env 1234) Sample.idA
                        Sample.admin1
                        [Routes.mkFieldError "jobInfo.title"
                           "Job title is required and cannot exceed 100 characters" None]
                        Sample.newHire)) = false
      /\ snd (Routes.updateEmployee Sample.team (Sample.env 1234) Sample.idA Sample.admin1
                [Routes.mkFieldError "jobInfo.title"
                   "Job title is required and cannot exceed 100 characters" None]
                Sample.newHire) = Sample.team).
Proof.
  apply (field_errors_block_writes Sample.team (Sample.env 1234) Sample.idA Sample.admin1
           [Routes.mkFieldError "jobInfo.title"
              "Job title is required and cannot exceed 100 characters" None]
           Sample.newHire).
  discriminate.
Defined.

(** ** Reading what was written *)

(** Without an [_id] in the payload, the new document gets the id that
    the store issues. *)
Lemma construct_id (env : Env) (user : string) (body : value) (id : string)
    (doc : value) :
  getField "_id" body = None ->
  Db.construct env (employeeData env user body) = Ok (id, doc) ->
  id = envNewObjectId env.
Proof.
  intros Hid. unfold Db.construct, Db.castOwnId.
  assert (assoc "_id" (employeeData env user body) = None) as ->.
  { unfold employeeData, spreadWith. rewrite assoc_assign_absent by reflexivity.
    rewrite assoc_assign_absent; [reflexivity|].
    by rewrite (assoc_ownEntries_letter "_" "id" body). }
  destruct (Db.castData env (employeeData env user body)) as [fields|e]; [|discriminate].
  destruct (if plainKeys _ then _ else _) as [fields'|e]; [|discriminate].
  by intros [= <- _].
Qed.

Lemma getEmployee_found (db : Store) (env : Env) (id k : string) (doc : value) :
  ObjectId.cast id = Some k -> db !! k = Some doc ->
  Routes.getEmployee db env id
  = (Routes.success 200 "Employee retrieved successfully"
       (envRender env ReadEmployee db k doc), db).
Proof.
  intros Hk Hdoc. destruct (cast_Some _ _ Hk) as [Hhex _].
  unfold Routes.getEmployee, Db.findById.
  by rewrite (validateEmployeeId_hex _ Hhex), Hk, Hdoc.
Qed.

Lemma getEmployee_missing (db : Store) (env : Env) (id k : string) :
  ObjectId.cast id = Some k -> db !! k = None ->
  Routes.getEmployee db env id = (json1 404 "Employee not found", db).
Proof.
  intros Hk Hdoc. destruct (cast_Some _ _ Hk) as [Hhex _].
  unfold Routes.getEmployee, Db.findById.
  by rewrite (validateEmployeeId_hex _ Hhex), Hk, Hdoc.
Qed.

(** X6: when the payload has no [_id] and the id that the store issues is
    an ObjectId, a successful create has stored a document under that id,
    its answer carries what the create route renders of that document,
    and a read of that id on the store after the create answers 200 with
    what the read route renders of the same document (the two routes
    populate the references differently). *)
Theorem created_employee_is_found (db : Store) (env : Env) (user : string)
    (errors : list Routes.FieldError) (body : value) :
  ObjectId.cast (envNewObjectId env) = Some (envNewObjectId env) ->
  getField "_id" body = None ->
  succeeded (fst (Routes.createEmployee db env user errors body)) = true ->
  exists saved,
    snd (Routes.createEmployee db env user errors body) !! envNewObjectId env
    = Some saved
    /\ fst (Routes.createEmployee db env user errors body)
       = Routes.success 201 "Employee created successfully"
           (envRender env CreatedEmployee
              (snd (Routes.createEmployee db env user errors body))
              (envNewObjectId env) saved)
    /\ Routes.getEmployee (snd (Routes.createEmployee db env user errors body)) env
         (envNewObjectId env)
       = (Routes.success 200 "Employee retrieved successfully"
            (envRender env ReadEmployee
               (snd (Routes.createEmployee db env user errors body))
               (envNewObjectId env) saved),
          snd (Routes.createEmployee db env user errors body)).
Proof.
  intros Hcast Hid Hok.
  destruct (createEmployee_outcome db env user errors body)
    as [[H _]|(nid & e & saved & Hc & _ & _ & _ & _ & Heq)]; [congruence|].
  pose proof (construct_id env user body nid e Hid Hc) as ->.
  rewrite Heq. cbn [fst snd]. exists saved. split_and!; [apply lookup_insert_eq|done|].
  apply getEmployee_found; [done|apply lookup_insert_eq].
Qed.

Lemma created_employee_is_found_witness :
  exists saved,
    snd (Routes.createEmployee Sample.team (Sample.env 1234) Sample.admin1 []
           Sample.newHire) !! envNewObjectId (Sample.env 1234)
    = Some saved
    /\ fst (Routes.createEmployee Sample.team (Sample.env 1234) Sample.admin1 []
              Sample.newHire)
       = Routes.success 201 "Employee created successfully"
           (envRender (Sample.env 1234) CreatedEmployee
              (snd (Routes.createEmployee Sample.team (Sample.env 1234) Sample.admin1 []
                      Sample.newHire))
              (envNewObjectId (Sample.env 1234)) saved)
    /\ Routes.getEmployee
         (snd (Routes.createEmployee Sample.team (Sample.env 1234) Sample.admin1 []
                 Sample.newHire))
         (Sample.env 1234) (envNewObjectId (Sample.env 1234))
       = (Routes.success 200 "Employee retrieved successfully"
            (envRender (Sample.env 1234) ReadEmployee
               (snd (Routes.createEmployee Sample.team (Sample.env 1234) Sample.admin1 []
                       Sample.newHire))
               (envNewObjectId (Sample.env 1234)) saved),
          snd (Routes.createEmployee Sample.team (Sample.env 1234) Sample.admin1 []
                 Sample.newHire)).
Proof.
  apply (created_employee_is_found Sample.team (Sample.env 1234) Sample.admin1 []
           Sample.newHire).
  - vm_compute; reflexivity.
  - vm_compute; reflexivity.
  - vm_compute; reflexivity.
Defined.

(** X7: after a successful update the employee is stored under the cast
    of the id of the route, the answer of the update carries what the
    update route renders of the stored document, and a read with the same
    id answers 200 with what the read route renders of that document;
    after a successful delete a read with the same id answers 404. *)
Theorem read_after_update_and_delete (db : Store) (env : Env) (id user : string)
    (errors : list Routes.FieldError) (body : value) :
  (succeeded (fst (Routes.updateEmployee db env id user errors body)) = true ->
   exists k doc',
     ObjectId.cast id = Some k
     /\ snd (Routes.updateEmployee db env id user errors body) !! k = Some doc'
     /\ fst (Routes.updateEmployee db env id user errors body)
        = Routes.success 200 "Employee updated successfully"
            (envRender env UpdatedEmployee
               (snd (Routes.updateEmployee db env id user errors body)) k doc')
     /\ Routes.getEmployee (snd (Routes.updateEmployee db env id user errors body)) env id
        = (Routes.success 200 "Employee retrieved successfully"
             (envRender env ReadEmployee
                (snd (Routes.updateEmployee db env id user errors body)) k doc'),
           snd (Routes.updateEmployee db env id user errors body)))
  /\ (succeeded (fst (Routes.deleteEmployee db id)) = true ->
      Routes.getEmployee (snd (Routes.deleteEmployee db id)) env id
      = (json1 404 "Employee not found", snd (Routes.deleteEmployee db id))).
Proof.
  split; intros Hok.
  - destruct (updateEmployee_outcome db env id user errors body)
      as [[H _]|(k & doc & base & fields & Hk & _ & _ & _ & _ & _ & _ & _ & _ & Heq)];
      [congruence|].
    rewrite Heq. cbn [fst snd]. exists k, (Db.applySet base fields).
    split_and!; [done|apply lookup_insert_eq|done|].
    apply getEmployee_found; [done|apply lookup_insert_eq].
  - destruct (deleteEmployee_outcome db id)
      as [[H _]|(k & e & Hk & _ & _ & _ & Heq)]; [congruence|].
    rewrite Heq. apply getEmployee_missing with k; [done|apply lookup_delete_eq].
Qed.

Lemma read_after_update_and_delete_witness :
  (exists k doc',
     ObjectId.cast Sample.idB_upper = Some k
     /\ snd (Routes.updateEmployee Sample.team (Sample.env 0) Sample.idB_upper
               Sample.admin1 [] (VObj [("status", VStr "inactive")])) !! k = Some doc'
     /\ fst (Routes.updateEmployee Sample.team (Sample.env 0) Sample.idB_upper
               Sample.admin1 [] (VObj [("status", VStr "inactive")]))
        = Routes.success 200 "Employee updated successfully"
            (envRender (Sample.env 0) UpdatedEmployee
               (snd (Routes.updateEmployee Sample.team (Sample.env 0) Sample.idB_upper
                       Sample.admin1 [] (VObj [("status", VStr "inactive")]))) k doc')
     /\ Routes.getEmployee
          (snd (Routes.updateEmployee Sample.team (Sample.env 0) Sample.idB_upper
                  Sample.admin1 [] (VObj [("status", VStr "inactive")])))
          (Sample.env 0) Sample.idB_upper
        = (Routes.success 200 "Employee retrieved successfully"
             (envRender (Sample.env 0) ReadEmployee
                (snd (Routes.updateEmployee Sample.team (Sample.env 0) Sample.idB_upper
                        Sample.admin1 [] (VObj [("status", VStr "inactive")]))) k doc'),
           snd (Routes.updateEmployee Sample.team (Sample.env 0) Sample.idB_upper
                  Sample.admin1 [] (VObj [("status", VStr "inactive")]))))
  /\ Routes.getEmployee (snd (Routes.deleteEmployee Sample.team Sample.idB))
       (Sample.env 0) Sample.idB
     = (json1 404 "Employee not found", snd (Routes.deleteEmployee Sample.team Sample.idB)).
Proof.
  split.
  - apply (proj1 (read_after_update_and_delete Sample.team (Sample.env 0) Sample.idB_upper
                    Sample.admin1 [] (VObj [("status", VStr "inactive")]))).
    vm_compute; reflexivity.
  - apply (proj2 (read_after_update_and_delete Sample.team (Sample.env 0) Sample.idB
                    Sample.admin1 [] (VObj [("status", VStr "inactive")]))).
    vm_compute; reflexivity.
Defined.

(** ** Attribution of changes *)

(** The members that the route adds after the spread, cast. *)
Lemma castData_employeeData (env : Env) (user : string) (body : value)
    (fields : list (string * value)) :
  Db.castData env (employeeData env user body) = Ok fields ->
  assoc "createdBy" fields = Some (VId user)
  /\ assoc "updatedBy" fields = Some (VId user)
  /\ (truthy (getField "employeeId" body) = false ->
      assoc "employeeId" fields
      = Some (Employee.castEmployeeId
                (VStr (Routes.generateEmployeeId (envRandom env))))).
Proof.
  intros Hcast. unfold employeeData in Hcast.
  match type of Hcast with
  | Db.castData _ (spreadWith _ ?e) = _ =>
      assert (NoDup (map fst e)) as Hnd
          by (apply (bool_decide_unpack _); vm_compute; reflexivity)
  end.
  split_and!.
  - destruct (castData_added env body _ fields "createdBy"
                (Db.castLeaf env "createdBy" Employee.KRef) (VId user)
                ltac:(done) eq_refl Hnd eq_refl Hcast) as (v' & Hv & Hassoc).
    by injection Hv as <-.
  - destruct (castData_added env body _ fields "updatedBy"
                (Db.castLeaf env "updatedBy" Employee.KRef) (VId user)
                ltac:(done) eq_refl Hnd eq_refl Hcast) as (v' & Hv & Hassoc).
    by injection Hv as <-.
  - intros Hfalsy. rewrite Hfalsy in Hcast, Hnd.
    destruct (castData_added env body _ fields "employeeId"
                (Db.castLeaf env "employeeId" (Employee.KString true false true))
                (VStr (Routes.generateEmployeeId (envRandom env)))
                ltac:(done) eq_refl Hnd eq_refl Hcast) as (v' & Hv & Hassoc).
    by injection Hv as <-.
Qed.

(** The leaves at the top of the schema that have no default are in the
    document as the cast of the data has them. *)
Lemma construct_members (env : Env) (data fields : list (string * value))
    (id : string) (doc : value) (key : string) (v : value) :
  Db.construct env data = Ok (id, doc) ->
  Db.castData env data = Ok fields ->
  NoDup (map fst fields) ->
  In key ["employeeId"; "createdBy"; "updatedBy"] ->
  assoc key fields = Some v ->
  getField key doc = Some v.
Proof.
  intros Hc Hcast Hnd Hkey Hv. unfold Db.construct in Hc. rewrite Hcast in Hc.
  destruct (Db.castOwnId env data (envNewObjectId env)) as [own|e]; [|discriminate].
  destruct own; try discriminate.
  assert (forall fields' : list (string * value),
            assoc key fields' = Some v ->
            getField key
              (VObj (Db.inMember "personalInfo"
                       (Db.inMember "address"
                          (Db.withDefault "country" (VStr "United States")))
                       (Db.inMember "jobInfo"
                          (Db.withDefault "employmentType" (VStr "full-time"))
                          (Db.withDefault "updatedAt" (VDate (envNow env))
                             (Db.withDefault "createdAt" (VDate (envNow env))
                                (Db.withDefault "status" (VStr "active") fields'))))))
            = Some v) as Hdefaults.
  { intros fields' H. cbn [getField].
    assert (key <> "personalInfo" /\ key <> "jobInfo" /\ key <> "updatedAt"
            /\ key <> "createdAt" /\ key <> "status") as (N1 & N2 & N3 & N4 & N5).
    { simpl in Hkey. destruct Hkey as [<-|[<-|[<-|[]]]]; by split_and!. }
    by rewrite !assoc_inMember_ne, !assoc_withDefault_ne by done. }
  destruct (plainKeys data).
  - injection Hc as <- <-. by apply Hdefaults.
  - destruct (envPaths env (VObj []) data) as [nested|e]; [|discriminate].
    injection Hc as <- <-. apply Hdefaults.
    rewrite assoc_assign.
    + rewrite assoc_filter_keys.
      assert (Db.topLeaf key = true) as ->
          by (simpl in Hkey; destruct Hkey as [<-|[<-|[<-|[]]]]; reflexivity).
      by rewrite Hv.
    + eapply sublist_NoDup; [exact Hnd|]. apply filter_keys_sublist.
Qed.

Lemma validEmployeeId_truthy (o : option value) :
  Employee.validEmployeeId o = true -> truthy o = true.
Proof.
  destruct o as [[| | |s| | | |]|]; try discriminate. simpl.
  by intros [H _]%andb_true_iff.
Qed.

(** The hooks of [save] on a document with a valid [employeeId]. *)
Lemma preSave_members (db : Store) (now : Z) (doc : value) (k : string) :
  Employee.validEmployeeId (Employee.docEmployeeId doc) = true ->
  getField k (Employee.preSaveEmployeeId db (Employee.preSaveUpdatedAt now doc))
  = if String.eqb k "updatedAt" then Some (VDate now) else getField k doc.
Proof.
  intros Hvalid. apply validEmployeeId_truthy in Hvalid.
  assert (forall k', getField k' (Employee.preSaveUpdatedAt now doc)
                     = if String.eqb k' "updatedAt" then Some (VDate now)
                       else getField k' doc) as Hupd.
  { intros k'. unfold Employee.preSaveUpdatedAt. cbn [getField].
    destruct (String.eqb_spec k' "updatedAt") as [->|Hne].
    - apply assoc_setField_eq.
    - rewrite assoc_setField_ne by congruence. by rewrite getField_members. }
  rewrite preSaveEmployeeId_set; [apply Hupd|].
  unfold Employee.docEmployeeId in *. by rewrite Hupd.
Qed.

(** The pattern of the schema: [EMP] and four digits. *)
Lemma validEmployeeId_shape (v : value) :
  Employee.validEmployeeId (Some v) = true ->
  exists d1 d2 d3 d4,
    v = VStr (String "E" (String "M" (String "P"
              (String d1 (String d2 (String d3 (String d4 EmptyString)))))))
    /\ Chars.isDigit d1 = true /\ Chars.isDigit d2 = true
    /\ Chars.isDigit d3 = true /\ Chars.isDigit d4 = true.
Proof.
  destruct v as [| | |s| | | |]; try discriminate. simpl.
  intros [_ H]%andb_true_iff. revert H.
  unfold Regex.fullMatch, Employee.employeeIdPattern, Employee.digit.
  destruct s as [|c1 [|c2 [|c3 [|d1 [|d2 [|d3 [|d4 [|c8 s]]]]]]]];
    cbn -[Ascii.eqb Chars.isDigit];
    repeat match goal with
           | |- context [Ascii.eqb ?a ?b] =>
               destruct (Ascii.eqb_spec a b); subst; cbn -[Ascii.eqb Chars.isDigit]
           | |- context [Chars.isDigit ?c] =>
               destruct (Chars.isDigit c) eqn:?; cbn -[Ascii.eqb Chars.isDigit]
           end; try (intros; discriminate).
  intros _. by exists d1, d2, d3, d4.
Qed.

(** X8: every successful create stores, under a free id, a document whose
    [createdBy] and [updatedBy] are the acting admin, whatever the payload
    has for them, whose [updatedAt] is the time of the request, and whose
    [employeeId] is [EMP] followed by four digits. *)
Theorem create_attribution (db : Store) (env : Env) (user : string)
    (errors : list Routes.FieldError) (body : value) :
  succeeded (fst (Routes.createEmployee db env user errors body)) = true ->
  exists id saved d1 d2 d3 d4,
    db !! id = None
    /\ snd (Routes.createEmployee db env user errors body) = <[id := saved]> db
    /\ getField "createdBy" saved = Some (VId user)
    /\ getField "updatedBy" saved = Some (VId user)
    /\ getField "updatedAt" saved = Some (VDate (envNow env))
    /\ getField "employeeId" saved
       = Some (VStr (String "E" (String "M" (String "P"
                 (String d1 (String d2 (String d3 (String d4 EmptyString))))))))
    /\ forallb Chars.isDigit [d1; d2; d3; d4] = true.
Proof.
  intros Hok.
  destruct (createEmployee_outcome db env user errors body)
    as [[H _]|(id & e & saved & Hc & Hsave & Hfree & _ & _ & Heq)]; [congruence|].
  destruct (save_Ok_valid _ _ _ _ _ _ Hsave) as (Hvalid & _).
  apply save_Ok in Hsave as (_ & Hsaved & _).
  assert (exists fields, Db.castData env (employeeData env user body) = Ok fields)
    as [fields Hcast].
  { unfold Db.construct in Hc.
    destruct (Db.castData env (employeeData env user body)) as [fields|e0]; [eauto|].
    destruct (Db.castOwnId _ _ _) as [[]|]; discriminate. }
  pose proof (castData_NoDup env body _ fields Hcast) as Hnd.
  destruct (castData_employeeData env user body fields Hcast) as (Dcb & Dub & _).
  pose proof (construct_members env _ fields id e "createdBy" _ Hc Hcast Hnd
                ltac:(simpl; auto) Dcb) as Hcb.
  pose proof (construct_members env _ fields id e "updatedBy" _ Hc Hcast Hnd
                ltac:(simpl; auto) Dub) as Hub.
  pose proof Hvalid as Hvalid'. unfold Employee.docEmployeeId in Hvalid.
  destruct (getField "employeeId" e) as [v|] eqn:Hv; [|discriminate].
  destruct (validEmployeeId_shape v Hvalid) as (d1 & d2 & d3 & d4 & -> & H1 & H2 & H3 & H4).
  exists id, saved, d1, d2, d3, d4. rewrite Heq. cbn [snd].
  rewrite Hsaved, !preSave_members by done. cbn [String.eqb Ascii.eqb Bool.eqb].
  split_and!; try done.
  simpl. by rewrite H1, H2, H3, H4.
Qed.

Lemma create_attribution_witness :
  exists id saved d1 d2 d3 d4,
    Sample.team !! id = None
    /\ snd (Routes.createEmployee Sample.team (Sample.env 1234) Sample.admin1 []
              Sample.newHire) = <[id := saved]> Sample.team
    /\ getField "createdBy" saved = Some (VId Sample.admin1)
    /\ getField "updatedBy" saved = Some (VId Sample.admin1)
    /\ getField "updatedAt" saved = Some (VDate (envNow (Sample.env 1234)))
    /\ getField "employeeId" saved
       = Some (VStr (String "E" (String "M" (String "P"
                 (String d1 (String d2 (String d3 (String d4 EmptyString))))))))
    /\ forallb Chars.isDigit [d1; d2; d3; d4] = true.
Proof.
  apply (create_attribution Sample.team (Sample.env 1234) Sample.admin1 [] Sample.newHire).
  vm_compute; reflexivity.
Defined.

(** X9: every successful update stores the acting admin as [updatedBy] of
    the employee, which is stored under the cast of the id of the route,
    whatever the payload has for [updatedBy]. *)
Theorem update_attribution (db : Store) (env : Env) (id user : string)
    (errors : list Routes.FieldError) (body : value) :
  succeeded (fst (Routes.updateEmployee db env id user errors body)) = true ->
  exists k doc',
    ObjectId.cast id = Some k
    /\ snd (Routes.updateEmployee db env id user errors body) !! k = Some doc'
    /\ getField "updatedBy" doc' = Some (VId user).
Proof.
  intros Hok.
  destruct (updateEmployee_outcome db env id user errors body)
    as [[H _]|(k & doc & base & fields & Hk & _ & _ & _ & Hcast & _ & _ & _ & _ & Heq)];
    [congruence|].
  rewrite Heq. cbn [snd]. exists k, (Db.applySet base fields).
  split_and!; [done|apply lookup_insert_eq|].
  rewrite getField_applySet by (by eapply castData_NoDup).
  by rewrite (castData_updatedBy env user body fields Hcast).
Qed.

Lemma update_attribution_witness :
  exists k doc',
    ObjectId.cast Sample.idB_upper = Some k
    /\ snd (Routes.updateEmployee Sample.team (Sample.env 0) Sample.idB_upper
              Sample.admin1 []
              (VObj [("status", VStr "inactive"); ("updatedBy", VStr "someone")]))
         !! k = Some doc'
    /\ getField "updatedBy" doc' = Some (VId Sample.admin1).
Proof.
  apply (update_attribution Sample.team (Sample.env 0) Sample.idB_upper Sample.admin1 []
           (VObj [("status", VStr "inactive"); ("updatedBy", VStr "someone")])).
  vm_compute; reflexivity.
Defined.

(** ** Generated identifiers *)

Lemma generated_id_checked :
  forallb (fun k =>
             Bool.eqb
               (Employee.validEmployeeId
                  (Some (Employee.castEmployeeId
                           (VStr (Routes.generateEmployeeId (N.of_nat k))))))
               (1000 <=? N.of_nat k)%N)
          (seq 0 (N.to_nat 10000)) = true.
Proof. vm_compute. reflexivity. Qed.

(** X11: of the identifiers that [generateEmployeeId] can return, those
    of the draws from 1000 to 9999 pass the setters and the pattern of
    the schema, and those of the draws below 1000 do not. *)
Theorem generateEmployeeId_valid (random : N) :
  (random < 10000)%N ->
  Employee.validEmployeeId
    (Some (Employee.castEmployeeId (VStr (Routes.generateEmployeeId random))))
  = (1000 <=? random)%N.
Proof.
  intros Hlt. pose proof generated_id_checked as H.
  rewrite forallb_forall in H. specialize (H (N.to_nat random)).
  rewrite N2Nat.id in H. apply Bool.eqb_prop, H, in_seq. lia.
Qed.

Lemma generateEmployeeId_valid_witness :
  Employee.validEmployeeId
    (Some (Employee.castEmployeeId (VStr (Routes.generateEmployeeId 999))))
  = (1000 <=? 999)%N.
Proof. apply (generateEmployeeId_valid 999). reflexivity. Defined.

Lemma generateEmployeeId_short (random : N) :
  (random < 1000)%N ->
  Employee.validEmployeeId
    (Some (Employee.castEmployeeId (VStr (Routes.generateEmployeeId random))))
  = false.
Proof.
  intros Hlt. pose proof generated_id_checked as H.
  rewrite forallb_forall in H. specialize (H (N.to_nat random)).
  rewrite N2Nat.id in H. rewrite (Bool.eqb_prop _ _ (H ltac:(apply in_seq; lia))).
  apply N.leb_gt. lia.
Qed.

(** X12: a create request without [employeeId] whose random draw is below
    1000 is never answered with a 2xx status and stores nothing. *)
Theorem create_fails_on_short_draw (db : Store) (env : Env) (user : string)
    (errors : list Routes.FieldError) (body : value) :
  truthy (getField "employeeId" body) = false ->
  (envRandom env < 1000)%N ->
  succeeded (fst (Routes.createEmployee db env user errors body)) = false
  /\ snd (Routes.createEmployee db env user errors body) = db.
Proof.
  intros Hnone Hdraw.
  destruct (createEmployee_outcome db env user errors body)
    as [H|(id & e & saved & Hc & Hsave & _)]; [done|].
  destruct (save_Ok_valid _ _ _ _ _ _ Hsave) as (Hvalid & _).
  assert (exists fields, Db.castData env (employeeData env user body) = Ok fields)
    as [fields Hcast].
  { unfold Db.construct in Hc.
    destruct (Db.castData env (employeeData env user body)) as [fields|e0]; [eauto|].
    destruct (Db.castOwnId _ _ _) as [[]|]; discriminate. }
  pose proof (castData_NoDup env body _ fields Hcast) as Hnd.
  destruct (castData_employeeData env user body fields Hcast) as (_ & _ & Did).
  pose proof (construct_members env _ fields id e "employeeId" _ Hc Hcast Hnd
                ltac:(simpl; auto) (Did Hnone)) as Hid.
  unfold Employee.docEmployeeId in Hvalid. rewrite Hid in Hvalid.
  rewrite generateEmployeeId_short in Hvalid; [discriminate|done].
Qed.

Lemma create_fails_on_short_draw_witness :
  succeeded (fst (Routes.createEmployee Sample.team (Sample.env 42) Sample.admin1 []
                    Sample.newHire)) = false
  /\ snd (Routes.createEmployee Sample.team (Sample.env 42) Sample.admin1 []
            Sample.newHire) = Sample.team.
Proof.
  apply (create_fails_on_short_draw Sample.team (Sample.env 42) Sample.admin1 []
           Sample.newHire).
  - vm_compute; reflexivity.
  - vm_compute; reflexivity.
Defined.

(** ** Sanitization: what it keeps *)

(** Induction on values, with the hypothesis for every item of an array
    and every member of an object. *)
Section ValueInduction.
Context (P : value -> Prop).
Context (Hnull : P VNull) (Hbool : forall b, P (VBool b)) (Hnum : forall z, P (VNum z))
        (Hstr : forall s, P (VStr s)) (Hdate : forall ms, P (VDate ms))
        (Harr : forall items, Forall P items -> P (VArr items))
        (Hobj : forall fields, Forall (fun kv => P (snd kv)) fields -> P (VObj fields))
        (Hid : forall id, P (VId id)).

Fixpoint value_nested_ind (v : value) : P v :=
  match v with
  | VNull => Hnull
  | VBool b => Hbool b
  | VNum z => Hnum z
  | VStr s => Hstr s
  | VDate ms => Hdate ms
  | VId id => Hid id
  | VArr items =>
      Harr items
        ((fix go (l : list value) : Forall P l :=
            match l with
            | [] => Forall_nil_2 P
            | x :: l' => Forall_cons_2 P x l' (value_nested_ind x) (go l')
            end) items)
  | VObj fields =>
      Hobj fields
        ((fix go (l : list (string * value)) : Forall (fun kv => P (snd kv)) l :=
            match l with
            | [] => Forall_nil_2 _
            | x :: l' => Forall_cons_2 _ x l' (value_nested_ind (snd x)) (go l')
            end) fields)
  end.

End ValueInduction.

(** X13: the sanitization changes nothing but the text of string leaves:
    the nesting of the payload, its keys in their order and every leaf
    that is no string are as they were. *)
Theorem sanitizeInput_keeps_shape (body : value) :
  shape (Sanitize.sanitizeInput body) = shape body.
Proof.
  assert (forall v, shape (Sanitize.sanitizeMember v) = shape v) as Hmember.
  { induction v as [| | | | |items IH|fields IH|] using value_nested_ind;
      simpl; try reflexivity; f_equal.
    - induction IH as [|x l Hx _ IHl]; simpl; [done|]. by rewrite Hx, IHl.
    - induction IH as [|x l Hx _ IHl]; simpl; [done|]. by rewrite Hx, IHl. }
  destruct body; try reflexivity; apply Hmember.
Qed.

(** ** Sanitization of text without markup characters *)

Section Matcher.
Import Regex.

Lemma rmatch_Cat (r1 r2 : regex) (prev : option ascii) (s : list ascii)
    (k : option ascii -> list ascii -> option pos) :
  rmatch (Cat r1 r2) prev s k
  = rmatch r1 prev s (fun prev' s' => rmatch r2 prev' s' k).
Proof. reflexivity. Qed.

(** A match hands a suffix of the input to its continuation. *)
Lemma rmatch_suffix (r : regex) :
  forall (prev : option ascii) (s : list ascii)
         (k : option ascii -> list ascii -> option pos) (out : pos),
    rmatch r prev s k = Some out ->
    exists prev' s', s' `suffix_of` s /\ k prev' s' = Some out.
Proof.
  induction r as [|p|r1 IH1 r2 IH2|r IH|r IH|]; intros prev s k out; simpl.
  - intros H. exists prev, s. done.
  - destruct s as [|c s']; [discriminate|]. destruct (p c); [|discriminate].
    intros H. exists (Some c), s'. split; [by apply suffix_cons_r|done].
  - intros H. apply IH1 in H as (p1 & s1 & Hs1 & H).
    apply IH2 in H as (p2 & s2 & Hs2 & H).
    exists p2, s2. split; [by etrans|done].
  - generalize (List.length s). intros n. revert prev s.
    induction n as [|n IHn]; intros prev s H.
    + exists prev, s. done.
    + match type of H with
      | match ?m with _ => _ end = _ => destruct m as [o|] eqn:E
      end.
      * injection H as ->. apply IH in E as (p1 & s1 & Hs1 & E).
        destruct (List.length s1 <? List.length s)%nat; [|discriminate].
        apply IHn in E as (p2 & s2 & Hs2 & E).
        exists p2, s2. split; [by etrans|done].
      * exists prev, s. done.
  - destruct (rmatch r prev s _); [discriminate|]. intros H. exists prev, s. done.
  - destruct (xorb _ _); [|discriminate]. intros H. exists prev, s. done.
Qed.

(** Under the [i] flag, a character that is no letter matches only
    itself. *)
Lemma eqCI_markup (c x : ascii) :
  markupChar c = true -> Chars.eqCI c x = true -> x = c.
Proof.
  unfold markupChar. rewrite !orb_true_iff. intros [[H|H]|H];
    apply Ascii.eqb_eq in H; subst c;
    destruct x as [[] [] [] [] [] [] [] []]; vm_compute; intros; congruence.
Qed.

(** A match of a literal that has the markup character [c] reads [c]. *)
Lemma LitCI_reads (c : ascii) (lit : string) :
  markupChar c = true -> In c (list_ascii_of_string lit) ->
  forall prev s k out, rmatch (LitCI lit) prev s k = Some out -> In c s.
Proof.
  intros Hc. induction lit as [|c0 lit IH]; simpl; [done|].
  intros Hin prev s k out H. destruct s as [|x s']; [discriminate|].
  destruct (Chars.eqCI c0 x) eqn:E; [|discriminate].
  destruct Hin as [->|Hin].
  - left. by apply eqCI_markup.
  - right. by eapply IH.
Qed.

Lemma scriptTag_reads (prev : option ascii) (s : list ascii) (out : pos) :
  matchHere Sanitize.scriptTag prev s = Some out -> In "<"%char s.
Proof.
  unfold matchHere, Sanitize.scriptTag. rewrite rmatch_Cat.
  apply LitCI_reads; [reflexivity|]. simpl. auto.
Qed.

Lemma javascriptScheme_reads (prev : option ascii) (s : list ascii) (out : pos) :
  matchHere Sanitize.javascriptScheme prev s = Some out -> In ":"%char s.
Proof.
  unfold matchHere, Sanitize.javascriptScheme.
  apply LitCI_reads; [reflexivity|]. simpl. tauto.
Qed.

Lemma eventHandler_reads (prev : option ascii) (s : list ascii) (out : pos) :
  matchHere Sanitize.eventHandler prev s = Some out -> In "="%char s.
Proof.
  unfold matchHere, Sanitize.eventHandler. rewrite rmatch_Cat. intros H.
  apply rmatch_suffix in H as (p1 & s1 & [l1 ->] & H). rewrite rmatch_Cat in H.
  apply rmatch_suffix in H as (p2 & s2 & [l2 ->] & H). rewrite rmatch_Cat in H.
  apply rmatch_suffix in H as (p3 & s3 & [l3 ->] & H). cbn -[Ascii.eqb] in H.
  destruct s3 as [|c s4]; [discriminate|].
  destruct (Ascii.eqb_spec "=" c) as [<-|]; [|discriminate].
  rewrite !in_app_iff. simpl. tauto.
Qed.

(** Where a pattern matches nowhere, the removal of its matches returns
    the input. *)
Lemma removeAll_none (r : regex) (c : ascii) :
  (forall prev s out, matchHere r prev s = Some out -> In c s) ->
  forall (fuel : nat) (prev : option ascii) (s : list ascii),
    ~ In c s -> removeAll r fuel prev s = s.
Proof.
  intros Hreads. induction fuel as [|fuel IH]; intros prev s Hc; simpl; [done|].
  destruct (matchHere r prev s) as [[p' s']|] eqn:E.
  { exfalso. eauto. }
  destruct s as [|x s']; [done|]. rewrite IH; [done|]. simpl in Hc. tauto.
Qed.

End Matcher.

Lemma not_markup (c : ascii) (l : list ascii) :
  forallb (fun x => negb (markupChar x)) l = true ->
  markupChar c = true -> ~ In c l.
Proof.
  intros Hall Hc Hin. rewrite forallb_forall in Hall. apply Hall in Hin.
  by rewrite Hc in Hin.
Qed.

(** Text without [<], [:] and [=] is only trimmed. *)
Lemma sanitizeString_plain (s : string) :
  forallb (fun c => negb (markupChar c)) (list_ascii_of_string s) = true ->
  Sanitize.sanitizeString s = trim s.
Proof.
  intros Hplain. unfold Sanitize.sanitizeString, Regex.replaceAllEmpty.
  rewrite (removeAll_none Sanitize.scriptTag "<" scriptTag_reads)
    by (by apply not_markup).
  rewrite string_of_list_ascii_of_string.
  rewrite (removeAll_none Sanitize.javascriptScheme ":" javascriptScheme_reads)
    by (by apply not_markup).
  rewrite string_of_list_ascii_of_string.
  rewrite (removeAll_none Sanitize.eventHandler "=" eventHandler_reads)
    by (by apply not_markup).
  by rewrite string_of_list_ascii_of_string.
Qed.

(** [trim] *)
Lemma dropSpaces_suffix (l : list ascii) : dropSpaces l `suffix_of` l.
Proof.
  induction l as [|c l IH]; simpl; [done|].
  destruct (Chars.isSpace c); [by apply suffix_cons_r|done].
Qed.

Lemma dropSpaces_head (l : list ascii) (c : ascii) (l' : list ascii) :
  dropSpaces l = c :: l' -> Chars.isSpace c = false.
Proof.
  induction l as [|x l IH]; simpl; [discriminate|].
  destruct (Chars.isSpace x) eqn:E; [done|]. by intros [= <- _].
Qed.

Lemma dropSpaces_id (c : ascii) (l : list ascii) :
  Chars.isSpace c = false -> dropSpaces (c :: l) = c :: l.
Proof. simpl. by intros ->. Qed.

Lemma dropSpaces_snoc (l : list ascii) (c : ascii) :
  Chars.isSpace c = false -> dropSpaces (l ++ [c])%list = (dropSpaces l ++ [c])%list.
Proof.
  intros Hc. induction l as [|x l IH]; simpl; [by rewrite Hc|].
  destruct (Chars.isSpace x); [done|reflexivity].
Qed.

Lemma dropSpaces_idempotent (l : list ascii) : dropSpaces (dropSpaces l) = dropSpaces l.
Proof.
  destruct (dropSpaces l) as [|c t] eqn:E; [reflexivity|].
  apply dropSpaces_id. by eapply dropSpaces_head.
Qed.

Lemma trimmed_head (l : list ascii) : dropSpaces (trimmed l) = trimmed l.
Proof.
  unfold trimmed. destruct (dropSpaces l) as [|c t] eqn:E; [reflexivity|].
  pose proof (dropSpaces_head _ _ _ E) as Hc. cbn [rev].
  rewrite dropSpaces_snoc by done. rewrite rev_app_distr. cbn [rev app].
  by apply dropSpaces_id.
Qed.

Lemma trimmed_idempotent (l : list ascii) : trimmed (trimmed l) = trimmed l.
Proof.
  unfold trimmed at 1. rewrite trimmed_head. unfold trimmed.
  by rewrite rev_involutive, dropSpaces_idempotent.
Qed.

Lemma trim_idempotent (s : string) : trim (trim s) = trim s.
Proof.
  unfold trim. rewrite list_ascii_of_string_of_list_ascii.
  fold (trimmed (list_ascii_of_string s)).
  fold (trimmed (trimmed (list_ascii_of_string s))). by rewrite trimmed_idempotent.
Qed.

Lemma trimmed_In (l : list ascii) (c : ascii) : In c (trimmed l) -> In c l.
Proof.
  unfold trimmed. rewrite <- in_rev. intros H.
  destruct (dropSpaces_suffix (rev (dropSpaces l))) as [k1 Hk1].
  assert (In c (rev (dropSpaces l))) as H' by (rewrite Hk1, in_app_iff; tauto).
  rewrite <- in_rev in H'. destruct (dropSpaces_suffix l) as [k2 ->].
  rewrite in_app_iff. tauto.
Qed.

Lemma trim_plain (s : string) :
  forallb (fun c => negb (markupChar c)) (list_ascii_of_string s) = true ->
  forallb (fun c => negb (markupChar c)) (list_ascii_of_string (trim s)) = true.
Proof.
  rewrite !forallb_forall. intros H c Hin. apply H. unfold trim in Hin.
  rewrite list_ascii_of_string_of_list_ascii in Hin. by apply trimmed_In.
Qed.

(** X14: on a payload none of whose strings has a [<], a [:] or an [=],
    the sanitization only trims the strings, and sanitizing its result
    again changes nothing. *)
Theorem sanitizeInput_plain_idempotent (body : value) :
  plainText body = true ->
  Sanitize.sanitizeInput (Sanitize.sanitizeInput body) = Sanitize.sanitizeInput body.
Proof.
  assert (forall v, plainText v = true ->
                    Sanitize.sanitizeMember (Sanitize.sanitizeMember v)
                    = Sanitize.sanitizeMember v) as Hmember.
  { induction v as [| | |s| |items IH|fields IH|] using value_nested_ind;
      simpl; try reflexivity; intros Hplain.
    - rewrite (sanitizeString_plain s Hplain).
      by rewrite (sanitizeString_plain _ (trim_plain s Hplain)), trim_idempotent.
    - f_equal. induction IH as [|x l Hx _ IHl]; simpl in *; [done|].
      apply andb_true_iff in Hplain as [H1 H2]. by rewrite Hx, IHl.
    - f_equal. induction IH as [|[k x] l Hx _ IHl]; simpl in *; [done|].
      apply andb_true_iff in Hplain as [H1 H2]. by rewrite Hx, IHl. }
  intros Hplain. destruct body; try reflexivity; by apply Hmember.
Qed.

Lemma sanitizeInput_plain_idempotent_witness :
  Sanitize.sanitizeInput (Sanitize.sanitizeInput Sample.newHire)
  = Sanitize.sanitizeInput Sample.newHire.
Proof.
  apply (sanitizeInput_plain_idempotent Sample.newHire). vm_compute; reflexivity.
Defined.

(** ** Sanitization and ids *)

Lemma isHex_plain (c : ascii) :
  Chars.isHex c = true -> markupChar c = false /\ Chars.isSpace c = false.
Proof.
  destruct c as [[] [] [] [] [] [] [] []]; vm_compute; intros; (discriminate || done).
Qed.

Lemma trimmed_no_space (l : list ascii) :
  forallb (fun c => negb (Chars.isSpace c)) l = true -> trimmed l = l.
Proof.
  intros Hall. rewrite forallb_forall in Hall.
  assert (forall l', (forall c, In c l' -> In c l) -> dropSpaces l' = l') as Hdrop.
  { intros [|c l'] Hsub; [done|]. apply dropSpaces_id.
    specialize (Hall c (Hsub c (or_introl eq_refl))). by destruct (Chars.isSpace c). }
  unfold trimmed. rewrite (Hdrop l) by auto.
  rewrite (Hdrop (rev l)) by (intros c; by rewrite <- in_rev).
  apply rev_involutive.
Qed.

(** A string of hexadecimal digits goes through the sanitization as it
    is. *)
Lemma sanitizeString_hex (s : string) :
  forallb Chars.isHex (list_ascii_of_string s) = true ->
  Sanitize.sanitizeString s = s.
Proof.
  intros Hhex. rewrite forallb_forall in Hhex.
  rewrite sanitizeString_plain.
  - unfold trim. fold (trimmed (list_ascii_of_string s)).
    rewrite trimmed_no_space; [apply string_of_list_ascii_of_string|].
    apply forallb_forall. intros c Hc.
    by destruct (isHex_plain c (Hhex c Hc)) as [_ ->].
  - apply forallb_forall. intros c Hc.
    by destruct (isHex_plain c (Hhex c Hc)) as [-> _].
Qed.

Lemma getField_sanitized (k : string) (v : value) :
  getField k (Sanitize.sanitizeMember v) = Sanitize.sanitizeMember <$> getField k v.
Proof.
  destruct v as [| | | | | |fields|]; try reflexivity. simpl.
  induction fields as [|[k' v] fields IH]; simpl; [done|].
  by destruct (String.eqb k k').
Qed.

(** X15: a candidate manager id of the shape of an ObjectId reaches the
    manager validation as the client sent it: the sanitization that runs
    first does not change it. *)
Theorem sanitizeInput_keeps_manager (body : value) (m : string) :
  isHexString24 m = true ->
  bodyManager body = Some (VStr m) ->
  bodyManager (Sanitize.sanitizeInput body) = Some (VStr m).
Proof.
  intros Hhex Hbody.
  assert (Sanitize.sanitizeString m = m) as Hm.
  { apply sanitizeString_hex. unfold isHexString24 in Hhex.
    by apply andb_true_iff in Hhex as [_ ?]. }
  pose proof (hex24_not_empty m Hhex) as Hne.
  unfold bodyManager in *.
  destruct body as [| | | | | |fields|]; try discriminate.
  change (Sanitize.sanitizeInput (VObj fields)) with (Sanitize.sanitizeMember (VObj fields)).
  rewrite getField_sanitized.
  destruct (getField "jobInfo" (VObj fields)) as [j|]; [|discriminate].
  cbn [fmap option_fmap option_map].
  destruct j as [| | | | | |jf|];
    try (destruct (truthy _); [|discriminate]; simpl in Hbody; discriminate).
  rewrite getField_sanitized.
  destruct (getField "manager" (VObj jf)) as [mv|]; [|discriminate].
  cbn [fmap option_fmap option_map].
  change (truthy (Some (VObj jf))) with true in Hbody. cbn iota in Hbody.
  destruct (truthy (Some mv)); [|discriminate]. injection Hbody as ->.
  change (Sanitize.sanitizeMember (VStr m)) with (VStr (Sanitize.sanitizeString m)).
  rewrite Hm. simpl truthy. by rewrite Hne.
Qed.

Lemma sanitizeInput_keeps_manager_witness :
  bodyManager (Sanitize.sanitizeInput (Sample.setManager Sample.idB))
  = Some (VStr Sample.idB).
Proof.
  apply (sanitizeInput_keeps_manager (Sample.setManager Sample.idB) Sample.idB).
  - vm_compute; reflexivity.
  - vm_compute; reflexivity.
Defined.

(** ** Access control *)

Lemma getEmployee_store (db : Store) (env : Env) (id : string) :
  snd (Routes.getEmployee db env id) = db.
Proof. unfold Routes.getEmployee. by repeat case_match. Qed.

(** A request that the router serves changes the store only when it is
    answered with a 2xx status. *)
Lemma serve_outcome (db : Store) (env : Env) (req : Routes.Request)
    (r : Response) (db' : Store) :
  Routes.serve db env req = Some (r, db') ->
  db' = db \/ succeeded r = true.
Proof.
  unfold Routes.serve, Routes.bodyFor.
  destruct (Routes.dispatch _ _ _) as [[[] params]|]; try discriminate;
    [intros [= Heq]..|intros [= _ <-]; by left].
  - left. pose proof (getEmployee_store db env (Routes.param "id" params)) as H.
    by rewrite Heq in H.
  - destruct (createEmployee_outcome db env (Routes.reqUser req) (Routes.reqErrors req)
                (envCreateChain env (Sanitize.sanitizeInput (Routes.reqBody req))))
      as [[_ H]|(id & e & saved & _ & _ & _ & _ & _ & H)]; rewrite Heq in H.
    + by left.
    + right. by injection H as -> _.
  - destruct (updateEmployee_outcome db env (Routes.param "id" params)
                (Routes.reqUser req) (Routes.reqErrors req)
                (envUpdateChain env (Sanitize.sanitizeInput (Routes.reqBody req))))
      as [[_ H]|(k & doc & base & fields & _ & _ & _ & _ & _ & _ & _ & _ & _ & H)];
      rewrite Heq in H.
    + by left.
    + right. by injection H as -> _.
  - destruct (deleteEmployee_outcome db (Routes.param "id" params))
      as [[_ H]|(k & e & _ & _ & _ & H & _)]; rewrite Heq in H; [by left|by right].
Qed.

(** X16: the admin router answers with a 2xx status or changes the store
    only for a caller whose session names a stored user with the role
    [admin], and only within the rate limit; every other caller gets the
    store back as it was. *)
Theorem admin_router_admits_admins_only (users : Access.Users)
    (session : option string) (limited : bool) (db : Store) (env : Env)
    (req : Routes.Request) (r : Response) (db' : Store) :
  Access.adminRouter users session limited db env req = Some (r, db') ->
  succeeded r = true \/ db' <> db ->
  limited = false
  /\ exists userId user,
       session = Some userId /\ userId <> ""
       /\ users !! userId = Some user
       /\ getField "role" user = Some (VStr "admin").
Proof.
  unfold Access.adminRouter, Access.requireAdmin.
  destruct limited.
  { intros [= <- <-] [H|H]; [discriminate|done]. }
  destruct session as [userId|].
  2:{ intros [= <- <-] [H|H]; [discriminate|done]. }
  destruct (String.eqb_spec userId "") as [->|Hne].
  { intros [= <- <-] [H|H]; [discriminate|done]. }
  destruct (users !! userId) as [user|] eqn:Hu.
  2:{ intros [= <- <-] [H|H]; [discriminate|done]. }
  destruct (Access.roleIs "admin" user) eqn:Hrole; cbn [negb].
  2:{ intros [= <- <-] [H|H]; [discriminate|done]. }
  intros _ _. split; [done|]. exists userId, user. split_and!; try done.
  unfold Access.roleIs in Hrole.
  destruct (getField "role" user) as [[| | |role| | | |]|]; try discriminate.
  by apply String.eqb_eq in Hrole as ->.
Qed.

Lemma admin_router_admits_admins_only_witness :
  false = false
  /\ exists userId user,
       Some Sample.admin1 = Some userId /\ userId <> ""
       /\ ({[Sample.admin1 := VObj [("username", VStr "root"); ("role", VStr "admin")]]}
           : Access.Users) !! userId = Some user
       /\ getField "role" user = Some (VStr "admin").
Proof.
  apply (admin_router_admits_admins_only
           {[Sample.admin1 := VObj [("username", VStr "root"); ("role", VStr "admin")]]}
           (Some Sample.admin1) false Sample.team (Sample.env 0)
           (Routes.mkRequest Routes.DELETE ["employees"; Sample.idB] (VObj []) "" [])
           (fst (Routes.deleteEmployee Sample.team Sample.idB))
           (snd (Routes.deleteEmployee Sample.team Sample.idB))).
  - vm_compute; reflexivity.
  - left. vm_compute; reflexivity.
Defined.

(** ** The audit log *)

Lemma requireAdmin_Passed (users : Access.Users) (session : option string)
    (user : value) :
  Access.requireAdmin users session = Access.Passed user ->
  exists userId,
    session = Some userId /\ userId <> "" /\ users !! userId = Some user
    /\ Access.roleIs "admin" user = true.
Proof.
  unfold Access.requireAdmin.
  destruct session as [userId|]; [|discriminate].
  destruct (String.eqb_spec userId "") as [->|Hne]; [discriminate|].
  destruct (users !! userId) as [u|] eqn:Hu; [|discriminate].
  destruct (Access.roleIs "admin" u) eqn:Hrole; cbn [negb]; [|discriminate].
  intros [= <-]. by exists userId.
Qed.

Lemma auditLog_Some (action : string) (user : option (string * value))
    (paramsId : option string) (body : value) (now : Z) (ip : string)
    (userAgent : option string) (r : Response) (e : Audit.LogEntry) :
  Audit.auditLog action user paramsId body now ip userAgent r = Some e ->
  succeeded r = true
  /\ Audit.logAdminId e = fst <$> user
  /\ Audit.logAction e = action
  /\ Audit.logTimestamp e = now
  /\ Audit.logRequestBody e
     = if Audit.includes "CREATE" action || Audit.includes "UPDATE" action
       then Some body else None.
Proof.
  unfold Audit.auditLog, succeeded.
  destruct (_ && _); [|discriminate]. by intros [= <-].
Qed.

Lemma auditLog_succeeded (action : string) (user : option (string * value))
    (paramsId : option string) (body : value) (now : Z) (ip : string)
    (userAgent : option string) (r : Response) :
  succeeded r = true ->
  exists e, Audit.auditLog action user paramsId body now ip userAgent r = Some e.
Proof.
  unfold Audit.auditLog, succeeded. intros ->. eauto.
Qed.

(** X17: a request to the admin router that changes the store prints an
    audit entry that names the admin of the session, the time of the
    answer and the action, which is the creation, the update or the
    deletion of an employee; an entry is printed only for an answer with a
    2xx status; and it carries a request body only for a creation or an
    update, and then the body as it is when the answer is sent: sanitized,
    and rewritten by the sanitizers of the validator chains of the
    route. *)
Theorem changes_are_audited (users : Access.Users) (session : option string)
    (limited : bool) (db : Store) (env : Env) (req : Routes.Request)
    (ip : string) (userAgent : option string)
    (r : Response) (db' : Store) (log : option Audit.LogEntry) :
  Audit.auditedRouter users session limited db env req ip userAgent
    = Some (r, db', log) ->
  (db' <> db ->
   exists e,
     log = Some e
     /\ Audit.logAdminId e = session
     /\ Audit.logTimestamp e = envNow env
     /\ In (Audit.logAction e)
          ["CREATE_EMPLOYEE"; "UPDATE_EMPLOYEE"; "DELETE_EMPLOYEE"])
  /\ (forall e,
        log = Some e ->
        succeeded r = true
        /\ (Audit.logRequestBody e <> None ->
            (Audit.logAction e = "CREATE_EMPLOYEE"
             /\ Audit.logRequestBody e
                = Some (envCreateChain env (Sanitize.sanitizeInput (Routes.reqBody req))))
            \/ (Audit.logAction e = "UPDATE_EMPLOYEE"
                /\ Audit.logRequestBody e
                   = Some (envUpdateChain env
                             (Sanitize.sanitizeInput (Routes.reqBody req)))))).
Proof.
  unfold Audit.auditedRouter.
  destruct (Access.adminRouter users session limited db env req)
    as [[r0 db0]|] eqn:Hrouter; [|discriminate].
  unfold Access.adminRouter in Hrouter.
  destruct limited.
  { injection Hrouter as <- <-. intros [= <- <- <-]. split; [done|discriminate]. }
  destruct (Access.requireAdmin users session) as [user|denied] eqn:Hadmin.
  2:{ injection Hrouter as <- <-. intros [= <- <- <-]. split; [done|discriminate]. }
  apply requireAdmin_Passed in Hadmin as (userId & -> & Hne & Huser & Hrole).
  cbn [default] in *.
  pose proof (serve_outcome _ _ _ _ _ Hrouter) as Hout.
  unfold Routes.serve in Hrouter. cbn [Routes.reqMethod Routes.reqPath] in Hrouter.
  destruct (Routes.dispatch Routes.routes (Routes.reqMethod req) (Routes.reqPath req))
    as [[h params]|]; [|discriminate].
  intros [= <- <- <-]. split.
  - intros Hchanged. destruct Hout as [->|Hok]; [done|].
    destruct (auditLog_succeeded (Audit.actionOf h) (Some (userId, user))
                (Audit.paramOpt "id" params)
                (Routes.bodyFor env h (Routes.reqBody req)) (envNow env)
                ip userAgent r0 Hok) as [e He].
    exists e. split; [done|].
    apply auditLog_Some in He as (_ & Hid & Haction & Htime & _).
    split_and!; [done..|]. rewrite Haction.
    destruct h; cbn [Routes.reqBody Routes.reqUser Routes.reqErrors] in Hrouter;
      try discriminate.
    + exfalso. apply Hchanged.
      pose proof (getEmployee_store db env (Routes.param "id" params)) as H.
      injection Hrouter as Heq. by rewrite Heq in H.
    + simpl. tauto.
    + simpl. tauto.
    + simpl. tauto.
    + exfalso. apply Hchanged. unfold Routes.employeeStats in Hrouter.
      by injection Hrouter as _ <-.
  - intros e He.
    apply auditLog_Some in He as (Hok & _ & Haction & _ & Hbody).
    split; [done|]. rewrite Hbody, Haction.
    destruct h; vm_compute (_ || _); try done; intros _; cbn [Routes.bodyFor Audit.actionOf];
      tauto.
Qed.

Lemma changes_are_audited_witness :
  (<[Sample.idB := Db.applySet
                     (Sample.employee "EMP0002" "Bob" "bob@example.com" "active"
                        (Some Sample.idA))
                     [("status", VStr "inactive"); ("updatedBy", VId Sample.admin1)]]>
     Sample.team <> Sample.team ->
   exists e,
     Audit.auditLog "UPDATE_EMPLOYEE"
       (Some (Sample.admin1, VObj [("username", VStr "root"); ("role", VStr "admin")]))
       (Some Sample.idB) (VObj [("status", VStr "inactive")]) 5000 "10.0.0.1" None
       (fst (Routes.updateEmployee Sample.team (Sample.env 0) Sample.idB Sample.admin1 []
               (VObj [("status", VStr "inactive")]))) = Some e
     /\ Audit.logAdminId e = Some Sample.admin1
     /\ Audit.logTimestamp e = envNow (Sample.env 0)
     /\ In (Audit.logAction e)
          ["CREATE_EMPLOYEE"; "UPDATE_EMPLOYEE"; "DELETE_EMPLOYEE"])
  /\ (forall e,
        Audit.auditLog "UPDATE_EMPLOYEE"
          (Some (Sample.admin1, VObj [("username", VStr "root"); ("role", VStr "admin")]))
          (Some Sample.idB) (VObj [("status", VStr "inactive")]) 5000 "10.0.0.1" None
          (fst (Routes.updateEmployee Sample.team (Sample.env 0) Sample.idB Sample.admin1
                  [] (VObj [("status", VStr "inactive")]))) = Some e ->
        succeeded (fst (Routes.updateEmployee Sample.team (Sample.env 0) Sample.idB
                          Sample.admin1 [] (VObj [("status", VStr "inactive")]))) = true
        /\ (Audit.logRequestBody e <> None ->
            (Audit.logAction e = "CREATE_EMPLOYEE"
             /\ Audit.logRequestBody e
                = Some (envCreateChain (Sample.env 0)
                          (Sanitize.sanitizeInput (VObj [("status", VStr "inactive")]))))
            \/ (Audit.logAction e = "UPDATE_EMPLOYEE"
                /\ Audit.logRequestBody e
                   = Some (envUpdateChain (Sample.env 0)
                             (Sanitize.sanitizeInput
                                (VObj [("status", VStr "inactive")])))))).
Proof.
  apply (changes_are_audited
           {[Sample.admin1 := VObj [("username", VStr "root"); ("role", VStr "admin")]]}
           (Some Sample.admin1) false Sample.team (Sample.env 0)
           (Routes.mkRequest Routes.PUT ["employees"; Sample.idB]
              (VObj [("status", VStr "inactive")]) Sample.admin1 [])
           "10.0.0.1" None).
  vm_compute. reflexivity.
Defined.
Theorem ageRule_birthdays (today birth : Rules.CalendarDate) :
  (Rules.ageRule today (Rules.Born birth) = None
   <-> Rules.onOrAfter today (Rules.yearsLater 16 birth)
       /\ ~ Rules.onOrAfter today (Rules.yearsLater 101 birth))
  /\ (Rules.ageRule today (Rules.Born birth)
        = Some "Employee must be at least 16 years old"
      <-> ~ Rules.onOrAfter today (Rules.yearsLater 16 birth))
  /\ (Rules.ageRule today (Rules.Born birth)
        = Some "Please verify the date of birth"
      <-> Rules.onOrAfter today (Rules.yearsLater 101 birth)).
Proof.
  destruct today as [Y M D], birth as [y m d].
  unfold Rules.ageRule, Rules.ageOn, Rules.onOrAfter, Rules.yearsLater.
  cbn [Rules.year Rules.month Rules.day].
  destruct (M - m <? 0) eqn:Hm; cbn [orb andb].
  - apply Z.ltb_lt in Hm.
    destruct (Y - y - 1 <? 16) eqn:H16; [apply Z.ltb_lt in H16|apply Z.ltb_ge in H16];
      [|destruct (100 <? Y - y - 1) eqn:H100;
        [apply Z.ltb_lt in H100|apply Z.ltb_ge in H100]];
      (split_and!; split; intros H; try discriminate; try done; try lia).
  - apply Z.ltb_ge in Hm.
    destruct (M - m =? 0) eqn:Hm0; [apply Z.eqb_eq in Hm0|apply Z.eqb_neq in Hm0];
      cbn [andb].
    + destruct (D <? d) eqn:Hd; [apply Z.ltb_lt in Hd|apply Z.ltb_ge in Hd].
      * destruct (Y - y - 1 <? 16) eqn:H16;
          [apply Z.ltb_lt in H16|apply Z.ltb_ge in H16];
          [|destruct (100 <? Y - y - 1) eqn:H100;
            [apply Z.ltb_lt in H100|apply Z.ltb_ge in H100]];
          (split_and!; split; intros H; try discriminate; try done; try lia).
      * destruct (Y - y <? 16) eqn:H16;
          [apply Z.ltb_lt in H16|apply Z.ltb_ge in H16];
          [|destruct (100 <? Y - y) eqn:H100;
            [apply Z.ltb_lt in H100|apply Z.ltb_ge in H100]];
          (split_and!; split; intros H; try discriminate; try done; try lia).
    + destruct (Y - y <? 16) eqn:H16;
        [apply Z.ltb_lt in H16|apply Z.ltb_ge in H16];
        [|destruct (100 <? Y - y) eqn:H100;
          [apply Z.ltb_lt in H100|apply Z.ltb_ge in H100]];
        (split_and!; split; intros H; try discriminate; try done; try lia).
Qed.

(** ** The pages of the listing *)

Lemma ceilDiv_bounds (total limit : Z) :
  1 <= limit ->
  (Listing.ceilDiv total limit - 1) * limit < total
  /\ total <= Listing.ceilDiv total limit * limit.
Proof.
  intros Hlimit. unfold Listing.ceilDiv.
  pose proof (Z.div_mod (- total) limit ltac:(lia)) as Hdiv.
  pose proof (Z.mod_pos_bound (- total) limit ltac:(lia)) as Hmod.
  nia.
Qed.

Lemma totalPages_nonneg (matching : list value) (limit : Z) :
  1 <= limit -> 0 <= Listing.totalPages matching limit.
Proof.
  intros Hlimit. unfold Listing.totalPages.
  pose proof (ceilDiv_bounds (Z.of_nat (List.length matching)) limit Hlimit).
  nia.
Qed.

Lemma take_add_drop {A : Type} (a b : nat) (l : list A) :
  take (a + b) l = (take a l ++ take b (drop a l))%list.
Proof.
  revert l. induction a as [|a IH]; intros [|x l]; simpl; try done.
  - by destruct b.
  - by rewrite IH.
Qed.

Lemma employeesOnPage_nat (matching : list value) (i n : nat) :
  Listing.employeesOnPage matching (Z.of_nat (S i)) (Z.of_nat n)
  = take n (drop (i * n) matching).
Proof.
  unfold Listing.employeesOnPage, Listing.window. f_equal; [lia|].
  f_equal. nia.
Qed.

Lemma pages_concat (matching : list value) (n t : nat) :
  List.concat (map (fun p => Listing.employeesOnPage matching (Z.of_nat p) (Z.of_nat n))
              (seq 1 t))
  = take (t * n) matching.
Proof.
  induction t as [|t IH]; [done|].
  rewrite seq_S, map_app, concat_app, IH. simpl.
  rewrite employeesOnPage_nat, app_nil_r.
  replace (n + t * n)%nat with (t * n + n)%nat by lia.
  by rewrite take_add_drop.
Qed.

(** X19: with a limit of at least one, the pages from 1 to [totalPages]
    of the listing, one after the other, are the matching employees, each
    one once and in their order. *)
Theorem listing_pages_partition (matching : list value) (limit : Z) :
  1 <= limit ->
  List.concat (map (fun p => Listing.employeesOnPage matching (Z.of_nat p) limit)
              (seq 1 (Z.to_nat (Listing.totalPages matching limit))))
  = matching.
Proof.
  intros Hlimit.
  pose proof (totalPages_nonneg matching limit Hlimit) as Hpages.
  pose proof (ceilDiv_bounds (Z.of_nat (List.length matching)) limit Hlimit)
    as [_ Hupper].
  fold (Listing.totalPages matching limit) in Hupper.
  transitivity
    (List.concat
       (map (fun p => Listing.employeesOnPage matching (Z.of_nat p)
                        (Z.of_nat (Z.to_nat limit)))
            (seq 1 (Z.to_nat (Listing.totalPages matching limit))))).
  { by rewrite Z2Nat.id by lia. }
  rewrite pages_concat. apply take_ge. nia.
Qed.

Lemma listing_pages_partition_witness :
  List.concat (map (fun p => Listing.employeesOnPage
                          [VNum 1; VNum 2; VNum 3; VNum 4; VNum 5] (Z.of_nat p) 2)
              (seq 1 (Z.to_nat (Listing.totalPages
                                  [VNum 1; VNum 2; VNum 3; VNum 4; VNum 5] 2))))
  = [VNum 1; VNum 2; VNum 3; VNum 4; VNum 5].
Proof.
  apply (listing_pages_partition [VNum 1; VNum 2; VNum 3; VNum 4; VNum 5] 2). lia.
Defined.

(** X20: for a page and a limit of at least one, a page holds at most
    [limit] employees, [hasNextPage] says whether the next page holds an
    employee, and a page after the last one is empty. *)
Theorem listing_hasNextPage (matching : list value) (page limit : Z) :
  1 <= page -> 1 <= limit ->
  Z.of_nat (List.length (Listing.employeesOnPage matching page limit)) <= limit
  /\ (Listing.hasNextPage matching page limit = true
      <-> Listing.employeesOnPage matching (page + 1) limit <> [])
  /\ (Listing.totalPages matching limit < page ->
      Listing.employeesOnPage matching page limit = []).
Proof.
  intros Hpage Hlimit.
  pose proof (ceilDiv_bounds (Z.of_nat (List.length matching)) limit Hlimit)
    as [Hlower Hupper].
  fold (Listing.totalPages matching limit) in Hlower, Hupper.
  unfold Listing.hasNextPage, Listing.employeesOnPage, Listing.window.
  split_and!.
  - rewrite length_take. lia.
  - rewrite Z.ltb_lt. split.
    + intros Hnext Hempty. apply (f_equal List.length) in Hempty.
      rewrite length_take, length_drop in Hempty. simpl in Hempty. nia.
    + intros Hsome. destruct (Z.lt_ge_cases page (Listing.totalPages matching limit))
        as [|Hge]; [done|].
      exfalso. apply Hsome. rewrite drop_ge; [by destruct (Z.to_nat _)|]. nia.
  - intros Hafter. rewrite drop_ge; [by destruct (Z.to_nat _)|]. nia.
Qed.

Lemma listing_hasNextPage_witness :
  Z.of_nat (List.length (Listing.employeesOnPage [VNum 1; VNum 2; VNum 3] 1 2)) <= 2
  /\ (Listing.hasNextPage [VNum 1; VNum 2; VNum 3] 1 2 = true
      <-> Listing.employeesOnPage [VNum 1; VNum 2; VNum 3] (1 + 1) 2 <> [])
  /\ (Listing.totalPages [VNum 1; VNum 2; VNum 3] 2 < 1 ->
      Listing.employeesOnPage [VNum 1; VNum 2; VNum 3] 1 2 = []).
Proof.
  apply (listing_hasNextPage [VNum 1; VNum 2; VNum 3] 1 2); lia.
Defined.

(** ** The numbering hook *)

Lemma ascii_compare_lt_trans (a b c : ascii) :
  Ascii.compare a b = Lt -> Ascii.compare b c = Lt -> Ascii.compare a c = Lt.
Proof.
  unfold Ascii.compare. rewrite !N.compare_lt_iff. lia.
Qed.

Lemma string_compare_lt_trans (a b c : string) :
  String.compare a b = Lt -> String.compare b c = Lt -> String.compare a c = Lt.
Proof.
  revert b c. induction a as [|x a IH]; intros [|y b] [|z c]; simpl; try done.
  destruct (Ascii.compare x y) eqn:Hxy; try done.
  - apply Ascii.compare_eq_iff in Hxy as ->.
    destruct (Ascii.compare y z); try done. apply IH.
  - intros _. destruct (Ascii.compare y z) eqn:Hyz; try done.
    + apply Ascii.compare_eq_iff in Hyz as <-. by rewrite Hxy.
    + by rewrite (ascii_compare_lt_trans x y z).
Qed.

Lemma string_ltb_irrefl (a : string) : String.ltb a a = false.
Proof.
  unfold String.ltb. pose proof (String.compare_antisym a a) as H.
  by destruct (String.compare a a).
Qed.

Lemma string_ltb_trans (a b c : string) :
  String.ltb a b = true -> String.ltb b c = true -> String.ltb a c = true.
Proof.
  unfold String.ltb.
  destruct (String.compare a b) eqn:Hab; try done.
  destruct (String.compare b c) eqn:Hbc; try done.
  by rewrite (string_compare_lt_trans a b c).
Qed.

(** [fold_left greater] yields an [employeeId] that none of the documents
    and not the start value exceeds. *)
Lemma fold_greater_max (docs : list value) (acc : option string) (last : string) :
  fold_left Employee.greater docs acc = Some last ->
  (forall a, acc = Some a -> String.ltb last a = false)
  /\ (forall doc e, In doc docs ->
        Employee.docEmployeeId doc = Some (VStr e) -> String.ltb last e = false).
Proof.
  revert acc. induction docs as [|doc docs IH]; intros acc; simpl.
  - intros ->. split; [|done]. intros a [= <-]. apply string_ltb_irrefl.
  - intros Hfold. destruct (IH _ Hfold) as [Hacc Hdocs]. split.
    + intros a ->. unfold Employee.greater in Hacc.
      destruct (Employee.docEmployeeId doc) as [[| | |e| | | |]|]; try by apply Hacc.
      destruct (String.ltb a e) eqn:Hlt; [|by apply Hacc].
      specialize (Hacc e eq_refl).
      destruct (String.ltb last a) eqn:Hla; [|done].
      by rewrite (string_ltb_trans last a e) in Hacc.
    + intros doc' e [<-|Hin] He; [|by eapply Hdocs].
      unfold Employee.greater in Hacc. rewrite He in Hacc.
      destruct acc as [a|]; [|by apply Hacc].
      destruct (String.ltb a e) eqn:Hlt; [by apply Hacc|].
      specialize (Hacc a eq_refl).
      destruct (String.ltb last e) eqn:Hle; [|done].
      (* a <= last < e, and not a < e: then e <= a <= last < e *)
      unfold String.ltb in *.
      destruct (String.compare last e) eqn:Hc1; try done.
      pose proof (String.compare_antisym a e) as Hanti.
      destruct (String.compare a e) eqn:Hc2; try done.
      * apply String.compare_eq_iff in Hc2 as ->. by rewrite Hc1 in Hacc.
      * destruct (String.compare e a) eqn:Hc3; try done.
        by rewrite (string_compare_lt_trans last e a) in Hacc.
Qed.

Lemma lastEmployeeId_max (db : Store) (last id : string) (doc : value) (e : string) :
  Employee.lastEmployeeId db = Some last ->
  db !! id = Some doc ->
  Employee.docEmployeeId doc = Some (VStr e) ->
  String.ltb last e = false.
Proof.
  unfold Employee.lastEmployeeId. intros Hlast Hdoc He.
  apply fold_greater_max in Hlast as [_ Hmax].
  apply (Hmax doc); [|done].
  apply in_map_iff. exists (id, doc). split; [done|].
  apply list_elem_of_In. by apply elem_of_map_to_list.
Qed.

(** The hook on every greatest identifier of the form [EMP] and four
    digits. *)
Lemma next_id_checked :
  forallb
    (fun k =>
       let e := employeeIdOf (N.of_nat k) in
       let next :=
         "EMP" +:+ Employee.padStart4
           (match (if String.eqb e "" then Some 1%N
                   else match Employee.parseInt
                                (string_of_list_ascii
                                   (Employee.removeFirst
                                      (list_ascii_of_string "EMP")
                                      (list_ascii_of_string e))) with
                        | Some lastIdNumber => Some (lastIdNumber + 1)%N
                        | None => None
                        end) with
            | Some n => stringOfN n
            | None => "NaN"
            end) in
       String.eqb next (employeeIdOf (N.of_nat k + 1))
       && Bool.eqb (Employee.validEmployeeId (Some (VStr next)))
                   (N.of_nat k <? 9999)%N
       && Bool.eqb (String.ltb e next) (N.of_nat k <? 9999)%N)
    (seq 0 (N.to_nat 10000)) = true.
Proof. vm_compute. reflexivity. Qed.

(** X21: when the greatest [employeeId] in use is [EMP] with the four
    digits of [n], the numbering hook yields [EMP] with the digits of
    [n + 1]; up to [n = 9998] this identifier passes the validators of
    the schema and no stored employee has it, and after [EMP9999] the
    hook yields [EMP10000], which the pattern of the schema refuses. *)
Theorem nextEmployeeId_successor (db : Store) (n : N) :
  Employee.lastEmployeeId db = Some (employeeIdOf n) ->
  (n < 10000)%N ->
  Employee.nextEmployeeId db = employeeIdOf (n + 1)
  /\ Employee.validEmployeeId (Some (VStr (Employee.nextEmployeeId db)))
     = (n <? 9999)%N
  /\ ((n < 9999)%N ->
      forall id doc,
        db !! id = Some doc ->
        Employee.docEmployeeId doc <> Some (VStr (Employee.nextEmployeeId db))).
Proof.
  intros Hlast Hn. pose proof next_id_checked as H.
  rewrite forallb_forall in H. specialize (H (N.to_nat n)).
  rewrite N2Nat.id in H. specialize (H ltac:(apply in_seq; lia)).
  cbv zeta in H. apply andb_prop in H as [H Hlt]. apply andb_prop in H as [Heq Hvalid].
  apply String.eqb_eq in Heq. apply Bool.eqb_prop in Hvalid, Hlt.
  assert (Employee.nextEmployeeId db = employeeIdOf (n + 1)) as Hnext.
  { unfold Employee.nextEmployeeId. rewrite Hlast. exact Heq. }
  rewrite Heq in Hvalid, Hlt. rewrite Hnext. split_and!; [done..|].
  intros Hsmall id doc Hdoc He.
  pose proof (lastEmployeeId_max db _ id doc _ Hlast Hdoc He) as Hmax.
  rewrite Hmax in Hlt. symmetry in Hlt. apply N.ltb_ge in Hlt. lia.
Qed.

Lemma nextEmployeeId_successor_witness :
  Employee.nextEmployeeId Sample.team = employeeIdOf (5000 + 1)
  /\ Employee.validEmployeeId (Some (VStr (Employee.nextEmployeeId Sample.team)))
     = (5000 <? 9999)%N
  /\ ((5000 < 9999)%N ->
      forall id doc,
        Sample.team !! id = Some doc ->
        Employee.docEmployeeId doc
        <> Some (VStr (Employee.nextEmployeeId Sample.team))).
Proof.
  apply (nextEmployeeId_successor Sample.team 5000).
  - vm_compute. reflexivity.
  - reflexivity.
Defined.

(** X22: [save] validates a document before its hooks run, and
    [employeeId] is required: a document without [employeeId] is refused
    with a validation error whatever the store holds, and in every [save]
    that stores a document the numbering hook leaves the document as it
    is, so that the stored [employeeId] is the one that the caller
    gave. *)
Theorem save_never_numbers (db : Store) (env : Env) (id : string) (doc : value) :
  (truthy (Employee.docEmployeeId doc) = false ->
   Db.save db env id doc = Db.Throw Db.ValidationError)
  /\ (forall db' saved,
        Db.save db env id doc = Db.Ok (db', saved) ->
        Employee.preSaveEmployeeId db (Employee.preSaveUpdatedAt (envNow env) doc)
        = Employee.preSaveUpdatedAt (envNow env) doc
        /\ Employee.docEmployeeId saved = Employee.docEmployeeId doc
        /\ Employee.validEmployeeId (Employee.docEmployeeId saved) = true).
Proof.
  split.
  - intros Hfalsy. unfold Db.save.
    destruct (Employee.validEmployeeId (Employee.docEmployeeId doc)) eqn:Hvalid;
      [|done].
    apply validEmployeeId_truthy in Hvalid. congruence.
  - intros db' saved Hsave.
    pose proof (save_Ok_valid _ _ _ _ _ _ Hsave) as [Hvalid _].
    apply save_Ok in Hsave as (_ & -> & _).
    pose proof (preSave_members db (envNow env) doc "employeeId" Hvalid) as Hid.
    cbn [String.eqb] in Hid.
    assert (Employee.docEmployeeId (Employee.preSaveUpdatedAt (envNow env) doc)
            = Employee.docEmployeeId doc) as Hkeep.
    { unfold Employee.docEmployeeId, Employee.preSaveUpdatedAt. cbn [getField].
      rewrite assoc_setField_ne by done. by rewrite getField_members. }
    split_and!.
    + unfold Employee.preSaveEmployeeId. rewrite Hkeep.
      by rewrite (validEmployeeId_truthy _ Hvalid).
    + exact Hid.
    + unfold Employee.docEmployeeId in *. by rewrite Hid.
Qed.

(** ** The role checks *)

Lemma checkRole_Passed (roles : list string) (users : Access.Users)
    (session : option string) (user : value) :
  Access.checkRole roles users session = Access.Passed user
  <-> exists userId,
        session = Some userId /\ userId <> "" /\ users !! userId = Some user
        /\ existsb (fun role => Access.roleIs role user) roles = true.
Proof.
  unfold Access.checkRole. split.
  - destruct session as [userId|]; [|discriminate].
    destruct (String.eqb_spec userId "") as [->|Hne]; [discriminate|].
    destruct (users !! userId) as [u|] eqn:Hu; [|discriminate].
    destruct (existsb _ roles) eqn:Hrole; cbn [negb]; [|discriminate].
    intros [= <-]. by exists userId.
  - intros (userId & -> & Hne & -> & ->).
    by destruct (String.eqb_spec userId "").
Qed.

(** X23: the role checks of [auth.js] agree: [checkRole(['admin'])] lets
    pass exactly the callers that [requireAdmin] lets pass, with the same
    [req.user]; a caller that [checkRole(roles)] lets pass is signed in
    for [requireAuth], is the user that [getCurrentUser] loads and has
    one of the roles; and a caller that passes for a list of roles passes
    for every list that contains them. *)
Theorem role_checks_agree (users : Access.Users) (session : option string)
    (roles roles' : list string) (user : value) :
  (Access.requireAdmin users session = Access.Passed user
   <-> Access.checkRole ["admin"] users session = Access.Passed user)
  /\ (Access.checkRole roles users session = Access.Passed user ->
      Access.requireAuth session = Next
      /\ Access.getCurrentUser users session = Some user
      /\ (exists role, In role roles /\ getField "role" user = Some (VStr role))
      /\ ((forall role, In role roles -> In role roles') ->
          Access.checkRole roles' users session = Access.Passed user)).
Proof.
  split.
  - rewrite checkRole_Passed. simpl. split.
    + intros (userId & -> & Hne & Hu & Hrole)%requireAdmin_Passed.
      exists userId. by rewrite Hrole.
    + intros (userId & -> & Hne & Hu & Hrole).
      rewrite orb_false_r in Hrole. unfold Access.requireAdmin.
      destruct (String.eqb_spec userId ""); [done|]. by rewrite Hu, Hrole.
  - intros (userId & -> & Hne & Hu & Hrole)%checkRole_Passed.
    apply existsb_exists in Hrole as (role & Hin & Hrole).
    unfold Access.requireAuth, Access.getCurrentUser, Access.signedIn.
    destruct (String.eqb_spec userId "") as [|_]; [done|]. split_and!; try done.
    + exists role. split; [done|]. unfold Access.roleIs in Hrole.
      destruct (getField "role" user) as [[| | |r| | | |]|]; try discriminate.
      by apply String.eqb_eq in Hrole as ->.
    + intros Hsub. apply checkRole_Passed. exists userId. split_and!; try done.
      apply existsb_exists. exists role. split; [by apply Hsub|done].
Qed.
